(* ===== verification/_CoqProject ===== *)
-Q . S2P
Prelude.v
Json.v
Runtime.v
Browser.v
Jar.v
TopDomain.v
Cookie.v
Store.v
CookieModule.v
Entity.v
Group.v
