(* ===== verification/Prelude.v ===== *)
(** * A verification development of analytics.js-core's cookie persistence

    The repository's persistence layer has two source files:

    - [src/lib/cookie.ts]: the [Cookie] store.  Its constructor calls
      [Cookie.prototype.options], which computes a candidate cookie domain
      ["." + topDomain(location.href)], merges the caller's options over the
      defaults (maxage one year, path "/", that domain, sameSite "Lax") with
      [@ndhoule/defaults], and then probes the scope: it writes the key
      ["ajs:test"], reads it back, falls back to [domain = null] when the
      read fails, and removes the probe.  [set] JSON-stringifies a value and
      writes it through [@segment/cookie] with a clone of the options (the
      JSON text ["null"] becomes a deletion); [get] reads and JSON-parses;
      [remove] deletes.  Every storage call of [set], [get] and [remove] sits
      in a [try]/[catch].
    - [src/lib/group.ts]: [Group], an [Entity] preconfigured with
      [Group.defaults] (persist, cookie key ["ajs_group_id"], localStorage
      key ["ajs_group_properties"]).

    The code under src/ calls collaborators that are not part of src/:
    the browser's cookie store behind [document.cookie], the
    [@segment/cookie] wrapper around it, [@segment/top-domain],
    [@ndhoule/defaults], [./utils/clone], [window.JSON] and [./entity].
    They are modelled from the specification and from the documented
    behaviour of those libraries, and the manifest marks them so.

    Layout of the library (each file opens with its own summary), in
    dependency order:

    - [Prelude] (this file): notation scope [ajs_scope], the hint
      databases [ajs] and [ajs_rw], shared tactics and the generic lemmas on
      strings, lists and options.
    - [Json]: JavaScript values as [window.JSON] sees them, [stringify]
      (SerializeJSONProperty) and [parse] (a parser with explicit fuel;
      [parse] supplies fuel proportional to the text's length, and
      [parse_fuel_adequate] shows it is enough), and the round trip
      [parse (stringify v) = normalize v].
    - [Runtime]: the JavaScript heap (objects as [gmap string prim] at
      positive locations), truthiness, the world (heap, next free location,
      cookie jar) and the state-and-exception monad [M] with [try]/[catch];
      [defaults] (mutating the target, as [@ndhoule/defaults]) and [clone];
      the well-formedness [heap_wf] (every location below the next free
      one) that every operation keeps.
    - [Browser]: the cookie jar of RFC 6265 (domain and path matching,
      host-only cookies, replacement in place, expiry by a past date, the
      [document.cookie] order) and [@segment/cookie]'s [set]/[get].
    - [Jar]: the jar under sequences of writes: a write touches only its
      own name, and [consistent] (one visible value per name) is kept.
    - [TopDomain]: [@segment/top-domain]'s probing of the host's levels,
      proved to return the first level the browser accepts.
    - [Cookie]: [src/lib/cookie.ts] itself ([set], [get], [remove],
      [options], [Cookie_new], [cookie_singleton]) with the theorems on
      configuration and reconfiguration, round trips, deletion and the
      error paths.
    - [Store]: the store's contract as a [gmap] key-value map
      ([kv_set]/[kv_get]/[kv_remove], [kv_run] on a sequence of
      operations) and the refinement: [run] of [set]/[get]/[remove] in any
      order returns what [kv_run] returns, from the module singleton on.
    - [CookieModule]: the module's exports (the singleton and the
      constructor), a second store on the same page, which leaves the
      singleton's options and stored map as they were.
    - [Entity]: the class [Entity] stating [Entity.call]'s configuration
      contract, with the instance [entity_spec] built from the spec.
    - [Group]: [src/lib/group.ts] ([Group_defaults], [group_debug],
      [Group_new], and [group_module] with its [group_exports]), proved
      against the class [Entity].

    Theorems, by group: the refinement of the key-value contract
    ([Store]) and the sharing of the jar between stores ([CookieModule]);
    [set] of a value serializing to nothing or to ["null"] being exactly
    [remove] (an equivalence); the types of [interface CookieOptions]
    kept by [configure]; the configuration outcome of
    [new Cookie(options)], its fallback and reconfiguration ([Cookie],
    [TopDomain]); the round trips and deletions of [set]/[get]/[remove];
    the error paths (blocked storage, values [JSON.stringify] throws on,
    malformed cookies), which never throw from [set]/[get]/[remove] but
    do from the constructor; the jar invariant [scoped] and the store's
    invariant on any browser; the termination of [get]'s parse within
    the fuel it is given; what the probe of [configure] does beyond the
    spec (it can stay behind, [probe_residue], and it deletes a value
    stored under its key, [probe_clobbers_user_key]); Group's
    configuration, the shallow merge of its nested options, the sharing
    of its nested defaults, and a second group built through the exports
    leaving the singleton's configuration as it was.  Every property is
    quantified over browsers, worlds and options; witnesses apply it on
    concrete pages ([example_site], [blocked_site]) by evaluation.

    Not modelled: [debug] output (no effect on state), [bind-all] (the
    model passes the instance explicitly), [inherits] (Group's code calls
    no inherited method), [Entity]'s id and traits bookkeeping (outside
    the spec's core), cookie time, URI encoding, SameSite and HttpOnly
    enforcement, and fractional numbers in [JSON.parse].  No property
    is stated as liveness: every operation of the code runs to an end
    without waiting on another party, which the models show by being
    total functions ([Fixpoint]s on the operation list, the host's levels
    and the parser's fuel); the fuel of [JSON.parse] is shown enough
    ([get_parse_terminates]).  The [debug] instances are kept as the
    namespace they log under ([group_debug]); the call
    [debug('fallback to domain=null')] writes only to the console. *)

From Stdlib Require Import Ascii String ZArith Lia.
From stdpp Require Import base list option strings.

Declare Scope ajs_scope.
Delimit Scope ajs_scope with ajs.

Create HintDb ajs discriminated.
Create Rewrite HintDb ajs_rw.

(** ** Tactics shared by the development *)

Ltac invc H := inversion H; subst; clear H.

(** Case on the first [match] or [if] scrutinee found in the goal. *)
Ltac split_match :=
  match goal with
  | |- context [match ?x with _ => _ end] => let E := fresh "E" in destruct x eqn:E
  end.

Ltac simpl_ajs := repeat (autorewrite with ajs_rw in *; simpl in *).

(** ** Strings

    stdpp declares [String.append] [simpl never]; its two defining
    equations are rewrite rules of [ajs_rw] instead. *)

Lemma string_app_nil_l (b : string) : EmptyString +:+ b = b.
Proof. reflexivity. Qed.

Lemma string_app_cons (x : ascii) (a b : string) :
  String x a +:+ b = String x (a +:+ b).
Proof. reflexivity. Qed.

#[export] Hint Rewrite string_app_nil_l string_app_cons : ajs_rw.

Lemma string_app_assoc (a b c : string) :
  (a +:+ b) +:+ c = a +:+ (b +:+ c).
Proof. induction a; simpl_ajs; congruence. Qed.

Lemma string_app_nil_r (a : string) : a +:+ EmptyString = a.
Proof. induction a; simpl_ajs; congruence. Qed.

Lemma string_length_app (a b : string) :
  String.length (a +:+ b) = String.length a + String.length b.
Proof. induction a; simpl_ajs; auto. Qed.

#[export] Hint Rewrite string_app_assoc string_app_nil_r string_length_app : ajs_rw.

Lemma string_eqb_refl' (s : string) : String.eqb s s = true.
Proof. apply String.eqb_refl. Qed.

#[export] Hint Rewrite string_eqb_refl' : ajs_rw.

Lemma string_app_inv_l (a b c : string) : a +:+ b = a +:+ c -> b = c.
Proof. induction a; simpl_ajs; [auto | intros H; invc H; auto]. Qed.

(** ** Options *)

Lemma option_bind_some {A B} (o : option A) (f : A -> option B) (b : B) :
  (o ≫= f) = Some b -> exists a, o = Some a /\ f a = Some b.
Proof. destruct o; simpl; [eauto | discriminate]. Qed.

#[export] Hint Resolve String.eqb_refl : ajs.
