(* ===== verification/Json.v ===== *)
(** * [window.JSON]: the codec under [Cookie.prototype.set] and [get]

    [src/lib/cookie.ts] stores [window.JSON.stringify(value)] in the cookie
    and returns [window.JSON.parse(raw)] on reads.  This file models both
    functions on the JavaScript values a caller can hand to [set]:

    - [value]: undefined, null, booleans, numbers (integers, [NaN] and the
      infinities), strings of 8-bit code units, arrays, plain objects as
      property lists in enumeration order, and BigInts (the one primitive
      on which [stringify] throws a [TypeError]);
    - [stringify]: SerializeJSONProperty of ECMA-262 25.5.2, with the three
      outcomes of the algorithm ([Thrown], [Absent] for [undefined], [Text]);
    - [parse]: a recursive-descent parser for the JSON grammar, fuelled by
      the input length; integer literals only (a fraction or an exponent is
      rejected), [\u] escapes limited to 8-bit code units;
    - [normalize]: what [parse (stringify v)] gives back (undefined array
      elements and non-finite numbers become null, undefined members vanish,
      a repeated key keeps its first position and its last value).

    Not modelled: functions and [toJSON] methods, cyclic structures, the
    reordering of integer-like keys, non-integer numbers. *)

From Stdlib Require Import Ascii String ZArith Lia DecimalString DecimalZ DecimalPos DecimalFacts.
From stdpp Require Import base list option strings.
From S2P Require Import Prelude.

Local Set Warnings "-register-all".

Module JSON.

(** ** Values *)

Inductive number :=
| Finite (z : Z)
| NaN
| Infinity (negative : bool).

Inductive value :=
| Undefined
| Null
| Bool (b : bool)
| Number (n : number)
| Str (s : string)
| Array (xs : list value)
| Object (props : list (string * value))
| BigInt (z : Z).

(** The nested induction principle: the generated one has no hypothesis
    for the elements of an array or the members of an object. *)
Section value_ind'.
Variable P : value -> Prop.
Hypothesis HUndefined : P Undefined.
Hypothesis HNull : P Null.
Hypothesis HBool : forall b, P (Bool b).
Hypothesis HNumber : forall n, P (Number n).
Hypothesis HStr : forall s, P (Str s).
Hypothesis HArray : forall xs, Forall P xs -> P (Array xs).
Hypothesis HObject : forall ps, Forall (fun kv => P kv.2) ps -> P (Object ps).
Hypothesis HBigInt : forall z, P (BigInt z).

Fixpoint value_ind' (v : value) : P v :=
  match v with
  | Undefined => HUndefined
  | Null => HNull
  | Bool b => HBool b
  | Number n => HNumber n
  | Str s => HStr s
  | Array xs =>
      HArray xs ((fix go (l : list value) : Forall P l :=
                    match l with
                    | [] => Forall_nil_2 _
                    | x :: r => Forall_cons_2 _ _ _ (value_ind' x) (go r)
                    end) xs)
  | Object ps =>
      HObject ps ((fix go (l : list (string * value)) : Forall (fun kv => P kv.2) l :=
                     match l with
                     | [] => Forall_nil_2 _
                     | kv :: r => Forall_cons_2 _ _ _ (value_ind' kv.2) (go r)
                     end) ps)
  | BigInt z => HBigInt z
  end.
End value_ind'.

(** ** Characters *)

(** The double quote (34) and the backslash (92), written bit by bit so
    that they reduce as constructors. *)
Definition dquote : ascii := Ascii false true false false false true false false.
Definition bslash : ascii := Ascii false false true true true false true false.

Definition hex_digit (n : N) : ascii :=
  if (n <? 10)%N then ascii_of_N (48 + n) else ascii_of_N (87 + n).

(** QuoteJSONString, one code unit at a time (ECMA-262 25.5.2.3). *)
Definition escape_char (c : ascii) : string :=
  let n := N_of_ascii c in
  if (n =? 34)%N then String bslash (String dquote EmptyString)
  else if (n =? 92)%N then String bslash (String bslash EmptyString)
  else if (n =? 8)%N then String bslash "b"
  else if (n =? 12)%N then String bslash "f"
  else if (n =? 10)%N then String bslash "n"
  else if (n =? 13)%N then String bslash "r"
  else if (n =? 9)%N then String bslash "t"
  else if (n <? 32)%N then
    String bslash ("u00" +:+ String (hex_digit (n / 16)) (String (hex_digit (n mod 16)) EmptyString))
  else String c EmptyString.

Fixpoint escape (s : string) : string :=
  match s with
  | EmptyString => EmptyString
  | String c r => escape_char c +:+ escape r
  end.

Definition quote (s : string) : string :=
  String dquote (escape s +:+ String dquote EmptyString).

(** Number::toString on an integer: the decimal digits, with a sign. *)
Definition number_to_string (z : Z) : string :=
  NilZero.string_of_int (Z.to_int z).

Fixpoint join (sep : string) (parts : list string) : string :=
  match parts with
  | [] => EmptyString
  | [p] => p
  | p :: r => p +:+ sep +:+ join sep r
  end.

(** ** [JSON.stringify] *)

Inductive serialized :=
| Thrown
| Absent
| Text (s : string).

(** A data property assignment [obj[k] = v] on a property list:
    an existing key keeps its position and takes the new value. *)
Fixpoint obj_set (ps : list (string * value)) (k : string) (v : value) : list (string * value) :=
  match ps with
  | [] => [(k, v)]
  | (k', v') :: r => if String.eqb k k' then (k, v) :: r else (k', v') :: obj_set r k v
  end.

(** The elements of an array: an absent element is written [null]. *)
Fixpoint elems_of (ser : value -> serialized) (l : list value) : option (list string) :=
  match l with
  | [] => Some []
  | x :: r =>
      match ser x, elems_of ser r with
      | Thrown, _ => None
      | _, None => None
      | Absent, Some t => Some ("null" :: t)
      | Text s, Some t => Some (s :: t)
      end
  end.

(** The members of an object: an absent member is left out. *)
Fixpoint members_of (ser : value -> serialized) (l : list (string * value)) : option (list string) :=
  match l with
  | [] => Some []
  | (k, x) :: r =>
      match ser x, members_of ser r with
      | Thrown, _ => None
      | _, None => None
      | Absent, Some t => Some t
      | Text s, Some t => Some ((quote k +:+ ":" +:+ s) :: t)
      end
  end.

Fixpoint serialize (v : value) : serialized :=
  match v with
  | Undefined => Absent
  | Null => Text "null"
  | Bool true => Text "true"
  | Bool false => Text "false"
  | Number (Finite z) => Text (number_to_string z)
  | Number _ => Text "null"
  | Str s => Text (quote s)
  | BigInt _ => Thrown
  | Array xs =>
      match elems_of serialize xs with
      | Some parts => Text ("[" +:+ join "," parts +:+ "]")
      | None => Thrown
      end
  | Object ps =>
      match members_of serialize ps with
      | Some parts => Text ("{" +:+ join "," parts +:+ "}")
      | None => Thrown
      end
  end.

Definition stringify (v : value) : serialized := serialize v.

(** ** [JSON.parse] *)

Definition is_ws (c : ascii) : bool :=
  let n := N_of_ascii c in ((n =? 32) || (n =? 9) || (n =? 10) || (n =? 13))%N.

Fixpoint skip_ws (s : string) : string :=
  match s with
  | String c r => if is_ws c then skip_ws r else s
  | EmptyString => EmptyString
  end.

Fixpoint strip_prefix (p s : string) : option string :=
  match p, s with
  | EmptyString, _ => Some s
  | String a p', String b s' => if (a =? b)%char then strip_prefix p' s' else None
  | String _ _, EmptyString => None
  end.

Definition is_digit (c : ascii) : bool :=
  let n := N_of_ascii c in ((48 <=? n) && (n <=? 57))%N.

Fixpoint take_digits (s : string) : string * string :=
  match s with
  | String c r =>
      if is_digit c then let '(d, rest) := take_digits r in (String c d, rest)
      else (EmptyString, s)
  | EmptyString => (EmptyString, EmptyString)
  end.

(** A run of digits with a leading zero is not a JSON integer. *)
Definition leading_zero (ds : string) : bool :=
  match ds with
  | String c (String _ _) => (c =? "0")%char
  | _ => false
  end.

(** A fraction or an exponent follows the integer part. *)
Definition continues (rest : string) : bool :=
  match rest with
  | String c _ => ((c =? ".") || (c =? "e") || (c =? "E"))%char
  | EmptyString => false
  end.

(** ( 0 | [1-9][0-9]* ), not followed by a fraction or an exponent. *)
Definition lex_uint (s : string) : option (Z * string) :=
  let '(ds, rest) := take_digits s in
  if leading_zero ds || continues rest then None
  else u ← NilZero.uint_of_string ds; Some (Z.of_uint u, rest).

(** [-]? and an unsigned integer. *)
Definition lex_number (s : string) : option (Z * string) :=
  match s with
  | String c r =>
      if (c =? "-")%char then '(z, rest) ← lex_uint r; Some (Z.opp z, rest)
      else lex_uint s
  | EmptyString => None
  end.

Definition hex_val (c : ascii) : option N :=
  let n := N_of_ascii c in
  if ((48 <=? n) && (n <=? 57))%N then Some (n - 48)%N
  else if ((97 <=? n) && (n <=? 102))%N then Some (n - 87)%N
  else if ((65 <=? n) && (n <=? 70))%N then Some (n - 55)%N
  else None.

(** The simple escapes of the JSON grammar. *)
Definition unescape (e : ascii) : option ascii :=
  let n := N_of_ascii e in
  if (n =? 34)%N then Some dquote
  else if (n =? 92)%N then Some bslash
  else if (n =? 47)%N then Some "/"%char
  else if (e =? "b")%char then Some (ascii_of_N 8)
  else if (e =? "f")%char then Some (ascii_of_N 12)
  else if (e =? "n")%char then Some (ascii_of_N 10)
  else if (e =? "r")%char then Some (ascii_of_N 13)
  else if (e =? "t")%char then Some (ascii_of_N 9)
  else None.

(** The body of a string literal, after its opening quote: the decoded
    contents and the input after the closing quote. *)
Fixpoint lex_string (s : string) : option (string * string) :=
  match s with
  | EmptyString => None
  | String c r =>
      if (c =? dquote)%char then Some (EmptyString, r)
      else if (c =? bslash)%char then
        match r with
        | String u r' =>
            if (u =? "u")%char then
              match r' with
              | String h1 (String h2 (String h3 (String h4 r''))) =>
                  match hex_val h1, hex_val h2, hex_val h3, hex_val h4 with
                  | Some a, Some b, Some c', Some d =>
                      let code := (((a * 16 + b) * 16 + c') * 16 + d)%N in
                      if (code <? 256)%N then
                        '(t, rest) ← lex_string r''; Some (String (ascii_of_N code) t, rest)
                      else None
                  | _, _, _, _ => None
                  end
              | _ => None
              end
            else
              e ← unescape u;
              '(t, rest) ← lex_string r';
              Some (String e t, rest)
        | EmptyString => None
        end
      else if (N_of_ascii c <? 32)%N then None
      else '(t, rest) ← lex_string r; Some (String c t, rest)
  end.

(** A literal, a string or a number, from its first character on. *)
Definition parse_scalar (c : ascii) (r : string) : option (value * string) :=
  if (c =? "n")%char then r' ← strip_prefix "ull" r; Some (Null, r')
  else if (c =? "t")%char then r' ← strip_prefix "rue" r; Some (Bool true, r')
  else if (c =? "f")%char then r' ← strip_prefix "alse" r; Some (Bool false, r')
  else if (c =? dquote)%char then '(t, r') ← lex_string r; Some (Str t, r')
  else '(z, r') ← lex_number (String c r); Some (Number (Finite z), r').

Fixpoint parse_value (fuel : nat) (s : string) {struct fuel} : option (value * string) :=
  match fuel with
  | O => None
  | S f =>
      match skip_ws s with
      | EmptyString => None
      | String c r =>
          if (c =? "[")%char then
            match skip_ws r with
            | String c' r' => if (c' =? "]")%char then Some (Array [], r') else parse_elems f r []
            | EmptyString => None
            end
          else if (c =? "{")%char then
            match skip_ws r with
            | String c' r' => if (c' =? "}")%char then Some (Object [], r') else parse_members f r []
            | EmptyString => None
            end
          else parse_scalar c r
      end
  end
with parse_elems (fuel : nat) (s : string) (acc : list value) {struct fuel} : option (value * string) :=
  match fuel with
  | O => None
  | S f =>
      '(v, r) ← parse_value f s;
      match skip_ws r with
      | String c r' =>
          if (c =? ",")%char then parse_elems f r' (acc ++ [v])
          else if (c =? "]")%char then Some (Array (acc ++ [v]), r')
          else None
      | EmptyString => None
      end
  end
with parse_members (fuel : nat) (s : string) (acc : list (string * value)) {struct fuel}
  : option (value * string) :=
  match fuel with
  | O => None
  | S f =>
      match skip_ws s with
      | String c r =>
          if (c =? dquote)%char then
            '(k, r1) ← lex_string r;
            match skip_ws r1 with
            | String c1 r2 =>
                if (c1 =? ":")%char then
                  '(v, r3) ← parse_value f r2;
                  match skip_ws r3 with
                  | String c3 r4 =>
                      if (c3 =? ",")%char then parse_members f r4 (obj_set acc k v)
                      else if (c3 =? "}")%char then Some (Object (obj_set acc k v), r4)
                      else None
                  | EmptyString => None
                  end
                else None
            | EmptyString => None
            end
          else None
      | EmptyString => None
      end
  end.

(** [JSON.parse(text)]: one value, then nothing but white space; [None]
    is the [SyntaxError]. *)
Definition parse (s : string) : option value :=
  match parse_value (S (String.length s)) s with
  | Some (v, r) => if String.eqb (skip_ws r) EmptyString then Some v else None
  | None => None
  end.

(** ** What a round trip gives back *)

(** One member of an object literal, read back: [obj[k] = v]. *)
Definition norm_member (nz : value -> option value) (acc : list (string * value))
    (kv : string * value) : list (string * value) :=
  match nz kv.2 with
  | Some x => obj_set acc kv.1 x
  | None => acc
  end.

Fixpoint normalize (v : value) : option value :=
  match v with
  | Undefined => None
  | BigInt _ => None
  | Number (Finite z) => Some (Number (Finite z))
  | Number _ => Some Null
  | Array xs => Some (Array (map (fun x => default Null (normalize x)) xs))
  | Object ps => Some (Object (foldl (norm_member normalize) [] ps))
  | _ => Some v
  end.

(** ** Predicates of the round trip *)

Local Abbreviation len := String.length.

Definition number_end (rest : string) : bool :=
  match rest with
  | String c _ => negb (is_digit c || (c =? ".") || (c =? "e") || (c =? "E"))%char
  | EmptyString => true
  end.

(** The first character of a serialized value: not white space, and not
    the closing bracket of an enclosing array or object. *)
Definition text_start (c : ascii) : bool :=
  negb (is_ws c || (c =? "]") || (c =? "}"))%char.

(** What the round trip asks of one value: its text parses back to its
    normal form, from any fuel above some bound, whatever follows it. *)
Definition reads_back (v : value) : Prop :=
  forall t, serialize v = Text t ->
  exists nv, normalize v = Some nv /\
  forall rest, number_end rest = true ->
  exists f0, forall f, f0 <= f -> parse_value f (t +:+ rest) = Some (nv, rest).

(** What a successful parse with some fuel guarantees: the input shrank,
    and any fuel above the number of characters consumed gives the same
    result. *)
Definition fuel_enough (p : nat -> string -> option (value * string)) (f : nat) : Prop :=
  forall s v r, p f s = Some (v, r) ->
  len r < len s /\ forall f', len s - len r < f' -> p f' s = Some (v, r).

Fixpoint keys_distinct (ks : list string) : bool :=
  match ks with
  | [] => true
  | k :: r => negb (existsb (String.eqb k) r) && keys_distinct r
  end.

(** The values [JSON] carries exactly: no undefined, no non-finite number,
    no BigInt, and no object with a repeated key. *)
Fixpoint json_safe (v : value) : bool :=
  match v with
  | Null | Bool _ | Str _ | Number (Finite _) => true
  | Array xs => forallb json_safe xs
  | Object ps => keys_distinct (map fst ps) && forallb (fun kv => json_safe kv.2) ps
  | _ => false
  end.

(** ** The round trip [parse (stringify v)] *)


Lemma take_digits_uint u rest :
  number_end rest = true ->
  take_digits (NilEmpty.string_of_uint u +:+ rest) = (NilEmpty.string_of_uint u, rest).
Proof.
  intros Hr. induction u; simpl_ajs; try (rewrite IHu; reflexivity).
  destruct rest as [|c r]; [reflexivity|]. simpl in *.
  destruct (is_digit c); [discriminate|reflexivity].
Qed.

Lemma continues_number_end rest : number_end rest = true -> continues rest = false.
Proof.
  destruct rest as [|c r]; simpl; [reflexivity|].
  destruct (is_digit c), (c =? ".")%char, (c =? "e")%char, (c =? "E")%char; easy.
Qed.

Lemma nzhead_not_D0 u u' : Decimal.nzhead u <> Decimal.D0 u'.
Proof. induction u; simpl; congruence. Qed.

Lemma pos_to_uint_not_D0 p u : Pos.to_uint p <> Decimal.D0 u.
Proof.
  intros H.
  pose proof (Unsigned.to_of (Pos.to_uint p)) as E.
  rewrite Unsigned.of_to in E. simpl in E.
  unfold Decimal.unorm in E.
  destruct (Decimal.nzhead (Pos.to_uint p)) eqn:Hn;
    try (rewrite <- E in Hn; rewrite H in Hn; simpl in Hn; eapply nzhead_not_D0; eauto).
  apply (Unsigned.to_uint_nonzero p). exact E.
Qed.

(** The digits of a positive integer: no leading zero, and the lexer reads
    them back. *)
Lemma lex_uint_pos p rest :
  number_end rest = true ->
  lex_uint (NilZero.string_of_uint (Pos.to_uint p) +:+ rest) = Some (Z.pos p, rest).
Proof.
  intros Hr. unfold lex_uint.
  pose proof (Unsigned.to_uint_nonnil p) as Hn.
  pose proof (pos_to_uint_not_D0 p) as H0.
  assert (Hz : Z.of_uint (Pos.to_uint p) = Z.pos p)
    by (unfold Z.of_uint; rewrite Unsigned.of_to; reflexivity).
  destruct (Pos.to_uint p) as [|u|u|u|u|u|u|u|u|u|u] eqn:E;
    [congruence | exfalso; eapply H0; eauto | ..].
  all: simpl_ajs; rewrite take_digits_uint by exact Hr.
  all: rewrite (continues_number_end _ Hr), orb_false_r.
  all: pose proof (NilEmpty.usu u) as Hu; revert Hu;
       generalize (NilEmpty.string_of_uint u); intros s Hu;
       destruct s; simpl in Hu |- *; [injection Hu as <- | rewrite Hu]; simpl; rewrite Hz; reflexivity.
Qed.

Lemma lex_number_to_string z rest :
  number_end rest = true ->
  lex_number (number_to_string z +:+ rest) = Some (z, rest).
Proof.
  intros Hr. unfold number_to_string.
  destruct z as [|p|p]; simpl.
  - destruct rest as [|c r]; [reflexivity|]. unfold lex_uint. simpl in Hr |- *.
    destruct (is_digit c) eqn:Hd; [discriminate|]. simpl.
    destruct (c =? ".")%char, (c =? "e")%char, (c =? "E")%char; easy.
  - pose proof (lex_uint_pos p rest Hr) as H.
    pose proof (Unsigned.to_uint_nonnil p) as Hn.
    pose proof (pos_to_uint_not_D0 p) as H0.
    destruct (Pos.to_uint p) as [|u|u|u|u|u|u|u|u|u|u] eqn:E;
      [congruence | exfalso; eapply H0; eauto | ..]; exact H.
  - simpl_ajs. rewrite lex_uint_pos by exact Hr. reflexivity.
Qed.

Lemma lex_string_escape_char c t :
  lex_string (escape_char c +:+ t) = '(x, rest) ← lex_string t; Some (String c x, rest).
Proof. destruct c as [[] [] [] [] [] [] [] []]; reflexivity. Qed.

Lemma lex_string_escape s rest :
  lex_string (escape s +:+ String dquote rest) = Some (s, rest).
Proof.
  induction s as [|c s IH]; [reflexivity|].
  simpl. rewrite string_app_assoc, lex_string_escape_char, IH. reflexivity.
Qed.

Lemma quote_app s rest : quote s +:+ rest = String dquote (escape s +:+ String dquote rest).
Proof. unfold quote. simpl_ajs. reflexivity. Qed.

Lemma parse_value_dquote f r :
  parse_value (S f) (String dquote r) = '(t, r') ← lex_string r; Some (Str t, r').
Proof. reflexivity. Qed.

Lemma parse_value_quote f s rest :
  parse_value (S f) (quote s +:+ rest) = Some (Str s, rest).
Proof. rewrite quote_app, parse_value_dquote, lex_string_escape. reflexivity. Qed.

Lemma parse_value_null f rest : parse_value (S f) ("null" +:+ rest) = Some (Null, rest).
Proof. reflexivity. Qed.

(** A sign or a digit sends [parse_value] to the number lexer. *)
Lemma parse_value_number_head f c r :
  ((c =? "-")%char || is_digit c) = true ->
  parse_value (S f) (String c r) =
  '(z, r') ← lex_number (String c r); Some (Number (Finite z), r').
Proof. destruct c as [[] [] [] [] [] [] [] []]; try discriminate; reflexivity. Qed.

Lemma number_to_string_head z :
  exists c r, number_to_string z = String c r /\ ((c =? "-")%char || is_digit c) = true.
Proof.
  unfold number_to_string. destruct z as [|p|p]; simpl.
  - eauto.
  - pose proof (Unsigned.to_uint_nonnil p) as Hn.
    destruct (Pos.to_uint p); simpl; try congruence; eauto 6.
  - eauto.
Qed.

Lemma parse_value_number f z rest :
  number_end rest = true ->
  parse_value (S f) (number_to_string z +:+ rest) = Some (Number (Finite z), rest).
Proof.
  intros Hr. pose proof (lex_number_to_string z rest Hr) as Hl.
  destruct (number_to_string_head z) as (c & r & Hs & Hc). rewrite Hs in Hl |- *.
  rewrite string_app_cons in Hl |- *.
  rewrite parse_value_number_head by exact Hc. rewrite Hl. reflexivity.
Qed.

Lemma serialize_absent v : serialize v = Absent -> v = Undefined.
Proof.
  destruct v as [| | [] | [] | | xs | ps |]; simpl; try congruence;
    repeat case_match; congruence.
Qed.

Lemma join_cons sep p r : r <> [] -> join sep (p :: r) = p +:+ sep +:+ join sep r.
Proof. destruct r; [congruence | reflexivity]. Qed.

Lemma number_end_sep c r :
  (c = ","%char \/ c = "]"%char \/ c = "}"%char) -> number_end (String c r) = true.
Proof. intros [->|[->| ->]]; reflexivity. Qed.


(** An array element: an absent one was written [null]. *)
Lemma reads_back_elem x :
  reads_back x ->
  forall et, (serialize x = Absent /\ et = "null") \/ serialize x = Text et ->
  forall rest, number_end rest = true ->
  exists f0, forall f, f0 <= f ->
    parse_value f (et +:+ rest) = Some (default Null (normalize x), rest).
Proof.
  intros Hx et [[Ha ->] | Ht] rest Hr.
  - apply serialize_absent in Ha as ->. exists 1. intros [|f] Hf; [lia|]. reflexivity.
  - destruct (Hx et Ht) as (nv & Hn & Hp). rewrite Hn. exact (Hp rest Hr).
Qed.

Lemma elems_of_nil xs t : elems_of serialize xs = Some t -> t = [] -> xs = [].
Proof. destruct xs; simpl; [auto|]. repeat case_match; congruence. Qed.

Lemma parse_elems_join xs :
  Forall reads_back xs -> xs <> [] ->
  forall parts acc rest, elems_of serialize xs = Some parts ->
  exists f0, forall f, f0 <= f ->
    parse_elems f (join "," parts +:+ "]" +:+ rest) acc
    = Some (Array (acc ++ map (fun x => default Null (normalize x)) xs), rest).
Proof.
  induction 1 as [|x xs Hx Hxs IH]; [congruence|]. intros _ parts acc rest He.
  simpl in He.
  assert (exists et t, ((serialize x = Absent /\ et = "null") \/ serialize x = Text et)
                       /\ elems_of serialize xs = Some t /\ parts = et :: t)
    as (et & t & Het & Ht & ->).
  { destruct (serialize x) as [ | | s]; [discriminate | |];
      destruct (elems_of serialize xs) as [t|]; try discriminate; invc He. all: try (eexists _, _; split; [|split; reflexivity]; auto). }
  pose proof (reads_back_elem x Hx et Het) as Hel.
  destruct t as [|p t].
  - apply (elems_of_nil xs) in Ht as ->; [|reflexivity].
    destruct (Hel ("]" +:+ rest)) as [f0 Hf0]; [reflexivity|].
    exists (S f0). intros [|f] Hf; [lia|].
    cbn [parse_elems join]. rewrite Hf0 by lia. reflexivity.
  - assert (xs <> []) as Hne by (intros ->; discriminate).
    destruct (IH Hne (p :: t) (acc ++ [default Null (normalize x)]) rest Ht) as [f1 Hf1].
    destruct (Hel ("," +:+ join "," (p :: t) +:+ "]" +:+ rest)) as [f0 Hf0]; [reflexivity|].
    exists (S (Nat.max f0 f1)). intros [|f] Hf; [lia|].
    rewrite join_cons by discriminate.
    cbn [parse_elems]. rewrite !string_app_assoc, Hf0 by lia.
    rewrite string_app_cons, string_app_nil_l.
    remember (join "," (p :: t) +:+ "]" +:+ rest) as J. simpl. subst J.
    rewrite Hf1 by lia. rewrite <- app_assoc. reflexivity.
Qed.

Lemma members_of_nil ps :
  members_of serialize ps = Some [] -> forall acc, foldl (norm_member normalize) acc ps = acc.
Proof.
  induction ps as [|[k x] ps IH]; simpl; [auto|].
  destruct (serialize x) as [ | | s] eqn:Hs; try discriminate;
    destruct (members_of serialize ps) eqn:Hm; try discriminate; intros H; invc H.
  apply serialize_absent in Hs as ->. intros acc. apply IH. reflexivity.
Qed.

Lemma parse_members_key f k t acc :
  parse_members (S f) (quote k +:+ ":" +:+ t) acc =
  '(v, r3) ← parse_value f t;
  match skip_ws r3 with
  | String c3 r4 =>
      if (c3 =? ",")%char then parse_members f r4 (obj_set acc k v)
      else if (c3 =? "}")%char then Some (Object (obj_set acc k v), r4)
      else None
  | EmptyString => None
  end.
Proof.
  rewrite quote_app, (string_app_cons ":"), string_app_nil_l.
  remember (parse_value f t) as P. simpl. rewrite lex_string_escape. simpl.
  subst P. reflexivity.
Qed.

Lemma parse_members_join ps :
  Forall (fun kv => reads_back kv.2) ps ->
  forall parts acc rest, members_of serialize ps = Some parts -> parts <> [] ->
  exists f0, forall f, f0 <= f ->
    parse_members f (join "," parts +:+ "}" +:+ rest) acc
    = Some (Object (foldl (norm_member normalize) acc ps), rest).
Proof.
  induction 1 as [|[k x] ps Hx Hps IH]; intros parts acc rest He Hne;
    [simpl in He; invc He; congruence|].
  simpl in He, Hx.
  destruct (serialize x) as [ | | s] eqn:Hs; [discriminate | |];
    destruct (members_of serialize ps) as [t|] eqn:Ht; try discriminate; invc He.
  - apply serialize_absent in Hs as ->. exact (IH _ acc rest eq_refl Hne).
  - destruct (Hx s Hs) as (nv & Hn & Hp).
    assert (Hstep : norm_member normalize acc (k, x) = obj_set acc k nv)
      by (unfold norm_member; simpl; rewrite Hn; reflexivity).
    simpl foldl. rewrite Hstep.
    destruct t as [|p t].
    + destruct (Hp ("}" +:+ rest)) as [f0 Hf0]; [reflexivity|].
      exists (S f0). intros [|f] Hf; [lia|].
      cbn [join]. rewrite !string_app_assoc, parse_members_key, Hf0 by lia.
      rewrite members_of_nil by exact Ht. reflexivity.
    + destruct (IH (p :: t) (obj_set acc k nv) rest eq_refl ltac:(discriminate)) as [f1 Hf1].
      destruct (Hp ("," +:+ join "," (p :: t) +:+ "}" +:+ rest)) as [f0 Hf0]; [reflexivity|].
      exists (S (Nat.max f0 f1)). intros [|f] Hf; [lia|].
      rewrite join_cons by discriminate.
      rewrite !string_app_assoc, parse_members_key, Hf0 by lia.
      rewrite string_app_cons, string_app_nil_l.
      remember (join "," (p :: t) +:+ "}" +:+ rest) as J. simpl. subst J.
      apply Hf1. lia.
Qed.


Lemma serialize_head v t :
  serialize v = Text t -> exists c r, t = String c r /\ text_start c = true.
Proof.
  destruct v as [| | [] | [z| |neg] | s | xs | ps |]; simpl; intros H;
    try discriminate; try (invc H; eauto; fail).
  - destruct (number_to_string_head z) as (c & r & Hs & Hc). invc H. rewrite Hs.
    exists c, r. split; [reflexivity|]. revert Hc.
    destruct c as [[] [] [] [] [] [] [] []]; easy.
  - destruct (elems_of serialize xs); invc H. eauto.
  - destruct (members_of serialize ps); invc H. eauto.
Qed.

Lemma join_head parts p rest :
  head parts = Some p -> exists q, join "," parts +:+ rest = p +:+ q.
Proof.
  destruct parts as [|p' parts]; [discriminate|]. simpl. intros H; invc H.
  destruct parts; simpl.
  - eauto.
  - rewrite !string_app_assoc. eauto.
Qed.

Lemma skip_ws_text_start c r : text_start c = true -> skip_ws (String c r) = String c r.
Proof. unfold text_start. simpl. destruct (is_ws c); easy. Qed.

Lemma parse_value_open f c r :
  text_start c = true ->
  parse_value (S f) (String "[" (String c r)) = parse_elems f (String c r) [] /\
  parse_value (S f) (String "{" (String c r)) = parse_members f (String c r) [].
Proof.
  unfold text_start. intros Hc. simpl.
  destruct (is_ws c), (c =? "]")%char, (c =? "}")%char; easy.
Qed.

Lemma elems_of_head xs parts :
  elems_of serialize xs = Some parts -> xs <> [] ->
  exists p c r, head parts = Some p /\ p = String c r /\ text_start c = true.
Proof.
  destruct xs as [|x xs]; [congruence|]. simpl. intros H _.
  destruct (serialize x) as [ | | s] eqn:Hs; [discriminate | |];
    destruct (elems_of serialize xs); invc H.
  - eauto 7.
  - destruct (serialize_head x s Hs) as (c & r & -> & Hc). eauto 7.
Qed.

Lemma members_of_head ps p parts :
  members_of serialize ps = Some (p :: parts) ->
  exists c r, p = String c r /\ text_start c = true.
Proof.
  revert parts. induction ps as [|[k x] ps IH]; simpl; intros parts H; [discriminate|].
  destruct (serialize x); [discriminate | |];
    destruct (members_of serialize ps) eqn:Hm; invc H; eauto.
Qed.

Lemma reads_back_all v : reads_back v.
Proof.
  induction v as [| |b|n|s|xs IH|ps IH|z] using value_ind'; intros t Ht; simpl in Ht.
  - discriminate.
  - invc Ht. eexists; split; [reflexivity|]. intros rest _.
    exists 1. intros [|f] Hf; [lia|]. reflexivity.
  - eexists; split; [reflexivity|]. intros rest _.
    exists 1. intros [|f] Hf; [lia|]. destruct b; invc Ht; reflexivity.
  - destruct n as [z| |neg]; invc Ht; (eexists; split; [reflexivity|]); intros rest Hr;
      exists 1; intros [|f] Hf; try lia; try reflexivity.
    apply parse_value_number. exact Hr.
  - invc Ht. eexists; split; [reflexivity|]. intros rest _.
    exists 1. intros [|f] Hf; [lia|]. apply parse_value_quote.
  - destruct (elems_of serialize xs) as [parts|] eqn:He; invc Ht.
    eexists; split; [reflexivity|]. intros rest Hr.
    destruct xs as [|x xs'].
    + simpl in He. invc He. exists 1. intros [|f] Hf; [lia|]. reflexivity.
    + destruct (elems_of_head _ _ He ltac:(discriminate)) as (p & c & r & Hh & -> & Hc).
      destruct (join_head parts _ ("]" +:+ rest) Hh) as [q Hq].
      destruct (parse_elems_join _ IH ltac:(discriminate) parts [] rest He) as [f0 Hf0].
      exists (S f0). intros [|f] Hf; [lia|].
      rewrite !string_app_assoc, string_app_cons, string_app_nil_l, Hq, string_app_cons.
      rewrite (proj1 (parse_value_open f c _ Hc)).
      rewrite (string_app_cons c r q) in Hq. rewrite <- Hq. apply Hf0. lia.
  - destruct (members_of serialize ps) as [parts|] eqn:He; invc Ht.
    eexists; split; [reflexivity|]. intros rest Hr.
    destruct parts as [|p parts'].
    + exists 1. intros [|f] Hf; [lia|].
      rewrite members_of_nil by exact He. reflexivity.
    + destruct (parse_members_join _ IH (p :: parts') [] rest He ltac:(discriminate)) as [f0 Hf0].
      destruct (members_of_head _ _ _ He) as (c & r & -> & Hc).
      destruct (join_head (String c r :: parts') _ ("}" +:+ rest) eq_refl) as [q Hq].
      exists (S f0). intros [|f] Hf; [lia|].
      rewrite !string_app_assoc, string_app_cons, string_app_nil_l, Hq, string_app_cons.
      rewrite (proj2 (parse_value_open f c _ Hc)).
      rewrite (string_app_cons c r q) in Hq. rewrite <- Hq. apply Hf0. lia.
  - discriminate.
Qed.

Lemma skip_ws_length s : len (skip_ws s) <= len s.
Proof. induction s as [|c s IH]; simpl; [lia|]. destruct (is_ws c); simpl; lia. Qed.

Lemma strip_prefix_length p s r : strip_prefix p s = Some r -> len r + len p = len s.
Proof.
  revert s; induction p as [|a p IH]; intros [|b s] H; simpl in *; try discriminate.
  - invc H. simpl. lia.
  - invc H. simpl. lia.
  - destruct (a =? b)%char; [apply IH in H; lia | discriminate].
Qed.

Lemma lex_string_length s t r : lex_string s = Some (t, r) -> len r < len s.
Proof.
  revert t r. induction s as [s IH] using (induction_ltof1 _ String.length); unfold ltof in IH.
  intros t r H. destruct s as [|c s]; [discriminate|]. simpl in H.
  destruct (c =? dquote)%char; [invc H; simpl; lia|].
  destruct (c =? bslash)%char.
  - destruct s as [|u s']; [discriminate|].
    destruct (u =? "u")%char.
    + destruct s' as [|h1 [|h2 [|h3 [|h4 r'']]]]; try discriminate.
      destruct (hex_val h1), (hex_val h2), (hex_val h3), (hex_val h4); try discriminate.
      case_match; [|discriminate].
      destruct (lex_string r'') as [[t' rest]|] eqn:E; [|discriminate]. invc H.
      apply IH in E; simpl; lia.
    + destruct (unescape u); [|discriminate]. simpl in H.
      destruct (lex_string s') as [[t' rest]|] eqn:E; [|discriminate]. invc H.
      apply IH in E; simpl; lia.
  - case_match; [discriminate|].
    destruct (lex_string s) as [[t' rest]|] eqn:E; [|discriminate]. invc H.
    apply IH in E; simpl; lia.
Qed.

Lemma take_digits_length s : len (take_digits s).1 + len (take_digits s).2 = len s.
Proof.
  induction s as [|c s IH]; simpl; [lia|].
  destruct (is_digit c); simpl; [|lia].
  destruct (take_digits s); simpl in *; lia.
Qed.

Lemma lex_uint_length s z r : lex_uint s = Some (z, r) -> len r < len s.
Proof.
  unfold lex_uint. pose proof (take_digits_length s) as L.
  destruct (take_digits s) as [ds rest]; simpl in L.
  case_match; [discriminate|].
  destruct ds as [|d ds]; [discriminate|].
  destruct (NilZero.uint_of_string (String d ds)); [|discriminate].
  simpl. intros Hs; invc Hs. simpl in L. lia.
Qed.

Lemma lex_number_length s z r : lex_number s = Some (z, r) -> len r < len s.
Proof.
  unfold lex_number. destruct s as [|c s]; [discriminate|].
  destruct (c =? "-")%char.
  - destruct (lex_uint s) as [[z' r']|] eqn:E; [|discriminate]. simpl. intros H; invc H.
    apply lex_uint_length in E. simpl. lia.
  - apply lex_uint_length.
Qed.

Lemma parse_scalar_length c r v r' : parse_scalar c r = Some (v, r') -> len r' <= len r.
Proof.
  unfold parse_scalar. intros H.
  destruct (c =? "n")%char; [|destruct (c =? "t")%char; [|destruct (c =? "f")%char;
    [|destruct (c =? dquote)%char]]].
  1-3: apply option_bind_some in H as (r0 & Hp & H); invc H;
       apply strip_prefix_length in Hp; lia.
  - destruct (lex_string r) as [[t r0]|] eqn:E; invc H. apply lex_string_length in E. lia.
  - destruct (lex_number (String c r)) as [[z r0]|] eqn:E; invc H.
    apply lex_number_length in E. simpl in E. lia.
Qed.


Lemma parse_fuel f :
  fuel_enough parse_value f /\
  (forall acc, fuel_enough (fun f s => parse_elems f s acc) f) /\
  (forall acc, fuel_enough (fun f s => parse_members f s acc) f).
Proof.
  unfold fuel_enough.
  induction f as [|f (IHv & IHe & IHm)]; [repeat split; discriminate|].
  split; [|split].
  - intros s v r H. cbn [parse_value] in H.
    pose proof (skip_ws_length s) as Hws.
    destruct (skip_ws s) as [|c r0] eqn:Es; [discriminate|]. simpl in Hws.
    destruct (c =? "[")%char eqn:Eb; [|destruct (c =? "{")%char eqn:Eo].
    1,2: pose proof (skip_ws_length r0);
      destruct (skip_ws r0) as [|c' r'] eqn:Es'; [discriminate|]; simpl in *.
    + destruct (c' =? "]")%char eqn:Ec'.
      * invc H. split; [lia|]. intros [|f'] Hf'; [lia|]. cbn [parse_value].
        rewrite Es, Eb, Es', Ec'. reflexivity.
      * destruct (IHe [] r0 v r H) as [Hl Hf]. split; [lia|].
        intros [|f'] Hf'; [lia|]. cbn [parse_value]. rewrite Es, Eb, Es', Ec'. apply Hf. lia.
    + destruct (c' =? "}")%char eqn:Ec'.
      * invc H. split; [lia|]. intros [|f'] Hf'; [lia|]. cbn [parse_value].
        rewrite Es, Eb, Eo, Es', Ec'. reflexivity.
      * destruct (IHm [] r0 v r H) as [Hl Hf]. split; [lia|].
        intros [|f'] Hf'; [lia|]. cbn [parse_value]. rewrite Es, Eb, Eo, Es', Ec'. apply Hf. lia.
    + pose proof (parse_scalar_length _ _ _ _ H). split; [lia|].
      intros [|f'] Hf'; [lia|]. cbn [parse_value]. rewrite Es, Eb, Eo. exact H.
  - intros acc s v r H. cbn [parse_elems] in H.
    destruct (parse_value f s) as [[x r1]|] eqn:Hv; [|discriminate]. simpl in H.
    destruct (IHv s x r1 Hv) as [Hl1 Hf1].
    pose proof (skip_ws_length r1) as Hws.
    destruct (skip_ws r1) as [|c r2] eqn:Es; [discriminate|]. simpl in Hws.
    destruct (c =? ",")%char eqn:Ec.
    + destruct (IHe (acc ++ [x]) r2 v r H) as [Hl2 Hf2]. split; [lia|].
      intros [|f'] Hf'; [lia|]. cbn [parse_elems]. rewrite (Hf1 f') by lia. simpl.
      rewrite Es, Ec. apply Hf2. lia.
    + destruct (c =? "]")%char eqn:Ec2; [|discriminate]. invc H. split; [lia|].
      intros [|f'] Hf'; [lia|]. cbn [parse_elems]. rewrite (Hf1 f') by lia. simpl.
      rewrite Es, Ec, Ec2. reflexivity.
  - intros acc s v r H. cbn [parse_members] in H.
    pose proof (skip_ws_length s) as Hws.
    destruct (skip_ws s) as [|c r0] eqn:Es; [discriminate|]. simpl in Hws.
    destruct (c =? dquote)%char eqn:Eq; [|discriminate].
    destruct (lex_string r0) as [[k r1]|] eqn:Hk; [|discriminate]. simpl in H.
    pose proof (lex_string_length _ _ _ Hk).
    pose proof (skip_ws_length r1) as Hws1.
    destruct (skip_ws r1) as [|c1 r2] eqn:Es1; [discriminate|]. simpl in Hws1.
    destruct (c1 =? ":")%char eqn:Ec1; [|discriminate].
    destruct (parse_value f r2) as [[x r3]|] eqn:Hv; [|discriminate]. simpl in H.
    destruct (IHv r2 x r3 Hv) as [Hl3 Hf3].
    pose proof (skip_ws_length r3) as Hws3.
    destruct (skip_ws r3) as [|c3 r4] eqn:Es3; [discriminate|]. simpl in Hws3.
    destruct (c3 =? ",")%char eqn:Ec3.
    + destruct (IHm (obj_set acc k x) r4 v r H) as [Hl4 Hf4]. split; [lia|].
      intros [|f'] Hf'; [lia|]. cbn [parse_members].
      rewrite Es, Eq, Hk. simpl. rewrite Es1, Ec1, (Hf3 f') by lia. simpl.
      rewrite Es3, Ec3. apply Hf4. lia.
    + destruct (c3 =? "}")%char eqn:Ec4; [|discriminate]. invc H. split; [lia|].
      intros [|f'] Hf'; [lia|]. cbn [parse_members].
      rewrite Es, Eq, Hk. simpl. rewrite Es1, Ec1, (Hf3 f') by lia. simpl.
      rewrite Es3, Ec3, Ec4. reflexivity.
Qed.

(** [JSON.parse(JSON.stringify(v))] is the normal form of [v]: the
    value with [undefined] members dropped, [undefined] elements as [null],
    and a later duplicate key overriding an earlier one. *)
Lemma stringify_parse v t : stringify v = Text t -> parse t = normalize v.
Proof.
  intros Ht. destruct (reads_back_all v t Ht) as (nv & Hn & Hp).
  destruct (Hp EmptyString eq_refl) as [f0 Hf0].
  rewrite string_app_nil_r in Hf0.
  destruct (proj1 (parse_fuel f0) t nv EmptyString (Hf0 f0 (le_n _))) as [_ Hf].
  unfold parse. rewrite Hf by (simpl; lia). rewrite Hn. reflexivity.
Qed.

(** The fuel [parse] gives its parser never cuts a parse short. *)
Lemma parse_fuel_adequate f s v r :
  parse_value f s = Some (v, r) -> parse_value (S (len s)) s = Some (v, r).
Proof.
  intros H. destruct (proj1 (parse_fuel f) s v r H) as [_ Hf]. apply Hf. lia.
Qed.




Lemma obj_set_fresh acc k v :
  existsb (String.eqb k) (map fst acc) = false -> obj_set acc k v = acc ++ [(k, v)].
Proof.
  induction acc as [|[k' v'] acc IH]; simpl; [reflexivity|].
  rewrite String.eqb_sym. destruct (String.eqb k' k); simpl; [discriminate|].
  intros H. rewrite IH by exact H. reflexivity.
Qed.

Lemma foldl_norm_fresh ps :
  Forall (fun kv => normalize kv.2 = Some kv.2) ps -> keys_distinct (map fst ps) = true ->
  forall acc, (forall k, In k (map fst ps) -> existsb (String.eqb k) (map fst acc) = false) ->
  foldl (norm_member normalize) acc ps = acc ++ ps.
Proof.
  induction 1 as [|[k x] ps Hx Hps IH]; simpl; intros Hd acc Hacc; [by rewrite app_nil_r|].
  apply andb_prop in Hd as [Hk Hd]. apply negb_true_iff in Hk.
  unfold norm_member at 2. simpl in Hx |- *. rewrite Hx, obj_set_fresh by auto.
  assert (Hfresh : forall k', In k' (map fst ps) ->
            existsb (String.eqb k') (map fst (acc ++ [(k, x)])) = false).
  { intros k' Hin. rewrite map_app, existsb_app, Hacc by (right; exact Hin). simpl.
    destruct (String.eqb_spec k' k) as [->|]; [|reflexivity].
    exfalso. apply Bool.not_true_iff_false in Hk. apply Hk, existsb_exists.
    exists k. split; [exact Hin | apply String.eqb_refl]. }
  rewrite (IH Hd _ Hfresh).
  rewrite <- app_assoc. reflexivity.
Qed.

Lemma normalize_safe v : json_safe v = true -> normalize v = Some v.
Proof.
  induction v as [| |b|[]|s|xs IH|ps IH|z] using value_ind'; simpl; intros H; try done.
  - rewrite forallb_forall in H. f_equal. f_equal.
    induction IH as [|x xs Hx _ IHxs]; simpl in *; [done|].
    rewrite Hx by auto. simpl. f_equal. apply IHxs. auto.
  - apply andb_prop in H as [Hd Hs]. rewrite forallb_forall in Hs.
    rewrite foldl_norm_fresh; [done| |done|done].
    apply Forall_forall. intros kv Hin. rewrite Forall_forall in IH.
    apply IH; [exact Hin|]. apply Hs, list_elem_of_In, Hin.
Qed.

Lemma serialize_safe v : json_safe v = true -> exists t, serialize v = Text t.
Proof.
  induction v as [| |[]|[]|s|xs IH|ps IH|z] using value_ind'; simpl; intros H; try done; eauto.
  - rewrite forallb_forall in H.
    assert (exists parts, elems_of serialize xs = Some parts) as [parts ->]; [|eauto].
    induction IH as [|x xs Hx _ IHxs]; simpl in *; [eauto|].
    destruct (Hx (H x (or_introl eq_refl))) as [t ->].
    destruct IHxs as [parts ->]; eauto.
  - apply andb_prop in H as [_ Hs]. rewrite forallb_forall in Hs.
    assert (exists parts, members_of serialize ps = Some parts) as [parts ->]; [|eauto].
    induction IH as [|[k x] ps Hx _ IHps]; simpl in *; [eauto|].
    destruct (Hx (Hs (k, x) (or_introl eq_refl))) as [t ->].
    destruct IHps as [parts ->]; eauto.
Qed.

(** A JSON-safe value is written as text and read back unchanged. *)
Lemma json_roundtrip_safe v :
  json_safe v = true -> exists t, stringify v = Text t /\ parse t = Some v.
Proof.
  intros H. destruct (serialize_safe v H) as [t Ht]. exists t. split; [exact Ht|].
  rewrite (stringify_parse v t Ht). apply normalize_safe, H.
Qed.


End JSON.
