(* ===== verification/Runtime.v ===== *)
(** * The JavaScript runtime the cookie code runs in

    - [prim]: the property values the options objects hold (undefined,
      null, booleans, integers, strings, object references);
    - the heap: objects as [gmap string prim] at [loc]ations, so that two
      names for one object (the caller's options and [this._options])
      share every write;
    - [world]: the heap, the next free location and the browser's cookie
      jar (the jar's semantics is in [Browser]);
    - [M]: the state-and-exception monad of the code, with stdpp's
      [x ← m; k] notation, [throw] and [try_catch] for [try]/[catch];
    - [defaults] ([@ndhoule/defaults]) and [clone] ([./utils/clone]). *)

From Stdlib Require Import Ascii String ZArith Lia.
From stdpp Require Import base list option strings gmap.
From S2P Require Import Prelude Json.

Module Runtime.

Abbreviation loc := positive (only parsing).

Inductive prim :=
| PUndefined
| PNull
| PBool (b : bool)
| PNum (z : Z)
| PStr (s : string)
| PObj (l : loc).

(** A cookie as the browser keeps it (RFC 6265 5.3): [ck_host_only] is
    set when the cookie had no usable Domain attribute. *)
Record cookie := mk_cookie {
  ck_name : string;
  ck_value : string;
  ck_domain : string;
  ck_host_only : bool;
  ck_path : string;
  ck_secure : bool;
  ck_persistent : bool
}.

Record world := mk_world {
  w_heap : gmap loc (gmap string prim);
  w_next : loc;
  w_jar : list cookie
}.

Inductive exn :=
| TypeError
| SyntaxError
| SecurityError.

Inductive outcome (A : Type) :=
| Ok (a : A)
| Throw (e : exn).
Arguments Ok {A} a.
Arguments Throw {A} e.

Definition M (A : Type) : Type := world -> outcome A * world.

#[export] Instance M_ret : MRet M := fun A a w => (Ok a, w).
#[export] Instance M_bind : MBind M := fun A B f m w =>
  match m w with
  | (Ok a, w') => f a w'
  | (Throw e, w') => (Throw e, w')
  end.

Definition throw {A} (e : exn) : M A := fun w => (Throw e, w).

(** [try { m } catch (e) { h(e) }]: the writes [m] made before it threw
    are kept. *)
Definition try_catch {A} (m : M A) (h : exn -> M A) : M A := fun w =>
  match m w with
  | (Ok a, w') => (Ok a, w')
  | (Throw e, w') => h e w'
  end.

(** ** Objects on the heap *)

Definition alloc (o : gmap string prim) : M loc := fun w =>
  (Ok (w_next w),
   mk_world (<[w_next w := o]> (w_heap w)) (Pos.succ (w_next w)) (w_jar w)).

Definition read_obj (l : loc) : M (gmap string prim) := fun w =>
  (Ok (default ∅ (w_heap w !! l)), w).

(** [o[k]]: a missing property reads as [undefined]. *)
Definition get_prop (l : loc) (k : string) : M prim := fun w =>
  (Ok (default PUndefined (w_heap w !! l ≫= lookup k)), w).

Definition set_prop (l : loc) (k : string) (v : prim) : M unit := fun w =>
  (Ok tt, mk_world (alter (insert k v) l (w_heap w)) (w_next w) (w_jar w)).

(** [p[k] = v] in strict mode: on a primitive it throws. *)
Definition put (p : prim) (k : string) (v : prim) : M unit :=
  match p with
  | PObj l => set_prop l k v
  | _ => throw TypeError
  end.

Definition truthy (p : prim) : bool :=
  match p with
  | PUndefined | PNull => false
  | PBool b => b
  | PNum z => negb (Z.eqb z 0)
  | PStr s => negb (String.eqb s EmptyString)
  | PObj _ => true
  end.

(** [String(p)], as string concatenation applies it. *)
Definition to_string (p : prim) : string :=
  match p with
  | PUndefined => "undefined"
  | PNull => "null"
  | PBool true => "true"
  | PBool false => "false"
  | PNum z => JSON.number_to_string z
  | PStr s => s
  | PObj _ => "[object Object]"
  end.

(** [@ndhoule/defaults(target, source)], shallow: every key of [source]
    whose value in [target] is [undefined] is copied into [target], which
    is mutated and returned. *)
Fixpoint defaults (target : loc) (source : list (string * prim)) : M loc :=
  match source with
  | [] => mret target
  | (k, v) :: r =>
      cur ← get_prop target k;
      (match cur with
       | PUndefined => set_prop target k v
       | _ => mret tt
       end);;
      defaults target r
  end.

(** [clone(p)]: a fresh copy of an object, a primitive as it is. *)
Definition clone (p : prim) : M prim :=
  match p with
  | PObj l => o ← read_obj l; l' ← alloc o; mret (PObj l')
  | _ => mret p
  end.

(** [o[k]] on an object value. *)
Definition prop_of (o : gmap string prim) (k : string) : prim := default PUndefined (o !! k).

(** [o[k]] in a world, for the object at [l]. *)
Definition prop (w : world) (l : loc) (k : string) : prim :=
  default PUndefined (w_heap w !! l ≫= lookup k).

(** Every allocated location is below the allocation pointer. *)
Definition heap_wf (w : world) : Prop :=
  forall l, is_Some (w_heap w !! l) -> (l < w_next w)%positive.

Definition heap_wfb (w : world) : bool :=
  bool_decide (map_Forall (fun l (_ : gmap string prim) => (l < w_next w)%positive) (w_heap w)).

(** A page as it loads: no object allocated yet, and the cookies the
    browser already holds. *)
Definition page_load (jar : list cookie) : world := mk_world ∅ 1%positive jar.

(** The caller's options object: [undefined] becomes a fresh [{}]. *)
Definition caller_object (w : world) (arg : option loc) : option (gmap string prim) :=
  match arg with
  | Some l => w_heap w !! l
  | None => Some ∅
  end.

(** The object [defaults] leaves at its target, as a function of the
    target's properties. *)
Fixpoint merge (o : gmap string prim) (source : list (string * prim)) : gmap string prim :=
  match source with
  | [] => o
  | (k, v) :: r => merge (match prop_of o k with PUndefined => <[k := v]> o | _ => o end) r
  end.

(** [w'] only allocated: the objects below [w_next w] are as they were. *)
Definition extends (w w' : world) : Prop :=
  (w_next w <= w_next w')%positive /\
  forall l, (l < w_next w)%positive -> w_heap w' !! l = w_heap w !! l.

Ltac unfold_M := unfold mbind, M_bind, mret, M_ret in *.

(** ** Running the monad *)

Lemma bind_ok {A B} (m : M A) (f : A -> M B) w a w' :
  m w = (Ok a, w') -> (m ≫= f) w = f a w'.
Proof. intros H. unfold mbind, M_bind. rewrite H. reflexivity. Qed.

Lemma bind_throw {A B} (m : M A) (f : A -> M B) w e w' :
  m w = (Throw e, w') -> (m ≫= f) w = (Throw e, w').
Proof. intros H. unfold mbind, M_bind. rewrite H. reflexivity. Qed.

Lemma try_catch_ok {A} (m : M A) h w a w' :
  m w = (Ok a, w') -> try_catch m h w = (Ok a, w').
Proof. intros H. unfold try_catch. rewrite H. reflexivity. Qed.

Lemma try_catch_throw {A} (m : M A) h w e w' :
  m w = (Throw e, w') -> try_catch m h w = h e w'.
Proof. intros H. unfold try_catch. rewrite H. reflexivity. Qed.

Lemma ret_run {A} (a : A) w : mret (M:=M) a w = (Ok a, w).
Proof. reflexivity. Qed.

Lemma get_prop_run l k w : get_prop l k w = (Ok (prop w l k), w).
Proof. reflexivity. Qed.

Lemma prop_of_lookup w l o k : w_heap w !! l = Some o -> prop w l k = prop_of o k.
Proof. unfold prop, prop_of. intros ->. reflexivity. Qed.

Lemma alloc_fresh w : heap_wf w -> w_heap w !! w_next w = None.
Proof.
  intros Hwf. destruct (w_heap w !! w_next w) eqn:E; [|reflexivity].
  assert (H : (w_next w < w_next w)%positive) by (apply Hwf; eexists; exact E). lia.
Qed.

Lemma alloc_wf o w : heap_wf w -> heap_wf (snd (alloc o w)).
Proof.
  unfold heap_wf; simpl. intros Hwf l Hl.
  destruct (decide (l = w_next w)) as [->|Hne]; [lia|].
  rewrite lookup_insert_ne in Hl by congruence. specialize (Hwf l Hl). lia.
Qed.

Lemma set_prop_wf l k v w : heap_wf w -> heap_wf (snd (set_prop l k v w)).
Proof.
  unfold heap_wf; simpl. intros Hwf l' Hl'. apply Hwf.
  rewrite lookup_alter_is_Some in Hl'. exact Hl'.
Qed.

Lemma set_prop_obj l o k v w :
  w_heap w !! l = Some o ->
  set_prop l k v w = (Ok tt, mk_world (<[l := <[k := v]> o]> (w_heap w)) (w_next w) (w_jar w)).
Proof.
  intros H. unfold set_prop. do 3 f_equal.
  apply map_eq. intros i. rewrite lookup_alter.
  destruct (decide (l = i)) as [<-|Hne]; [rewrite H, lookup_insert_eq; reflexivity|].
  rewrite lookup_insert_ne by exact Hne. reflexivity.
Qed.

Lemma prop_of_insert_eq o k v : prop_of (<[k := v]> o) k = v.
Proof. unfold prop_of. rewrite lookup_insert_eq. reflexivity. Qed.

Lemma clone_obj l o w :
  w_heap w !! l = Some o ->
  clone (PObj l) w = (Ok (PObj (w_next w)),
    mk_world (<[w_next w := o]> (w_heap w)) (Pos.succ (w_next w)) (w_jar w)).
Proof. intros H. unfold clone, read_obj, alloc, mbind, M_bind, mret, M_ret. simpl. rewrite H. reflexivity. Qed.

Lemma defaults_run l o source w :
  w_heap w !! l = Some o ->
  defaults l source w = (Ok l, mk_world (<[l := merge o source]> (w_heap w)) (w_next w) (w_jar w)).
Proof.
  revert o w. induction source as [|[k v] r IH]; intros o w H; simpl.
  - rewrite insert_id by exact H. destruct w; reflexivity.
  - unfold_M. rewrite get_prop_run. rewrite (prop_of_lookup w l o k H).
    destruct (prop_of o k) eqn:E;
      try (rewrite (IH o w H); reflexivity).
    rewrite (set_prop_obj l o k v w H). rewrite (IH (<[k := v]> o)) by (simpl; apply lookup_insert_eq).
    simpl. rewrite insert_insert_eq. reflexivity.
Qed.

Lemma merge_other o source k :
  k ∉ map fst source -> prop_of (merge o source) k = prop_of o k.
Proof.
  revert o. induction source as [|[k' v] r IH]; intros o Hk; simpl in *; [reflexivity|].
  apply not_elem_of_cons in Hk as [Hne Hk].
  rewrite IH by exact Hk. destruct (prop_of o k'); try reflexivity.
  unfold prop_of. rewrite lookup_insert_ne by congruence. reflexivity.
Qed.

(** A key of [source] is set by [merge] unless the target defines it. *)
Lemma merge_prop o source k v :
  NoDup (map fst source) -> In (k, v) source ->
  prop_of (merge o source) k = match prop_of o k with PUndefined => v | p => p end.
Proof.
  revert o. induction source as [|[k' v'] r IH]; intros o Hd Hin; [destruct Hin|].
  simpl in Hd. apply NoDup_cons in Hd as [Hk Hd]. destruct Hin as [Heq|Hin].
  - invc Heq. simpl. rewrite merge_other by exact Hk.
    destruct (prop_of o k) eqn:E; try (rewrite E; reflexivity). apply prop_of_insert_eq.
  - assert (k <> k') by (intros ->; apply Hk, list_elem_of_In, (in_map fst r (k', v) Hin)).
    simpl. rewrite IH by assumption.
    destruct (prop_of o k'); try reflexivity. unfold prop_of. rewrite lookup_insert_ne by congruence. reflexivity.
Qed.

Lemma heap_wfb_sound w : heap_wfb w = true -> heap_wf w.
Proof.
  unfold heap_wfb, heap_wf. rewrite bool_decide_eq_true. intros H l [o Ho]. exact (H l o Ho).
Qed.

Lemma extends_refl w : extends w w.
Proof. split; [lia | reflexivity]. Qed.

Lemma extends_trans w1 w2 w3 : extends w1 w2 -> extends w2 w3 -> extends w1 w3.
Proof.
  intros [H1 E1] [H2 E2]. split; [lia|]. intros l Hl. rewrite E2 by lia. apply E1, Hl.
Qed.

(** A write at or above the allocation pointer, and a move of the
    pointer up, only allocate. *)
Lemma extends_fresh w l x n jar :
  (w_next w <= l)%positive -> (w_next w <= n)%positive ->
  extends w (mk_world (<[l := x]> (w_heap w)) n jar).
Proof.
  intros Hl Hn. split; [exact Hn|]. intros l' Hl'. simpl. rewrite lookup_insert_ne by lia. reflexivity.
Qed.

Lemma extends_wf w l x n jar :
  heap_wf w -> (l < n)%positive -> (w_next w <= n)%positive ->
  heap_wf (mk_world (<[l := x]> (w_heap w)) n jar).
Proof.
  intros Hwf Hl Hn l' Hl'. simpl in *.
  destruct (decide (l' = l)) as [->|Hne]; [exact Hl|].
  rewrite lookup_insert_ne in Hl' by congruence. specialize (Hwf l' Hl'). lia.
Qed.

Lemma extends_lookup w w' l o :
  heap_wf w -> extends w w' -> w_heap w !! l = Some o -> w_heap w' !! l = Some o.
Proof. intros Hwf [_ E] H. rewrite E; [exact H | apply Hwf; eexists; exact H]. Qed.

(** [defaults(o, d)] on a source object [d]: a key keeps the target's
    value unless that is [undefined]. *)
Lemma merge_map_to_list o d k :
  prop_of (merge o (map_to_list d)) k = match prop_of o k with PUndefined => prop_of d k | p => p end.
Proof.
  destruct (d !! k) as [v|] eqn:Hd.
  - rewrite (merge_prop o _ k v); [| apply NoDup_fst_map_to_list | apply list_elem_of_In, elem_of_map_to_list, Hd].
    replace (prop_of d k) with v by (unfold prop_of; rewrite Hd; reflexivity). reflexivity.
  - rewrite merge_other.
    + replace (prop_of d k) with PUndefined by (unfold prop_of; rewrite Hd; reflexivity).
      destruct (prop_of o k); reflexivity.
    + intros Hin. apply list_elem_of_fmap_1 in Hin as ([k' v] & Hk & Hin). simpl in Hk. subst k'.
      apply elem_of_map_to_list in Hin. congruence.
Qed.

(** An update of an allocated object keeps the heap well formed. *)
Lemma update_wf w l x :
  heap_wf w -> is_Some (w_heap w !! l) -> heap_wf (mk_world (<[l := x]> (w_heap w)) (w_next w) (w_jar w)).
Proof. intros Hwf Hl. apply extends_wf; [exact Hwf | apply Hwf, Hl | lia]. Qed.

#[export] Hint Resolve extends_refl extends_fresh extends_wf alloc_wf set_prop_wf : ajs.

End Runtime.
