(* ===== verification/Browser.v ===== *)
(** * The browser's cookie store and [@segment/cookie]

    [document.cookie] is modelled at the level of RFC 6265:

    - [browser]: the page ([location.hostname], [location.pathname],
      https or not), whether cookies are enabled (when not, writes are
      dropped and reads see nothing) and accessible (in a sandboxed
      document both directions throw a [SecurityError]), and the public
      suffix list the browser consults;
    - [set_cookie]: the attributes of one [document.cookie = ...]
      assignment, and [store], which applies it to the jar (5.3: domain
      attribute, public suffixes, host-only cookies, default path,
      replacement in place keeping the creation order, deletion by an
      expiry in the past);
    - [visible] and [cookie_order]: what a read of [document.cookie]
      returns, and in which order (5.4: longer paths first, then earlier
      creation);
    - [segment_set] and [segment_get]: the [set] and [get] of
      [@segment/cookie], with its mutation of the options object
      ([maxage = -1] for a null value, [expires] from [maxage]).

    Not modelled: the passage of time (a cookie with an expiry in the
    future stays), URI encoding of names and values (the jar holds decoded
    strings), the SameSite attribute, HttpOnly, cookie count and size
    limits, lower-casing of domains. *)

From Stdlib Require Import Ascii String ZArith Lia.
From stdpp Require Import base list option strings gmap.
From S2P Require Import Prelude Json Runtime.
Import Runtime.

Module Browser.

Record browser := mk_browser {
  br_host : string;
  br_path : string;
  br_https : bool;
  br_enabled : bool;
  br_accessible : bool;
  br_public_suffix : string -> bool
}.

(** ** Strings of host names and paths *)

Fixpoint split_on (sep : ascii) (s : string) : list string :=
  match s with
  | EmptyString => [EmptyString]
  | String c r =>
      if (c =? sep)%char then EmptyString :: split_on sep r
      else match split_on sep r with
           | [] => [String c EmptyString]
           | p :: ps => String c p :: ps
           end
  end.

Definition ends_with (suffix s : string) : bool :=
  (String.length suffix <=? String.length s)%nat &&
  String.eqb (String.substring (String.length s - String.length suffix) (String.length suffix) s) suffix.

Definition all_digits (s : string) : bool :=
  negb (String.eqb s EmptyString) && forallb JSON.is_digit (list_ascii_of_string s).

Definition is_ip (host : string) : bool :=
  let parts := split_on "." host in
  (length parts =? 4)%nat && forallb all_digits parts.

(** Domain matching (5.1.3). *)
Definition domain_match (host d : string) : bool :=
  String.eqb host d || (negb (is_ip host) && ends_with (String "." d) host).

(** The directory of the page's path, the default cookie path (5.1.4). *)
Fixpoint last_slash_prefix (s : string) : option string :=
  match s with
  | EmptyString => None
  | String c r =>
      match last_slash_prefix r with
      | Some p => Some (String c p)
      | None => if (c =? "/")%char then Some EmptyString else None
      end
  end.

Definition default_path (page_path : string) : string :=
  match page_path with
  | String c _ =>
      if (c =? "/")%char then
        match last_slash_prefix page_path with
        | Some (String _ _ as p) => p
        | _ => "/"
        end
      else "/"
  | EmptyString => "/"
  end.

(** Path matching (5.1.4). *)
Definition path_match (request cookie_path : string) : bool :=
  String.eqb request cookie_path ||
  (String.prefix cookie_path request &&
   (ends_with "/" cookie_path ||
    match String.get (String.length cookie_path) request with
    | Some c => (c =? "/")%char
    | None => false
    end)).

(** ** The store *)

Record set_cookie := mk_set_cookie {
  sc_name : string;
  sc_value : string;
  sc_domain : option string;
  sc_path : option string;
  sc_expires : option Z;
  sc_secure : bool
}.

Section Store.
Context (br : browser).

(** The domain the cookie is stored under and its host-only flag, or
    [None] when the browser ignores the cookie (5.3 steps 4 to 6). *)
Definition cookie_domain (attr : option string) : option (string * bool) :=
  match attr with
  | None => Some (br_host br, true)
  | Some d =>
      let d' := match d with String c r => if (c =? ".")%char then r else d | _ => d end in
      if String.eqb d' EmptyString then Some (br_host br, true)
      else if br_public_suffix br d' then
        if String.eqb d' (br_host br) then Some (br_host br, true) else None
      else if domain_match (br_host br) d' then Some (d', false)
      else None
  end.

Definition cookie_path (attr : option string) : string :=
  match attr with
  | Some (String c _ as p) => if (c =? "/")%char then p else default_path (br_path br)
  | _ => default_path (br_path br)
  end.

(** The cookie an accepted assignment creates. *)
Definition stored_cookie (sc : set_cookie) (d : string) (host_only : bool) : cookie :=
  mk_cookie (sc_name sc) (sc_value sc) d host_only (cookie_path (sc_path sc)) (sc_secure sc)
    (bool_decide (is_Some (sc_expires sc))).

Definition same_cookie (name domain path : string) (c : cookie) : bool :=
  String.eqb (ck_name c) name && String.eqb (ck_domain c) domain && String.eqb (ck_path c) path.

Definition expired (sc : set_cookie) : bool :=
  match sc_expires sc with
  | Some z => (z <=? 0)%Z
  | None => false
  end.

(** One [document.cookie = ...] assignment, on a document that allows
    the access. *)
Definition store (sc : set_cookie) (jar : list cookie) : list cookie :=
  if negb (br_enabled br) then jar else
  match cookie_domain (sc_domain sc) with
  | None => jar
  | Some (d, host_only) =>
      if sc_secure sc && negb (br_https br) then jar else
      let c := stored_cookie sc d host_only in
      let same := same_cookie (sc_name sc) d (ck_path c) in
      if expired sc then List.filter (fun c' => negb (same c')) jar
      else if existsb same jar then map (fun c' => if same c' then c else c') jar
      else jar ++ [c]
  end.

Definition visible (c : cookie) : bool :=
  (if ck_host_only c then String.eqb (br_host br) (ck_domain c)
   else domain_match (br_host br) (ck_domain c)) &&
  path_match (br_path br) (ck_path c) &&
  (negb (ck_secure c) || br_https br).

(** Longer paths first; among equal lengths, the earlier created first
    (the jar is kept in creation order). *)
Fixpoint insert_by_path (c : cookie) (l : list cookie) : list cookie :=
  match l with
  | [] => [c]
  | c' :: r =>
      if (String.length (ck_path c) <=? String.length (ck_path c'))%nat
      then c' :: insert_by_path c r else c :: l
  end.

Definition cookie_order (jar : list cookie) : list cookie :=
  fold_left (fun acc c => insert_by_path c acc) jar [].

(** The pairs a read of [document.cookie] lists. *)
Definition document_cookie (jar : list cookie) : list (string * string) :=
  if br_enabled br then map (fun c => (ck_name c, ck_value c)) (cookie_order (List.filter visible jar))
  else [].

(** [@segment/cookie]'s [parse]: one property per pair, a later pair
    overwriting an earlier one of the same name. *)
Definition cookie_lookup (name : string) (pairs : list (string * string)) : option string :=
  fold_left (fun acc nv => if String.eqb nv.1 name then Some nv.2 else acc) pairs None.

(** ** [@segment/cookie] *)

Definition write_cookie (sc : set_cookie) : M unit := fun w =>
  if br_accessible br then (Ok tt, mk_world (w_heap w) (w_next w) (store sc (w_jar w)))
  else (Throw SecurityError, w).

(** [new Date(+new Date + maxage)], relative to now: a number adds, a
    boolean adds as 0 or 1, anything else gives an invalid date. *)
Definition expiry_of (maxage : prim) : prim :=
  match maxage with
  | PNum z => PNum z
  | PBool true => PNum 1
  | _ => PStr "Invalid Date"
  end.

(** [set(name, value, options)]: [options || {}]; a null or undefined
    value sets [options.maxage = -1]; a truthy [maxage] sets
    [options.expires]; the attributes are then read from [options]. *)
Definition segment_set (name : string) (value : prim) (options : prim) : M unit :=
  o ← (match options with
       | PObj l => mret (Some l)
       | p => if truthy p then mret None else l ← alloc ∅; mret (Some l)
       end);
  let read k := match o with Some l => get_prop l k | None => mret PUndefined end in
  let write k v := match o with Some l => set_prop l k v | None => mret tt end in
  (match value with PNull | PUndefined => write "maxage" (PNum (-1)) | _ => mret tt end);;
  maxage ← read "maxage";
  (if truthy maxage then write "expires" (expiry_of maxage) else mret tt);;
  path ← read "path";
  domain ← read "domain";
  expires ← read "expires";
  secure ← read "secure";
  write_cookie (mk_set_cookie name (to_string value)
    (if truthy domain then Some (to_string domain) else None)
    (if truthy path then Some (to_string path) else None)
    (match expires with PNum z => Some z | _ => None end)
    (truthy secure)).

(** [get(name)]: [all()[name]]; [all] returns [{}] when reading
    [document.cookie] throws. *)
Definition segment_get (name : string) : M prim := fun w =>
  if br_accessible br then
    (Ok (match cookie_lookup name (document_cookie (w_jar w)) with
         | Some v => PStr v
         | None => PUndefined
         end), w)
  else (Ok PUndefined, w).
(** What [segment_set] leaves in an options object [o]. *)
Definition segment_prepare (value : prim) (o : gmap string prim) : gmap string prim :=
  let o1 := match value with
            | PNull | PUndefined => <["maxage" := PNum (-1)]> o
            | _ => o
            end in
  let maxage := prop_of o1 "maxage" in
  if truthy maxage then <["expires" := expiry_of maxage]> o1 else o1.

(** The assignment [segment_set] makes with an options object [o]. *)
Definition request_of (name : string) (value : prim) (o : gmap string prim) : set_cookie :=
  let o' := segment_prepare value o in
  mk_set_cookie name (to_string value)
    (if truthy (prop_of o' "domain") then Some (to_string (prop_of o' "domain")) else None)
    (if truthy (prop_of o' "path") then Some (to_string (prop_of o' "path")) else None)
    (match prop_of o' "expires" with PNum z => Some z | _ => None end)
    (truthy (prop_of o' "secure")).
(** A scope in which every visible cookie named [name] is the one at
    [domain] and [path]: nothing shadows it. *)
Definition no_shadow (jar : list cookie) (name domain path : string) : bool :=
  forallb (fun c => negb (String.eqb (ck_name c) name && visible c)
                    || (String.eqb (ck_domain c) domain && String.eqb (ck_path c) path)) jar.

(** The browser keeps the cookie of an assignment. *)
Definition accepted (sc : set_cookie) : bool :=
  br_enabled br && negb (expired sc) && (negb (sc_secure sc) || br_https br) &&
  bool_decide (is_Some (cookie_domain (sc_domain sc))).
End Store.

(** No cookie of the jar is named [name]. *)
Definition no_cookie (name : string) (jar : list cookie) : bool :=
  forallb (fun c => negb (String.eqb (ck_name c) name)) jar.

(** A public suffix list for the example pages. *)
Definition example_suffixes (d : string) : bool :=
  bool_decide (d ∈ ["com"; "uk"; "co.uk"; "herokuapp.com"]).

(** A page whose cookies are enabled and accessible. *)
Definition example_page (host path : string) (https : bool) : browser :=
  mk_browser host path https true true example_suffixes.

(** [location.pathname] starts with a slash. *)
Definition page_path_wf (br : browser) : bool := String.prefix "/" (br_path br).

(** ** [segment_set] on an options object *)

Lemma segment_set_obj br name value l o w :
  w_heap w !! l = Some o ->
  segment_set br name value (PObj l) w =
  write_cookie br (request_of name value o)
    (mk_world (<[l := segment_prepare value o]> (w_heap w)) (w_next w) (w_jar w)).
Proof.
  intros H. destruct w as [h n jar]; simpl in H.
  unfold segment_set, request_of, segment_prepare. unfold_M. cbn.
  set (o1 := match value with PNull | PUndefined => <["maxage" := PNum (-1)]> o | _ => o end).
  assert (E1 : (match value with
                | PUndefined | PNull => set_prop l "maxage" (PNum (-1))
                | _ => fun w0 : world => (Ok (), w0)
                end) (mk_world h n jar) = (Ok (), mk_world (<[l := o1]> h) n jar)).
  { subst o1. destruct value; try (rewrite (insert_id h l o H); reflexivity);
      rewrite (set_prop_obj l o); auto. }
  rewrite E1. cbn. rewrite lookup_insert_eq. cbn.
  fold (prop_of o1 "maxage").
  destruct (truthy (prop_of o1 "maxage")).
  - rewrite (set_prop_obj l o1) by (simpl; apply lookup_insert_eq). cbn.
    rewrite insert_insert_eq, lookup_insert_eq. reflexivity.
  - cbn. rewrite lookup_insert_eq. reflexivity.
Qed.

Lemma segment_prepare_other value o k :
  k <> "maxage" -> k <> "expires" -> prop_of (segment_prepare value o) k = prop_of o k.
Proof.
  intros H1 H2. unfold segment_prepare, prop_of.
  destruct value; case_match; rewrite ?lookup_insert_ne by congruence; reflexivity.
Qed.

(** ** Reading back what was stored *)

Lemma cookie_domain_visible br a d ho :
  cookie_domain br a = Some (d, ho) ->
  (if ho then String.eqb (br_host br) d else domain_match (br_host br) d) = true.
Proof.
  unfold cookie_domain. destruct a as [d0|]; [|intros H; invc H; apply String.eqb_refl].
  repeat case_match; intros Hd; invc Hd; try apply String.eqb_refl; assumption.
Qed.

Lemma insert_by_path_perm c l : insert_by_path c l ≡ₚ c :: l.
Proof.
  induction l as [|c' l IH]; simpl; [reflexivity|].
  case_match; [|reflexivity]. rewrite IH. constructor.
Qed.

Lemma cookie_order_perm l : cookie_order l ≡ₚ l.
Proof.
  unfold cookie_order. enough (H : forall acc, fold_left (fun acc c => insert_by_path c acc) l acc ≡ₚ l ++ acc)
    by (rewrite H, app_nil_r; reflexivity).
  induction l as [|c l IH]; intros acc; simpl; [reflexivity|].
  rewrite IH, insert_by_path_perm. symmetry. apply Permutation_middle.
Qed.

Lemma cookie_lookup_all name v (pairs : list (string * string)) acc :
  (forall nv, In nv pairs -> nv.1 = name -> nv.2 = v) ->
  fold_left (fun acc nv => if String.eqb nv.1 name then Some nv.2 else acc) pairs acc
  = if existsb (fun nv => String.eqb nv.1 name) pairs then Some v else acc.
Proof.
  revert acc. induction pairs as [|[n v'] pairs IH]; intros acc H; simpl; [reflexivity|].
  rewrite IH by (intros nv Hin Hn; apply H; [right; exact Hin | exact Hn]).
  destruct (String.eqb_spec n name) as [->|]; simpl; [|reflexivity].
  replace v' with v by (symmetry; apply (H (name, v')); simpl; auto). destruct (existsb _ pairs); reflexivity.
Qed.

Section StoreLemmas.
Context (br : browser) (sc : set_cookie) (jar : list cookie) (d : string) (ho : bool).
Hypothesis Henabled : br_enabled br = true.
Hypothesis Hdomain : cookie_domain br (sc_domain sc) = Some (d, ho).
Hypothesis Hsecure : (negb (sc_secure sc) || br_https br) = true.
Hypothesis Hshadow : no_shadow br jar (sc_name sc) d (cookie_path br (sc_path sc)) = true.

Lemma no_shadow_same c :
  In c jar -> ck_name c = sc_name sc -> visible br c = true ->
  same_cookie (sc_name sc) d (cookie_path br (sc_path sc)) c = true.
Proof.
  intros Hin Hn Hv. unfold no_shadow in Hshadow. rewrite forallb_forall in Hshadow.
  specialize (Hshadow c Hin). rewrite Hn, String.eqb_refl, Hv in Hshadow. simpl in Hshadow.
  unfold same_cookie. rewrite Hn, String.eqb_refl. exact Hshadow.
Qed.

Lemma store_accepted :
  store br sc jar =
  let c := stored_cookie br sc d ho in
  let same := same_cookie (sc_name sc) d (ck_path c) in
  if expired sc then List.filter (fun c' => negb (same c')) jar
  else if existsb same jar then map (fun c' => if same c' then c else c') jar
  else jar ++ [c].
Proof.
  unfold store. rewrite Henabled, Hdomain. simpl.
  destruct (sc_secure sc), (br_https br); simpl in *; try discriminate; reflexivity.
Qed.

(** An accepted write is the only visible cookie of its name. *)
Lemma store_only c' :
  expired sc = false ->
  In c' (store br sc jar) -> ck_name c' = sc_name sc -> visible br c' = true ->
  c' = stored_cookie br sc d ho.
Proof.
  intros Hx Hin Hn Hv. rewrite store_accepted, Hx in Hin. simpl in Hin.
  destruct (existsb _ jar) eqn:Hex.
  - apply in_map_iff in Hin as (c0 & <- & Hin0).
    destruct (same_cookie _ _ _ c0) eqn:Hs; [reflexivity|].
    rewrite (no_shadow_same c0) in Hs by assumption. discriminate.
  - apply in_app_or in Hin as [Hin|[<-|[]]]; [|reflexivity].
    exfalso. apply Bool.not_true_iff_false in Hex. apply Hex, existsb_exists.
    exists c'. split; [exact Hin | apply no_shadow_same; assumption].
Qed.

Lemma store_present :
  expired sc = false -> In (stored_cookie br sc d ho) (store br sc jar).
Proof.
  intros Hx. rewrite store_accepted, Hx. simpl.
  destruct (existsb _ jar) eqn:Hex.
  - apply existsb_exists in Hex as (c0 & Hin & Hs).
    apply in_map_iff. exists c0. rewrite Hs. auto.
  - apply in_or_app. simpl. auto.
Qed.

Lemma stored_cookie_visible :
  path_match (br_path br) (cookie_path br (sc_path sc)) = true ->
  visible br (stored_cookie br sc d ho) = true.
Proof.
  intros Hp. unfold visible, stored_cookie. simpl.
  rewrite (cookie_domain_visible _ _ _ _ Hdomain), Hp. exact Hsecure.
Qed.

(** Lemma: what an honoured write stores, a read of its name returns. *)
Lemma store_lookup :
  expired sc = false ->
  path_match (br_path br) (cookie_path br (sc_path sc)) = true ->
  cookie_lookup (sc_name sc) (document_cookie br (store br sc jar)) = Some (sc_value sc).
Proof.
  intros Hx Hp. unfold document_cookie, cookie_lookup. rewrite Henabled.
  rewrite (cookie_lookup_all _ (sc_value sc)).
  - replace (existsb _ _) with true; [reflexivity|]. symmetry.
    apply existsb_exists. exists (sc_name sc, sc_value sc). split; [|apply String.eqb_refl].
    apply in_map_iff. exists (stored_cookie br sc d ho). split; [reflexivity|].
    eapply Permutation_in; [symmetry; apply cookie_order_perm|].
    apply filter_In. split; [apply store_present, Hx | apply stored_cookie_visible, Hp].
  - intros nv Hin Hn. apply in_map_iff in Hin as (c' & <- & Hin).
    eapply Permutation_in in Hin; [|apply cookie_order_perm].
    apply filter_In in Hin as [Hin Hv].
    rewrite (store_only c' Hx Hin Hn Hv). reflexivity.
Qed.

(** An honoured deletion leaves no visible cookie of its name. *)
Lemma store_delete_lookup :
  expired sc = true ->
  cookie_lookup (sc_name sc) (document_cookie br (store br sc jar)) = None.
Proof.
  intros Hx. unfold document_cookie, cookie_lookup. rewrite Henabled.
  rewrite (cookie_lookup_all _ EmptyString).
  - replace (existsb _ _) with false; [reflexivity|]. symmetry.
    apply Bool.not_true_iff_false. intros Hex.
    apply existsb_exists in Hex as ([n v] & Hin & Hn). apply String.eqb_eq in Hn. simpl in Hn; subst n.
    apply in_map_iff in Hin as (c' & Heq & Hin). invc Heq.
    eapply Permutation_in in Hin; [|apply cookie_order_perm].
    apply filter_In in Hin as [Hin Hv].
    rewrite store_accepted, Hx in Hin. simpl in Hin. apply filter_In in Hin as [Hin Hs].
    rewrite (no_shadow_same c') in Hs by auto. discriminate.
  - intros nv Hin Hn. exfalso. apply in_map_iff in Hin as (c' & <- & Hin).
    eapply Permutation_in in Hin; [|apply cookie_order_perm].
    apply filter_In in Hin as [Hin Hv].
    rewrite store_accepted, Hx in Hin. simpl in Hin. apply filter_In in Hin as [Hin Hs].
    rewrite (no_shadow_same c') in Hs by auto. discriminate.
Qed.
End StoreLemmas.

(** ** Assignments to a name the jar does not hold *)

Lemma prefix_app q s : String.prefix q (q +:+ s) = true.
Proof.
  induction q as [|c q IH]; [destruct s; reflexivity|]. rewrite string_app_cons. simpl.
  destruct (ascii_dec c c); [exact IH | congruence].
Qed.

Lemma get_app_length q c s : String.get (String.length q) (q +:+ String c s) = Some c.
Proof. induction q as [|c' q IH]; [reflexivity|]. rewrite string_app_cons. exact IH. Qed.

Lemma last_slash_prefix_spec s q :
  last_slash_prefix s = Some q -> exists r, s = q +:+ String "/" r.
Proof.
  revert q. induction s as [|c s IH]; intros q H; simpl in H; [discriminate|].
  destruct (last_slash_prefix s) as [p|] eqn:E.
  - invc H. destruct (IH p eq_refl) as [r ->]. exists r. rewrite string_app_cons. reflexivity.
  - destruct (Ascii.eqb_spec c "/"); invc H. exists s. reflexivity.
Qed.

(** The root path covers every page. *)
Lemma path_match_root br : page_path_wf br = true -> path_match (br_path br) "/" = true.
Proof.
  unfold page_path_wf, path_match. destruct (br_path br) as [|c s]; [discriminate|].
  intros Hp. cbn [String.prefix] in Hp. destruct (ascii_dec "/"%char c) as [Hc|]; [subst c|discriminate].
  apply orb_true_intro; right. cbn [String.prefix].
  destruct (ascii_dec "/"%char "/"%char); [|congruence]. rewrite Hp. reflexivity.
Qed.

(** The default path of a page covers the page. *)
Lemma path_match_default br :
  page_path_wf br = true -> path_match (br_path br) (default_path (br_path br)) = true.
Proof.
  intros Hwf. pose proof (path_match_root br Hwf) as Hroot. revert Hwf Hroot.
  unfold page_path_wf. destruct (br_path br) as [|c s]; [discriminate|].
  intros Hp Hroot. cbn [String.prefix] in Hp. destruct (ascii_dec "/"%char c) as [Hc|]; [subst c|discriminate].
  unfold default_path. rewrite Ascii.eqb_refl.
  destruct (last_slash_prefix (String "/" s)) as [[|c p]|] eqn:Hl; [exact Hroot| |exact Hroot].
  destruct (last_slash_prefix_spec _ _ Hl) as [r Hr]. rewrite Hr. unfold path_match.
  rewrite prefix_app, get_app_length. apply orb_true_intro; right. simpl. apply orb_true_r.
Qed.

Lemma filter_no_cookie name d p jar :
  no_cookie name jar = true -> List.filter (fun c => negb (same_cookie name d p c)) jar = jar.
Proof.
  induction jar as [|c jar IH]; intros H; [reflexivity|]. simpl in *.
  apply andb_prop in H as [Hc H]. unfold same_cookie.
  apply negb_true_iff in Hc. rewrite Hc. simpl. f_equal. exact (IH H).
Qed.

Lemma no_cookie_lookup br name jar :
  no_cookie name jar = true -> cookie_lookup name (document_cookie br jar) = None.
Proof.
  intros H. unfold document_cookie. destruct (br_enabled br); [|reflexivity].
  unfold cookie_lookup. rewrite (cookie_lookup_all _ EmptyString).
  - replace (existsb _ _) with false; [reflexivity|]. symmetry. apply Bool.not_true_iff_false.
    intros Hex. apply existsb_exists in Hex as (nv & Hin & Hn).
    apply in_map_iff in Hin as (c & <- & Hin). eapply Permutation_in in Hin; [|apply cookie_order_perm].
    apply filter_In in Hin as [Hin _]. unfold no_cookie in H. rewrite forallb_forall in H.
    specialize (H c Hin). simpl in Hn. rewrite Hn in H. discriminate.
  - intros nv Hin Hn. exfalso. apply in_map_iff in Hin as (c & <- & Hin).
    eapply Permutation_in in Hin; [|apply cookie_order_perm].
    apply filter_In in Hin as [Hin _]. unfold no_cookie in H. rewrite forallb_forall in H.
    specialize (H c Hin). simpl in Hn. rewrite Hn, String.eqb_refl in H. discriminate.
Qed.

Lemma no_cookie_no_shadow br name d p jar :
  no_cookie name jar = true -> no_shadow br jar name d p = true.
Proof.
  unfold no_cookie, no_shadow. rewrite !forallb_forall. intros H c Hin.
  specialize (H c Hin). apply negb_true_iff in H. rewrite H. reflexivity.
Qed.


Lemma existsb_no_cookie name d p jar :
  no_cookie name jar = true -> existsb (same_cookie name d p) jar = false.
Proof.
  induction jar as [|c jar IH]; intros H; [reflexivity|]. simpl in *.
  apply andb_prop in H as [Hc H]. apply negb_true_iff in Hc. unfold same_cookie at 1. rewrite Hc. exact (IH H).
Qed.

(** An assignment to a new name appends its cookie when the browser
    accepts it, and leaves the jar as it was otherwise. *)
Lemma store_new br sc jar :
  no_cookie (sc_name sc) jar = true ->
  store br sc jar =
  match cookie_domain br (sc_domain sc) with
  | Some (d, ho) => if accepted br sc then jar ++ [stored_cookie br sc d ho] else jar
  | None => jar
  end.
Proof.
  intros H. unfold store, accepted.
  destruct (br_enabled br); [|destruct (cookie_domain br (sc_domain sc)) as [[]|]; reflexivity].
  destruct (cookie_domain br (sc_domain sc)) as [[d ho]|]; [|reflexivity].
  rewrite bool_decide_eq_true_2 by eauto. simpl.
  rewrite existsb_no_cookie by exact H.
  destruct (sc_secure sc), (br_https br), (expired sc); simpl; try reflexivity; apply filter_no_cookie, H.
Qed.

Lemma store_expired_absent br sc jar :
  no_cookie (sc_name sc) jar = true -> expired sc = true -> store br sc jar = jar.
Proof.
  intros H Hx. rewrite store_new by exact H. unfold accepted. rewrite Hx.
  destruct (cookie_domain br (sc_domain sc)) as [[]|]; rewrite ?andb_false_r; reflexivity.
Qed.

(** What a read finds after an assignment to a new name whose path covers
    the page. *)
Lemma probe_read br sc jar :
  no_cookie (sc_name sc) jar = true ->
  path_match (br_path br) (cookie_path br (sc_path sc)) = true ->
  cookie_lookup (sc_name sc) (document_cookie br (store br sc jar)) =
  if accepted br sc then Some (sc_value sc) else None.
Proof.
  intros H Hp. destruct (accepted br sc) eqn:Ha.
  - unfold accepted in Ha. repeat (apply andb_prop in Ha as [Ha ?]).
    apply bool_decide_eq_true in H0 as [[d ho] Hd]. apply negb_true_iff in H2.
    apply (store_lookup br sc jar d ho); auto. apply no_cookie_no_shadow, H.
  - rewrite store_new by exact H. rewrite Ha.
    destruct (cookie_domain br (sc_domain sc)) as [[]|]; apply no_cookie_lookup, H.
Qed.

(** A write and then a deletion in the same scope leave a jar without
    the name as it was. *)
Lemma store_write_delete br name v v' dom path exp secure jar :
  no_cookie name jar = true ->
  store br (mk_set_cookie name v' dom path (Some (-1)%Z) secure)
    (store br (mk_set_cookie name v dom path exp secure) jar) = jar.
Proof.
  intros H. rewrite (store_new br (mk_set_cookie name v dom path exp secure)) by exact H.
  cbn [sc_domain]. set (del := mk_set_cookie name v' dom path (Some (-1)%Z) secure).
  assert (Hdel : store br del jar = jar) by (apply store_expired_absent; auto).
  destruct (cookie_domain br dom) as [[d ho]|] eqn:Hd; [|exact Hdel].
  destruct (accepted br _) eqn:Ha; [|exact Hdel].
  unfold accepted in Ha. simpl in Ha. repeat (apply andb_prop in Ha as [Ha ?]).
  unfold store. rewrite Ha. simpl. rewrite Hd.
  destruct secure, (br_https br); try discriminate; simpl;
  rewrite List.filter_app, filter_no_cookie by exact H; simpl; unfold same_cookie; simpl;
  rewrite !String.eqb_refl; apply app_nil_r.
Qed.

End Browser.
