(* ===== verification/Jar.v ===== *)
(** * The jar under a sequence of writes

    What the refinement of the store needs of [Browser.store] beyond one
    write and one read:

    - a write to one name leaves the cookies of every other name as they
      were ([filter_named_store]), so what a read of another name returns
      and whether it is shadowed do not change;
    - [consistent]: all visible cookies of one name carry one value, so a
      read of [document.cookie] does not depend on the order of the jar;
      an accepted, unshadowed write or deletion keeps it. *)

From Stdlib Require Import Ascii String ZArith Lia.
From stdpp Require Import base list option strings gmap.
From S2P Require Import Prelude Json Runtime Browser.
Import Runtime Browser.

Module Jar.

Definition named (name : string) (c : cookie) : bool := String.eqb (ck_name c) name.

(** Every two visible cookies of one name have the same value. *)
Definition consistent (br : browser) (jar : list cookie) : bool :=
  forallb (fun c1 => forallb (fun c2 =>
    negb (String.eqb (ck_name c1) (ck_name c2) && visible br c1 && visible br c2) ||
    String.eqb (ck_value c1) (ck_value c2)) jar) jar.

Lemma consistent_spec br jar c1 c2 :
  consistent br jar = true -> In c1 jar -> In c2 jar -> ck_name c1 = ck_name c2 ->
  visible br c1 = true -> visible br c2 = true -> ck_value c1 = ck_value c2.
Proof.
  unfold consistent. rewrite forallb_forall. intros H H1 H2 Hn V1 V2.
  specialize (H c1 H1). rewrite forallb_forall in H. specialize (H c2 H2).
  rewrite Hn, String.eqb_refl, V1, V2 in H. simpl in H. apply String.eqb_eq, H.
Qed.

Lemma consistent_intro br jar :
  (forall c1 c2, In c1 jar -> In c2 jar -> ck_name c1 = ck_name c2 ->
     visible br c1 = true -> visible br c2 = true -> ck_value c1 = ck_value c2) ->
  consistent br jar = true.
Proof.
  intros H. unfold consistent. apply forallb_forall. intros c1 H1. apply forallb_forall. intros c2 H2.
  destruct (String.eqb_spec (ck_name c1) (ck_name c2)) as [Hn|]; [|reflexivity].
  destruct (visible br c1) eqn:V1, (visible br c2) eqn:V2; try reflexivity.
  simpl. rewrite (H c1 c2 H1 H2 Hn V1 V2). apply String.eqb_refl.
Qed.

(** A read of a consistent jar: the value of any visible cookie of the
    name, or nothing. *)
Lemma lookup_consistent br jar name :
  br_enabled br = true -> consistent br jar = true ->
  cookie_lookup name (document_cookie br jar) =
  match List.find (fun c => named name c && visible br c) jar with
  | Some c => Some (ck_value c)
  | None => None
  end.
Proof.
  intros He Hc. unfold document_cookie, cookie_lookup. rewrite He.
  destruct (List.find _ jar) as [c|] eqn:Hf.
  - apply find_some in Hf as [Hin Hv]. apply andb_prop in Hv as [Hn Hv]. apply String.eqb_eq in Hn.
    rewrite (cookie_lookup_all _ (ck_value c)).
    + replace (existsb _ _) with true; [reflexivity|]. symmetry. apply existsb_exists.
      exists (name, ck_value c). split; [|apply String.eqb_refl]. apply in_map_iff. exists c.
      split; [simpl; congruence|]. eapply Permutation_in; [symmetry; apply cookie_order_perm|].
      apply filter_In. auto.
    + intros nv Hin' Hn'. apply in_map_iff in Hin' as (c' & <- & Hin').
      eapply Permutation_in in Hin'; [|apply cookie_order_perm]. apply filter_In in Hin' as [Hin' Hv'].
      simpl in *. apply (consistent_spec br jar); auto. congruence.
  - rewrite (cookie_lookup_all _ EmptyString).
    + replace (existsb _ _) with false; [reflexivity|]. symmetry. apply Bool.not_true_iff_false.
      intros Hex. apply existsb_exists in Hex as (nv & Hin' & Hn').
      apply in_map_iff in Hin' as (c' & <- & Hin'). eapply Permutation_in in Hin'; [|apply cookie_order_perm].
      apply filter_In in Hin' as [Hin' Hv']. eapply find_none in Hf; [|exact Hin'].
      unfold named in Hf. simpl in Hn'. rewrite Hn', Hv' in Hf. discriminate.
    + intros nv Hin' Hn'. exfalso. apply in_map_iff in Hin' as (c' & <- & Hin').
      eapply Permutation_in in Hin'; [|apply cookie_order_perm]. apply filter_In in Hin' as [Hin' Hv'].
      eapply find_none in Hf; [|exact Hin']. unfold named in Hf. simpl in Hn'. rewrite Hn', String.eqb_refl, Hv' in Hf.
      discriminate.
Qed.

Lemma find_named_filter name (P : cookie -> bool) jar :
  List.find (fun c => named name c && P c) jar = List.find (fun c => named name c && P c) (List.filter (named name) jar).
Proof.
  induction jar as [|c jar IH]; [reflexivity|]. simpl.
  destruct (named name c) eqn:Hn; simpl; rewrite ?Hn; simpl; [destruct (P c)|]; auto.
Qed.

(** Two consistent jars with the same cookies of a name read the same
    for that name. *)
Lemma lookup_frame br jar1 jar2 name :
  consistent br jar1 = true -> consistent br jar2 = true ->
  List.filter (named name) jar1 = List.filter (named name) jar2 ->
  cookie_lookup name (document_cookie br jar1) = cookie_lookup name (document_cookie br jar2).
Proof.
  intros H1 H2 Hf. destruct (br_enabled br) eqn:He; [|unfold document_cookie; rewrite He; reflexivity].
  rewrite !lookup_consistent by assumption.
  rewrite (find_named_filter name (visible br) jar1), (find_named_filter name (visible br) jar2), Hf.
  reflexivity.
Qed.

Lemma no_shadow_filter br jar name d p :
  no_shadow br jar name d p = no_shadow br (List.filter (named name) jar) name d p.
Proof.
  induction jar as [|c jar IH]; [reflexivity|]. unfold no_shadow in *. simpl.
  unfold named at 1. destruct (String.eqb (ck_name c) name) eqn:Hn; simpl; rewrite ?Hn; simpl; rewrite IH; reflexivity.
Qed.

(** A write touches only the cookies of its own name. *)
Lemma filter_named_store br sc jar name :
  name <> sc_name sc -> List.filter (named name) (store br sc jar) = List.filter (named name) jar.
Proof.
  intros Hne. unfold store.
  destruct (br_enabled br); [|reflexivity]. destruct (cookie_domain br (sc_domain sc)) as [[d ho]|]; [|reflexivity].
  destruct (sc_secure sc && negb (br_https br)); [reflexivity|]. cbv zeta.
  assert (Hsame : forall c, same_cookie (sc_name sc) d (cookie_path br (sc_path sc)) c = true -> named name c = false).
  { intros c Hs. unfold same_cookie in Hs. apply andb_prop in Hs as [Hs _]. apply andb_prop in Hs as [Hs _].
    apply String.eqb_eq in Hs. unfold named. rewrite Hs. apply String.eqb_neq. congruence. }
  assert (Hc : named name (stored_cookie br sc d ho) = false) by (apply String.eqb_neq; simpl; congruence).
  simpl ck_path. destruct (expired sc).
  - induction jar as [|c jar IH]; [reflexivity|]. simpl.
    destruct (same_cookie _ _ _ c) eqn:Hs; simpl; [rewrite (Hsame c Hs); exact IH|].
    destruct (named name c); [f_equal|]; exact IH.
  - destruct (existsb _ jar).
    + induction jar as [|c jar IH]; [reflexivity|]. simpl.
      destruct (same_cookie _ _ _ c) eqn:Hs; [rewrite Hc, (Hsame c Hs); exact IH|].
      destruct (named name c); [f_equal|]; exact IH.
    + change (negb true) with false. cbv beta iota. rewrite List.filter_app. simpl. rewrite Hc. apply app_nil_r.
Qed.

Lemma store_other_in br sc jar c :
  In c (store br sc jar) -> ck_name c <> sc_name sc -> In c jar.
Proof.
  intros Hin Hn. unfold store in Hin.
  destruct (br_enabled br); [|exact Hin]. destruct (cookie_domain br (sc_domain sc)) as [[d ho]|]; [|exact Hin].
  destruct (sc_secure sc && negb (br_https br)); [exact Hin|]. cbv zeta in Hin.
  destruct (expired sc); [apply filter_In in Hin as [Hin _]; exact Hin|].
  destruct (existsb _ jar).
  - apply in_map_iff in Hin as (c0 & Hc & Hin0). destruct (same_cookie _ _ _ c0); [subst c; simpl in Hn; congruence|].
    subst. exact Hin0.
  - apply in_app_or in Hin as [Hin|[<-|[]]]; [exact Hin|]. simpl in Hn. congruence.
Qed.

Section Accepted.
Context (br : browser) (sc : set_cookie) (jar : list cookie) (d : string) (ho : bool).
Hypothesis Henabled : br_enabled br = true.
Hypothesis Hdomain : cookie_domain br (sc_domain sc) = Some (d, ho).
Hypothesis Hsecure : (negb (sc_secure sc) || br_https br) = true.
Hypothesis Hshadow : no_shadow br jar (sc_name sc) d (cookie_path br (sc_path sc)) = true.

(** A visible cookie of the written name after the write: the written
    one, and none after a deletion. *)
Lemma store_own c :
  In c (store br sc jar) -> ck_name c = sc_name sc -> visible br c = true ->
  expired sc = false /\ c = stored_cookie br sc d ho.
Proof.
  intros Hin Hn Hv. destruct (expired sc) eqn:Hx.
  - exfalso. rewrite (store_accepted br sc jar d ho Henabled Hdomain Hsecure), Hx in Hin. simpl in Hin.
    apply filter_In in Hin as [Hin Hs].
    rewrite (no_shadow_same br sc jar d Hshadow c Hin Hn Hv) in Hs. discriminate.
  - split; [reflexivity|]. apply (store_only br sc jar d ho Henabled Hdomain Hsecure Hshadow); assumption.
Qed.

Lemma consistent_store : consistent br jar = true -> consistent br (store br sc jar) = true.
Proof.
  intros Hc. apply consistent_intro. intros c1 c2 H1 H2 Hn V1 V2.
  destruct (String.eqb_spec (ck_name c1) (sc_name sc)) as [E|E].
  - destruct (store_own c1 H1 E V1) as [_ ->]. destruct (store_own c2 H2 ltac:(congruence) V2) as [_ ->]. reflexivity.
  - apply (consistent_spec br jar); auto; apply (store_other_in br sc); congruence.
Qed.

Lemma no_shadow_store : no_shadow br (store br sc jar) (sc_name sc) d (cookie_path br (sc_path sc)) = true.
Proof.
  unfold no_shadow. apply forallb_forall. intros c Hin.
  destruct (String.eqb_spec (ck_name c) (sc_name sc)) as [E|E]; [|reflexivity].
  destruct (visible br c) eqn:V; [|reflexivity].
  destruct (store_own c Hin E V) as [_ ->]. simpl. rewrite !String.eqb_refl. reflexivity.
Qed.
End Accepted.

(** The scope checks of another name survive a write. *)
Lemma no_shadow_other br sc jar name d p :
  name <> sc_name sc -> no_shadow br (store br sc jar) name d p = no_shadow br jar name d p.
Proof. intros Hne. rewrite no_shadow_filter, filter_named_store, <- no_shadow_filter by exact Hne. reflexivity. Qed.

Lemma no_cookie_filter jar name : no_cookie name jar = no_cookie name (List.filter (named name) jar).
Proof.
  unfold no_cookie. induction jar as [|c jar IH]; [reflexivity|]. simpl.
  unfold named at 1. destruct (String.eqb (ck_name c) name) eqn:Hn; simpl; [rewrite Hn; reflexivity | exact IH].
Qed.

(** A write leaves the absence of another name. *)
Lemma no_cookie_store br sc jar name :
  name <> sc_name sc -> no_cookie name (store br sc jar) = no_cookie name jar.
Proof. intros Hne. rewrite no_cookie_filter, filter_named_store, <- no_cookie_filter by exact Hne. reflexivity. Qed.

End Jar.
