(* ===== verification/TopDomain.v ===== *)
(** * [@segment/top-domain]: the candidate cookie domain

    [topDomain(location.href)] lists the host's levels from the shortest
    ([example.com] for [app.example.com]) to the host itself, skipping a
    host of one label ([localhost]) or an IPv4 address, and returns the
    first level on which a probe cookie [__tld__] with [Domain=.level] can
    be written and read back, deleting the probe; [""] when none can.
    The probe goes through [@segment/cookie] and is not wrapped in a
    [try]: in a document whose cookie access throws, so does [topDomain]. *)

From Stdlib Require Import Ascii String ZArith Lia.
From stdpp Require Import base list option strings gmap.
From S2P Require Import Prelude Json Runtime Browser.
Import Runtime Browser.

Module TopDomain.

(** The levels of a host, shortest first. *)
Definition levels (host : string) : list string :=
  let parts := split_on "." host in
  if is_ip host then []
  else if (length parts <=? 1)%nat then []
  else map (fun i => JSON.join "." (drop i parts)) (rev (seq 0 (length parts - 1))).

Section Probe.
Context (br : browser).

Fixpoint probe_levels (ls : list string) : M string :=
  match ls with
  | [] => mret EmptyString
  | d :: r =>
      opts ← alloc {[ "domain" := PStr (String "." d) ]};
      segment_set br "__tld__" (PNum 1) (PObj opts);;
      v ← segment_get br "__tld__";
      if truthy v then segment_set br "__tld__" PNull (PObj opts);; mret d
      else probe_levels r
  end.

Definition top_domain : M string := probe_levels (levels (br_host br)).
End Probe.

(** ** What the probing computes *)

(** The browser keeps a cookie for [Domain=.d] written from this page. *)
Definition accepts (br : browser) (d : string) : bool :=
  br_enabled br && bool_decide (is_Some (cookie_domain br (Some (String "." d)))).

(** The first level the browser accepts, [""] when there is none. *)
Fixpoint first_accepted (br : browser) (ls : list string) : string :=
  match ls with
  | [] => EmptyString
  | d :: r => if accepts br d then d else first_accepted br r
  end.

(** The probe's options object and the two assignments it makes. *)
Definition probe_options (d : string) : gmap string prim := {[ "domain" := PStr (String "." d) ]}.

Definition probe_write (d : string) : set_cookie :=
  mk_set_cookie "__tld__" "1" (Some (String "." d)) None None false.

Definition probe_delete (d : string) : set_cookie :=
  mk_set_cookie "__tld__" "null" (Some (String "." d)) None (Some (-1)%Z) false.

Lemma probe_requests d :
  segment_prepare (PNum 1) (probe_options d) = probe_options d /\
  request_of "__tld__" (PNum 1) (probe_options d) = probe_write d /\
  request_of "__tld__" PNull (probe_options d) = probe_delete d.
Proof. split; [|split]; reflexivity. Qed.

Lemma accepted_probe br d : accepted br (probe_write d) = accepts br d.
Proof. unfold accepted, accepts. simpl. destruct (br_enabled br); reflexivity. Qed.

Lemma first_accepted_spec br ls :
  first_accepted br ls = EmptyString \/
  (In (first_accepted br ls) ls /\ accepts br (first_accepted br ls) = true).
Proof.
  induction ls as [|d r IH]; simpl; [auto|].
  destruct (accepts br d) eqn:E; [right; auto|]. destruct IH as [IH|[Hin Ha]]; [left | right]; auto.
Qed.

(** The probe's write leaves [__tld__] visible exactly when the level is
    accepted. *)
Lemma probe_write_read br d jar :
  page_path_wf br = true -> no_cookie "__tld__" jar = true ->
  cookie_lookup "__tld__" (document_cookie br (store br (probe_write d) jar)) =
  if accepts br d then Some "1" else None.
Proof.
  intros Hp Hj. rewrite <- accepted_probe.
  apply (probe_read br (probe_write d) jar Hj), path_match_default, Hp.
Qed.

Lemma probe_step br d r w :
  br_accessible br = true -> page_path_wf br = true -> heap_wf w ->
  no_cookie "__tld__" (w_jar w) = true ->
  exists w', extends w w' /\ heap_wf w' /\ w_jar w' = w_jar w /\
    probe_levels br (d :: r) w = if accepts br d then (Ok d, w') else probe_levels br r w'.
Proof.
  intros Ha Hp Hwf Hj. destruct (probe_requests d) as (Eprep & Ewrite & Edel).
  set (n := w_next w). set (o0 := probe_options d) in *.
  set (w1 := mk_world (<[n := o0]> (w_heap w)) (Pos.succ n) (store br (probe_write d) (w_jar w))).
  assert (E1 : segment_set br "__tld__" (PNum 1) (PObj n) (snd (alloc o0 w)) = (Ok tt, w1)).
  { rewrite (segment_set_obj br _ _ n o0) by (simpl; apply lookup_insert_eq).
    unfold write_cookie. rewrite Ha, Eprep, Ewrite. simpl. rewrite insert_insert_eq. reflexivity. }
  cbn [probe_levels].
  rewrite (bind_ok (alloc o0) _ w n (snd (alloc o0 w))) by reflexivity.
  rewrite (bind_ok _ _ _ tt w1) by exact E1.
  rewrite (bind_ok (segment_get br "__tld__") _ w1 _ w1) by (unfold segment_get; rewrite Ha; reflexivity).
  change (w_jar w1) with (store br (probe_write d) (w_jar w)). rewrite probe_write_read by assumption.
  destruct (accepts br d) eqn:Hacc; cbv beta iota.
  - change (truthy (PStr "1")) with true. cbv iota.
    set (w2 := mk_world (<[n := segment_prepare PNull o0]> (w_heap w)) (Pos.succ n) (w_jar w)).
    exists w2. split; [|split; [|split]].
    + apply extends_fresh; simpl; lia.
    + apply extends_wf; auto; simpl; lia.
    + reflexivity.
    + rewrite (bind_ok _ _ w1 tt w2); [reflexivity|].
      rewrite (segment_set_obj br _ _ n o0) by (simpl; apply lookup_insert_eq).
      unfold write_cookie. rewrite Ha, Edel. simpl. rewrite insert_insert_eq.
      unfold w2, probe_delete, probe_write. simpl. rewrite store_write_delete by exact Hj. reflexivity.
  - change (truthy PUndefined) with false. cbv iota. exists w1. split; [|split; [|split]].
    + apply extends_fresh; simpl; lia.
    + apply extends_wf; auto; simpl; lia.
    + simpl. rewrite store_new by exact Hj. simpl (sc_domain (probe_write d)).
      rewrite accepted_probe, Hacc. destruct (cookie_domain _ _) as [[]|]; reflexivity.
    + reflexivity.
Qed.

(** The probing loop, on any list of levels. *)
Lemma probe_levels_spec br ls w :
  br_accessible br = true -> page_path_wf br = true -> heap_wf w ->
  no_cookie "__tld__" (w_jar w) = true ->
  exists w', probe_levels br ls w = (Ok (first_accepted br ls), w') /\
    extends w w' /\ heap_wf w' /\ w_jar w' = w_jar w.
Proof.
  revert w. induction ls as [|d r IH]; intros w Ha Hp Hwf Hj.
  - exists w. split; [reflexivity|]. auto using extends_refl.
  - destruct (probe_step br d r w Ha Hp Hwf Hj) as (w1 & Hx & Hwf1 & Hj1 & ->).
    simpl. destruct (accepts br d).
    + exists w1. auto.
    + destruct (IH w1 Ha Hp Hwf1 (eq_trans (f_equal _ Hj1) Hj)) as (w2 & E & Hx2 & Hwf2 & Hj2).
      exists w2. split; [exact E|]. split; [eapply extends_trans; eauto|]. split; [exact Hwf2|congruence].
Qed.

(** C7: [topDomain] returns the first level of the host, shortest first,
    on which the browser accepts a cookie, and [""] when it accepts none;
    the probes leave the jar as it was and only allocate on the heap. *)
Theorem top_domain_spec br w :
  br_accessible br = true -> page_path_wf br = true -> heap_wf w ->
  no_cookie "__tld__" (w_jar w) = true ->
  exists w', top_domain br w = (Ok (first_accepted br (levels (br_host br))), w') /\
    extends w w' /\ heap_wf w' /\ w_jar w' = w_jar w.
Proof. apply probe_levels_spec. Qed.

Lemma top_domain_spec_witness :
  first_accepted (example_page "app.example.com" "/a/b" true) (levels "app.example.com") = "example.com" /\
  exists w', top_domain (example_page "app.example.com" "/a/b" true)
               (page_load [mk_cookie "ajs_user_id" "u1" "app.example.com" true "/" false true]) =
             (Ok (first_accepted (example_page "app.example.com" "/a/b" true)
                    (levels (br_host (example_page "app.example.com" "/a/b" true)))), w') /\
    extends (page_load [mk_cookie "ajs_user_id" "u1" "app.example.com" true "/" false true]) w' /\ heap_wf w' /\
    w_jar w' = w_jar (page_load [mk_cookie "ajs_user_id" "u1" "app.example.com" true "/" false true]).
Proof.
  split; [reflexivity|].
  apply top_domain_spec; [reflexivity | reflexivity | apply heap_wfb_sound; reflexivity | reflexivity].
Defined.

Lemma probe_blocked br d r w :
  br_accessible br = false -> exists w', probe_levels br (d :: r) w = (Throw SecurityError, w').
Proof.
  intros Ha. cbn [probe_levels].
  rewrite (bind_ok (alloc (probe_options d)) _ w (w_next w) (snd (alloc (probe_options d) w))) by reflexivity.
  eexists. erewrite bind_throw; [reflexivity|].
  rewrite (segment_set_obj br _ _ _ (probe_options d)) by (simpl; apply lookup_insert_eq).
  unfold write_cookie. rewrite Ha. reflexivity.
Qed.

End TopDomain.
