(* ===== verification/Cookie.v ===== *)
(** * [src/lib/cookie.ts]: the [Cookie] store

    The instance is an object [self] on the heap; [this._options] is its
    property ["_options"], a reference to the options object.  Each
    method of [Cookie.prototype] is one definition:

    - [options self None] is the getter ([arguments.length === 0]);
      [options self (Some arg)] the configuration, lines 47 to 72;
    - [set], [get], [remove], lines 83 to 124, each in its [try]/[catch];
    - [Cookie_new] the constructor, [cookie_singleton] the module's
      [new Cookie()].

    The theorems after the definitions state what the scope negotiation
    decides, that the store keeps its options, what [set], [get] and
    [remove] do on the jar, and what the probe of [configure] does to a
    jar beyond the spec: it can stay behind ([probe_residue]) and it
    deletes a value stored under its key ([probe_clobbers_user_key]). *)

From Stdlib Require Import Ascii String ZArith Lia.
From stdpp Require Import base list option strings gmap.
From S2P Require Import Prelude Json Runtime Browser TopDomain.
Import Runtime Browser TopDomain.

Module Cookie.

(** [!value] on what [get] returns (ToBoolean). *)
Definition js_truthy (v : JSON.value) : bool :=
  match v with
  | JSON.Undefined | JSON.Null => false
  | JSON.Bool b => b
  | JSON.Number (JSON.Finite z) => negb (Z.eqb z 0)
  | JSON.Number JSON.NaN => false
  | JSON.Number (JSON.Infinity _) => true
  | JSON.Str s => negb (String.eqb s EmptyString)
  | JSON.BigInt z => negb (Z.eqb z 0)
  | JSON.Array _ | JSON.Object _ => true
  end.

(** The defaults of lines 52 to 58, for a candidate domain. *)
Definition cookie_defaults (domain : prim) : list (string * prim) :=
  [("maxage", PNum 31536000000); ("path", PStr "/"); ("domain", domain); ("sameSite", PStr "Lax")].

(** Lines 49 and 50: ["." + topDomain(...)], and [null] for ["."]. *)
Definition candidate_domain (td : string) : prim :=
  if String.eqb (String "." td) "." then PNull else PStr (String "." td).

(** [value === 'null' ? null : value] on what [JSON.stringify] returned. *)
Definition stored_value (r : JSON.serialized) : prim :=
  match r with
  | JSON.Text t => if String.eqb t "null" then PNull else PStr t
  | _ => PUndefined
  end.

(** [interface CookieOptions] (lines 37 to 42): [maxage] a number,
    [domain] and [path] strings, [secure] a boolean.  A field may be
    absent: the code reaches the interface through
    [options || ({} as CookieOptions)].  [domain] may also be [null],
    which the code itself assigns (lines 50 and 70) although the
    interface declares a string. *)
Definition options_typed (o : gmap string prim) : bool :=
  match prop_of o "maxage" with PNum _ | PUndefined => true | _ => false end &&
  match prop_of o "domain" with PStr _ | PNull | PUndefined => true | _ => false end &&
  match prop_of o "path" with PStr _ | PUndefined => true | _ => false end &&
  match prop_of o "secure" with PBool _ | PUndefined => true | _ => false end.

Section Methods.
Context (br : browser).

(** [Cookie.prototype.set]: [JSON.stringify], the text ["null"] turned
    into a deletion, and a write with a clone of the options. *)
Definition set (self : loc) (key : string) (value : JSON.value) : M bool :=
  try_catch
    (match JSON.stringify value with
     | JSON.Thrown => throw TypeError
     | r =>
         o ← get_prop self "_options";
         c ← clone o;
         segment_set br key (stored_value r) c;;
         mret true
     end)
    (fun _ => mret false).

(** [Cookie.prototype.get]: a falsy raw value reads as [null], a
    malformed one ([SyntaxError]) too. *)
Definition get (key : string) : M JSON.value :=
  try_catch
    (raw ← segment_get br key;
     if truthy raw then
       match JSON.parse (to_string raw) with
       | Some v => mret v
       | None => throw SyntaxError
       end
     else mret JSON.Null)
    (fun _ => mret JSON.Null).

(** [Cookie.prototype.remove]. *)
Definition remove (self : loc) (key : string) : M bool :=
  try_catch
    (o ← get_prop self "_options";
     c ← clone o;
     segment_set br key PNull c;;
     mret true)
    (fun _ => mret false).

(** [Cookie.prototype.options]: [None] is a call without arguments;
    [Some None] passes [undefined] (or another falsy value), [Some (Some l)]
    the caller's object at [l]. *)
Definition options (self : loc) (arg : option (option loc)) : M prim :=
  match arg with
  | None => get_prop self "_options"
  | Some opt =>
      o ← (match opt with Some l => mret l | None => alloc ∅ end);
      td ← top_domain br;
      l ← defaults o (cookie_defaults (candidate_domain td));
      set_prop self "_options" (PObj l);;
      set self "ajs:test" (JSON.Bool true);;
      v ← get "ajs:test";
      (if negb (js_truthy v) then
         cur ← get_prop self "_options"; put cur "domain" PNull
       else mret tt);;
      remove self "ajs:test";;
      mret PUndefined
  end.

(** [new Cookie(options)]. *)
Definition Cookie_new (arg : option loc) : M loc :=
  self ← alloc ∅;
  options self (Some arg);;
  mret self.

(** [module.exports = bindAll(new Cookie())]. *)
Definition cookie_singleton : M loc := Cookie_new None.
End Methods.

(** ** The store's state, as the theorems see it *)

(** [this._options] is the object [o]. *)
Definition options_of (w : world) (self : loc) : option (gmap string prim) :=
  match prop w self "_options" with
  | PObj l => w_heap w !! l
  | _ => None
  end.

Definition configured (w : world) (self : loc) (o : gmap string prim) : Prop := options_of w self = Some o.

(** The world after a write of [value] through a clone of [o]. *)
Definition after_write (br : browser) (key : string) (value : prim) (o : gmap string prim) (w : world) : world :=
  mk_world (<[w_next w := segment_prepare value o]> (w_heap w)) (Pos.succ (w_next w))
    (if br_accessible br then store br (request_of key value o) (w_jar w) else w_jar w).

(** What [get] returns from a raw cookie value. *)
Definition decode (raw : prim) : JSON.value :=
  if truthy raw then default JSON.Null (JSON.parse (to_string raw)) else JSON.Null.

Definition raw_cookie (br : browser) (key : string) (jar : list cookie) : prim :=
  if br_accessible br then
    match cookie_lookup key (document_cookie br jar) with
    | Some v => PStr v
    | None => PUndefined
    end
  else PUndefined.

(** The attributes a string write uses with the options object [o]. *)
Definition write_scope (o : gmap string prim) : set_cookie := request_of "" (PStr "") o.

(** The browser keeps and shows a cookie written with [o]. *)
Definition honours (br : browser) (o : gmap string prim) : bool :=
  br_accessible br && accepted br (write_scope o) &&
  path_match (br_path br) (cookie_path br (sc_path (write_scope o))).

(** No other visible cookie named [key] competes with the scope of [o]. *)
Definition shadow_free (br : browser) (jar : list cookie) (key : string) (o : gmap string prim) : bool :=
  match cookie_domain br (sc_domain (write_scope o)) with
  | Some (d, _) => no_shadow br jar key d (cookie_path br (sc_path (write_scope o)))
  | None => false
  end.

(** The options [configure] computes from the caller's object [o] when
    [topDomain] found [td] (lines 49 to 58). *)
Definition merged (o : gmap string prim) (td : string) : gmap string prim :=
  merge o (cookie_defaults (candidate_domain td)).

(** The world after [this._options = defaults(...)] (with [this] holding
    [s] before) and the probe write [this.set('ajs:test', true)]. *)
Definition probe_world (br : browser) (self l : loc) (s o1 : gmap string prim) (w1 : world) : world :=
  after_write br "ajs:test" (PStr "true") o1
    (mk_world (<[self := <["_options" := PObj l]> s]> (<[l := o1]> (w_heap w1))) (w_next w1) (w_jar w1)).

(** The options kept after the probe was read back in [w]. *)
Definition kept (br : browser) (o1 : gmap string prim) (w : world) : gmap string prim :=
  if js_truthy (decode (raw_cookie br "ajs:test" (w_jar w))) then o1 else <["domain" := PNull]> o1.

(** [this._options] is the object at [l], which holds [o], in a
    well-formed heap. *)
Definition options_at (w : world) (self l : loc) (o : gmap string prim) : Prop :=
  heap_wf w /\ prop w self "_options" = PObj l /\ w_heap w !! l = Some o.

(** What [configure] settles on for the caller's object [o]: the merged
    options, with the domain dropped when the browser does not honour a
    write with them (spec 4.1, steps 1 to 4). *)
Definition negotiated (br : browser) (o : gmap string prim) : gmap string prim :=
  let o1 := merged o (first_accepted br (levels (br_host br))) in
  if honours br o1 then o1 else <["domain" := PNull]> o1.

(** The world after [this.remove('ajs:test')] with the options [o2]
    kept in the object at [l]. *)
Definition removal_world (br : browser) (l : loc) (o2 : gmap string prim) (w4 : world) : world :=
  after_write br "ajs:test" PNull o2 (mk_world (<[l := o2]> (w_heap w4)) (w_next w4) (w_jar w4)).

(** ** Example pages *)

(** A page of [app.example.com] whose cookies work, and the world after
    the module's [new Cookie()] there. *)
Definition example_site : browser := example_page "app.example.com" "/a/b" true.
Definition example_store : world := snd (cookie_singleton example_site (page_load [])).

(** A [localhost] page in a document whose cookie access throws. *)
Definition blocked_site : browser := mk_browser "localhost" "/" false true false example_suffixes.
Definition blocked_store : world := snd (cookie_singleton blocked_site (page_load [])).

(** A world where the caller's options object [{secure: true}] is at 1. *)
Definition secure_caller : world :=
  mk_world {[1%positive := {[ "secure" := PBool true ]}]} 2%positive [].

(** ** Running [set], [get] and [remove] *)

Lemma configured_inv w self o :
  configured w self o -> exists l, prop w self "_options" = PObj l /\ w_heap w !! l = Some o.
Proof. unfold configured, options_of. destruct (prop w self "_options"); try discriminate. eauto. Qed.

Lemma write_through_clone br self key value w o :
  heap_wf w -> configured w self o ->
  (o ← get_prop self "_options"; c ← clone o; segment_set br key value c;; mret true) w =
  (if br_accessible br then Ok true else Throw SecurityError, after_write br key value o w).
Proof.
  intros Hwf Hc. destruct (configured_inv _ _ _ Hc) as (l & Hp & Hl).
  unfold_M. rewrite get_prop_run, Hp. cbn [fst snd].
  rewrite (clone_obj l o) by exact Hl.
  rewrite (segment_set_obj br key value (w_next w) o) by (simpl; apply lookup_insert_eq).
  unfold write_cookie, after_write. simpl. rewrite insert_insert_eq.
  destruct (br_accessible br); reflexivity.
Qed.

Lemma set_run br self key v w o :
  heap_wf w -> configured w self o -> JSON.stringify v <> JSON.Thrown ->
  set br self key v w =
  (Ok (br_accessible br), after_write br key (stored_value (JSON.stringify v)) o w).
Proof.
  intros Hwf Hc Ht. unfold set, try_catch.
  destruct (JSON.stringify v) eqn:Es; [congruence| |];
    rewrite (write_through_clone br self key _ w o) by assumption; destruct (br_accessible br); reflexivity.
Qed.

Lemma set_thrown br self key v w :
  JSON.stringify v = JSON.Thrown -> set br self key v w = (Ok false, w).
Proof. intros Ht. unfold set, try_catch. rewrite Ht. reflexivity. Qed.

Lemma remove_run br self key w o :
  heap_wf w -> configured w self o ->
  remove br self key w = (Ok (br_accessible br), after_write br key PNull o w).
Proof.
  intros Hwf Hc. unfold remove, try_catch.
  rewrite (write_through_clone br self key _ w o) by assumption. destruct (br_accessible br); reflexivity.
Qed.

Lemma get_run br key w : get br key w = (Ok (decode (raw_cookie br key (w_jar w))), w).
Proof.
  unfold get, try_catch, decode, raw_cookie, segment_get. unfold_M.
  destruct (br_accessible br); simpl; [|reflexivity].
  destruct (cookie_lookup key (document_cookie br (w_jar w))) as [t|]; simpl; [|reflexivity].
  destruct (negb (String.eqb t "")); simpl; [|reflexivity].
  destruct (JSON.parse t); reflexivity.
Qed.

Lemma after_write_lookup br key value o w l :
  (l < w_next w)%positive -> w_heap (after_write br key value o w) !! l = w_heap w !! l.
Proof. intros H. unfold after_write. simpl. apply lookup_insert_ne. lia. Qed.

Lemma after_write_wf br key value o w : heap_wf w -> heap_wf (after_write br key value o w).
Proof. intros Hwf. unfold after_write. apply extends_wf; auto; simpl; lia. Qed.

Lemma world_eta w : mk_world (w_heap w) (w_next w) (w_jar w) = w.
Proof. destruct w; reflexivity. Qed.

Lemma options_at_configured w self l o : options_at w self l o -> configured w self o.
Proof. intros (_ & Hp & Hl). unfold configured, options_of. rewrite Hp. exact Hl. Qed.

Lemma options_at_after_write br key value o' w self l o :
  options_at w self l o -> options_at (after_write br key value o' w) self l o.
Proof.
  intros (Hwf & Hp & Hl).
  assert (Hs : is_Some (w_heap w !! self))
    by (unfold prop in Hp; destruct (w_heap w !! self); [eexists; reflexivity | discriminate]).
  split; [apply after_write_wf, Hwf|]. unfold prop in *.
  rewrite !after_write_lookup by (apply Hwf; eauto). auto.
Qed.

Lemma options_at_update w self l o o' :
  options_at w self l o -> self <> l ->
  options_at (mk_world (<[l := o']> (w_heap w)) (w_next w) (w_jar w)) self l o'.
Proof.
  intros (Hwf & Hp & Hl) Hne. split; [apply update_wf; eauto|]. unfold prop in *. simpl.
  rewrite lookup_insert_ne by congruence. split; [exact Hp | apply lookup_insert_eq].
Qed.

(** [this._options = defaults(options, ...)] (line 54). *)
Lemma options_at_assign w self l s o1 :
  heap_wf w -> w_heap w !! self = Some s -> is_Some (w_heap w !! l) -> self <> l ->
  options_at (mk_world (<[self := <["_options" := PObj l]> s]> (<[l := o1]> (w_heap w))) (w_next w) (w_jar w))
    self l o1.
Proof.
  intros Hwf Hs Hl Hne.
  assert (H1 : heap_wf (mk_world (<[l := o1]> (w_heap w)) (w_next w) (w_jar w))) by (apply update_wf; auto).
  pose proof (update_wf _ self (<["_options" := PObj l]> s) H1) as H2. simpl in H2.
  split; [|split].
  - apply H2. rewrite lookup_insert_ne by congruence. eauto.
  - unfold prop. simpl. rewrite lookup_insert_eq. simpl. rewrite lookup_insert_eq. reflexivity.
  - simpl. rewrite lookup_insert_ne by congruence. apply lookup_insert_eq.
Qed.

Lemma probe_world_at br w1 self l s o1 :
  heap_wf w1 -> w_heap w1 !! self = Some s -> is_Some (w_heap w1 !! l) -> self <> l ->
  options_at (probe_world br self l s o1 w1) self l o1.
Proof. intros. apply options_at_after_write, options_at_assign; assumption. Qed.

(** [options(undefined)] configures a fresh [{}]. *)
Lemma options_undefined br self w :
  options br self (Some None) w = options br self (Some (Some (w_next w))) (snd (alloc ∅ w)).
Proof.
  unfold options. rewrite (bind_ok (alloc ∅) _ w (w_next w) (snd (alloc ∅ w))) by reflexivity.
  rewrite (bind_ok (mret _) _ _ (w_next w) _) by reflexivity. reflexivity.
Qed.

(** [new Cookie(arg)] allocates [this] and then configures the caller's
    object, or a fresh one. *)
Lemma Cookie_new_start br arg w o :
  heap_wf w -> caller_object w arg = Some o ->
  exists l wb, options br (w_next w) (Some arg) (snd (alloc ∅ w)) = options br (w_next w) (Some (Some l)) wb /\
    heap_wf wb /\ w_heap wb !! w_next w = Some ∅ /\ w_heap wb !! l = Some o /\ w_next w <> l /\
    w_jar wb = w_jar w /\ (forall l', arg = Some l' -> l = l').
Proof.
  intros Hwf Ho. destruct arg as [l|]; simpl in Ho.
  - assert (Hl : (l < w_next w)%positive) by (apply Hwf; eauto).
    exists l, (snd (alloc ∅ w)). split; [reflexivity|]. split; [apply alloc_wf, Hwf|]. simpl.
    rewrite lookup_insert_eq, lookup_insert_ne by lia. repeat split; auto; [lia | congruence].
  - invc Ho. exists (w_next (snd (alloc ∅ w))), (snd (alloc ∅ (snd (alloc ∅ w)))).
    split; [apply options_undefined|]. split; [apply alloc_wf, alloc_wf, Hwf|]. simpl.
    rewrite lookup_insert_ne, lookup_insert_eq, lookup_insert_eq by lia.
    repeat split; [lia | discriminate].
Qed.

Lemma removal_world_at br l o1 o2 w4 self :
  options_at w4 self l o1 -> self <> l -> options_at (removal_world br l o2 w4) self l o2.
Proof. intros H Hne. apply options_at_after_write, (options_at_update _ _ _ o1); assumption. Qed.

Lemma Cookie_new_bind br arg w r w' :
  options br (w_next w) (Some arg) (snd (alloc ∅ w)) = (Ok r, w') -> Cookie_new br arg w = (Ok (w_next w), w').
Proof.
  intros E. unfold Cookie_new. rewrite (bind_ok (alloc ∅) _ w (w_next w) (snd (alloc ∅ w))) by reflexivity.
  rewrite (bind_ok _ _ _ r w') by exact E. reflexivity.
Qed.

(** The options of [new Cookie()], before the probe. *)
Lemma singleton_scope td :
  write_scope (merged ∅ td) =
  mk_set_cookie "" "" (if String.eqb td "" then None else Some (String "." td)) (Some "/") (Some 31536000000%Z) false.
Proof. destruct td; reflexivity. Qed.

Lemma singleton_props td :
  prop_of (merged ∅ td) "domain" = candidate_domain td /\ prop_of (merged ∅ td) "maxage" = PNum 31536000000 /\
  prop_of (merged ∅ td) "path" = PStr "/" /\ prop_of (merged ∅ td) "sameSite" = PStr "Lax".
Proof. repeat split; reflexivity. Qed.

Lemma singleton_path br td :
  page_path_wf br = true -> path_match (br_path br) (cookie_path br (sc_path (write_scope (merged ∅ td)))) = true.
Proof. intros Hp. rewrite singleton_scope. apply path_match_root, Hp. Qed.

(** Without caller options, the probe of [configure] keeps what
    [topDomain] found. *)
Lemma negotiated_singleton br :
  br_accessible br = true -> page_path_wf br = true ->
  negotiated br ∅ = merged ∅ (first_accepted br (levels (br_host br))).
Proof.
  intros Ha Hp. unfold negotiated. set (td := first_accepted br (levels (br_host br))).
  destruct (honours br (merged ∅ td)) eqn:Hh; [reflexivity|].
  destruct (first_accepted_spec br (levels (br_host br))) as [E|[_ Hacc]].
  - fold td in E. rewrite E. apply insert_id. reflexivity.
  - fold td in Hacc. exfalso. revert Hh. unfold honours. rewrite Ha, singleton_path by exact Hp.
    unfold accepts in Hacc. apply andb_prop in Hacc as [He Hd].
    unfold accepted. rewrite singleton_scope, He. cbn -[cookie_domain].
    destruct (String.eqb td "") eqn:Etd; cbn -[cookie_domain]; [discriminate|]. rewrite Hd. discriminate.
Qed.

(** [configure] with the caller's object at [l], once [topDomain] has
    returned [td]: the merge, the probe write and read, the fallback and
    the removal, in the order of lines 54 to 71. *)
Lemma options_run br self l w s o td w1 :
  top_domain br w = (Ok td, w1) -> heap_wf w1 ->
  w_heap w1 !! self = Some s -> w_heap w1 !! l = Some o -> self <> l ->
  let o1 := merged o td in
  let w4 := probe_world br self l s o1 w1 in
  options br self (Some (Some l)) w = (Ok PUndefined, removal_world br l (kept br o1 w4) w4).
Proof.
  intros Htd Hwf Hs Ho Hne o1 w4. unfold removal_world. set (o2 := kept br o1 w4). unfold options.
  rewrite (bind_ok (mret l) _ w l w) by reflexivity.
  rewrite (bind_ok _ _ w td w1) by exact Htd.
  set (w2 := mk_world (<[l := o1]> (w_heap w1)) (w_next w1) (w_jar w1)).
  rewrite (bind_ok _ _ w1 l w2) by (apply defaults_run; exact Ho). cbv beta.
  set (w3 := mk_world (<[self := <["_options" := PObj l]> s]> (<[l := o1]> (w_heap w1))) (w_next w1) (w_jar w1)).
  rewrite (bind_ok _ _ w2 tt w3) by (apply (set_prop_obj self s _ _ w2); simpl; rewrite lookup_insert_ne by congruence; exact Hs).
  assert (H3 : options_at w3 self l o1) by (apply options_at_assign; eauto).
  rewrite (bind_ok _ _ w3 (br_accessible br) w4)
    by (apply set_run; [apply H3 | eapply options_at_configured, H3 | discriminate]).
  rewrite (bind_ok (get br "ajs:test") _ w4 _ w4) by apply get_run.
  assert (H4 : options_at w4 self l o1) by (apply probe_world_at; eauto).
  pose proof H4 as (Hwf4 & Hp4 & Hl4).
  unfold o2, kept. destruct (js_truthy _) eqn:Ht; cbv beta iota; simpl negb; cbv iota.
  - rewrite (bind_ok (mret tt) _ w4 tt w4) by reflexivity.
    rewrite (bind_ok _ _ w4 (br_accessible br) (after_write br "ajs:test" PNull o1 w4))
      by (apply remove_run; [exact Hwf4 | eapply options_at_configured, H4]).
    rewrite ret_run, insert_id, world_eta by exact Hl4. reflexivity.
  - set (w5 := mk_world (<[l := <["domain" := PNull]> o1]> (w_heap w4)) (w_next w4) (w_jar w4)).
    rewrite (bind_ok _ _ w4 tt w5).
    2: { rewrite (bind_ok _ _ w4 (PObj l) w4) by (rewrite get_prop_run; congruence).
         apply set_prop_obj, Hl4. }
    rewrite (bind_ok _ _ w5 (br_accessible br) (after_write br "ajs:test" PNull (<["domain" := PNull]> o1) w5)).
    + rewrite ret_run. reflexivity.
    + assert (H5 : options_at w5 self l (<["domain" := PNull]> o1))
        by (apply (options_at_update w4 self l o1); [split; auto | exact Hne]).
      apply remove_run; [apply H5 | eapply options_at_configured, H5].
Qed.

(** ** What [set], [get] and [remove] do to the jar *)

Lemma request_of_str key t o :
  request_of key (PStr t) o =
  mk_set_cookie key t (sc_domain (write_scope o)) (sc_path (write_scope o))
    (sc_expires (write_scope o)) (sc_secure (write_scope o)).
Proof. reflexivity. Qed.

(** A write of null or undefined is an assignment with an expiry in the
    past, in the scope a string write would use. *)
Lemma request_of_delete key v o :
  v = PNull \/ v = PUndefined ->
  request_of key v o =
  mk_set_cookie key (to_string v) (sc_domain (write_scope o)) (sc_path (write_scope o))
    (Some (-1)%Z) (sc_secure (write_scope o)).
Proof.
  intros [-> | ->];
  cbv [request_of write_scope segment_prepare prop_of sc_domain sc_path sc_secure];
  rewrite lookup_insert_eq; cbn [truthy Z.eqb negb default expiry_of];
  destruct (truthy (default PUndefined (o !! "maxage"))); simplify_map_eq; reflexivity.
Qed.

Lemma accepted_rename br sc n v :
  accepted br (mk_set_cookie n v (sc_domain sc) (sc_path sc) (sc_expires sc) (sc_secure sc)) = accepted br sc.
Proof. destruct sc; reflexivity. Qed.

(** The probe of [configure] on a jar without [ajs:test], with options
    whose path covers the page: it reads back exactly when the browser
    honours the options, and the removal leaves the jar as it was. *)
Lemma probe_cycle br o1 jar :
  br_accessible br = true -> no_cookie "ajs:test" jar = true ->
  path_match (br_path br) (cookie_path br (sc_path (write_scope o1))) = true ->
  js_truthy (decode (raw_cookie br "ajs:test" (store br (request_of "ajs:test" (PStr "true") o1) jar))) = honours br o1 /\
  store br (request_of "ajs:test" PNull (if honours br o1 then o1 else <["domain" := PNull]> o1))
    (store br (request_of "ajs:test" (PStr "true") o1) jar) = jar.
Proof.
  intros Ha Hj Hp.
  assert (Hh : honours br o1 = accepted br (write_scope o1))
    by (unfold honours; rewrite Ha, Hp, andb_true_r; reflexivity).
  pose proof (probe_read br (mk_set_cookie "ajs:test" "true" (sc_domain (write_scope o1)) (sc_path (write_scope o1))
    (sc_expires (write_scope o1)) (sc_secure (write_scope o1))) jar Hj Hp) as R.
  cbn [sc_name sc_value] in R. rewrite accepted_rename in R.
  rewrite request_of_str, Hh. split.
  - unfold raw_cookie. rewrite Ha, R. destruct (accepted _ _); reflexivity.
  - destruct (accepted br (write_scope o1)) eqn:Hacc.
    + rewrite request_of_delete by auto. apply store_write_delete, Hj.
    + rewrite (store_new br (mk_set_cookie "ajs:test" "true" _ _ _ _)) by exact Hj.
      cbn [sc_domain]. rewrite accepted_rename, Hacc.
      rewrite request_of_delete by auto.
      destruct (cookie_domain br _) as [[]|]; apply store_expired_absent; auto.
Qed.

Lemma honours_spec br o :
  honours br o = true ->
  br_enabled br = true /\ br_accessible br = true /\ expired (write_scope o) = false /\
  (negb (sc_secure (write_scope o)) || br_https br) = true /\
  path_match (br_path br) (cookie_path br (sc_path (write_scope o))) = true /\
  exists d ho, cookie_domain br (sc_domain (write_scope o)) = Some (d, ho).
Proof.
  unfold honours, accepted. intros H. rewrite !andb_true_iff in H.
  destruct H as [[Ha [[[He Hx] Hsec] Hd]] Hp].
  apply bool_decide_eq_true in Hd as [[d ho] Hd]. apply negb_true_iff in Hx.
  repeat split; eauto.
Qed.

(** [options(obj)] on a store [self] (holding [s]) with the caller's
    object at [l], on a page whose cookies are accessible, from a jar
    without the probe names, for options whose path covers the page: the
    object at [l] ends up holding [negotiated br o] and is
    [this._options]; the jar is as it was, and no other object allocated
    before changes. *)
Lemma options_negotiate br self l w s o :
  heap_wf w -> w_heap w !! self = Some s -> w_heap w !! l = Some o -> self <> l ->
  br_accessible br = true -> page_path_wf br = true ->
  no_cookie "__tld__" (w_jar w) = true -> no_cookie "ajs:test" (w_jar w) = true ->
  path_match (br_path br) (cookie_path br (sc_path (write_scope (merged o (first_accepted br (levels (br_host br))))))) = true ->
  exists w', options br self (Some (Some l)) w = (Ok PUndefined, w') /\ options_at w' self l (negotiated br o) /\
    w_jar w' = w_jar w /\ (w_next w <= w_next w')%positive /\
    (forall l', l' <> self -> l' <> l -> (l' < w_next w)%positive -> w_heap w' !! l' = w_heap w !! l').
Proof.
  intros Hwf Hs Hl Hne Ha Hp Ht Hj Hpm.
  destruct (probe_levels_spec br (levels (br_host br)) w Ha Hp Hwf Ht) as (w1 & Etd & Hx & Hwf1 & Hj1).
  set (td := first_accepted br (levels (br_host br))) in *.
  pose proof (options_run br self l w s o td w1 Etd Hwf1 (extends_lookup _ _ _ _ Hwf Hx Hs)
    (extends_lookup _ _ _ _ Hwf Hx Hl) Hne) as Erun. cbv zeta in Erun.
  assert (Hj1' : no_cookie "ajs:test" (w_jar w1) = true) by (rewrite Hj1; exact Hj).
  destruct (probe_cycle br (merged o td) (w_jar w1) Ha Hj1' Hpm) as [Hread Hjar].
  assert (Hk : kept br (merged o td) (probe_world br self l s (merged o td) w1) = negotiated br o).
  { unfold kept, negotiated, probe_world, after_write. simpl w_jar. rewrite Ha. fold td. rewrite Hread. reflexivity. }
  rewrite Hk in Erun. pose proof Hx as [Hn Hx'].
  eexists. split; [exact Erun|]. split; [|split; [|split]].
  - apply (removal_world_at _ _ (merged o td)); [|exact Hne].
    apply probe_world_at; eauto using extends_lookup.
  - unfold removal_world, after_write, probe_world, negotiated. simpl. rewrite Ha. fold td. rewrite Hjar. congruence.
  - unfold removal_world, after_write, probe_world. simpl. lia.
  - intros l' H1 H2 Hlt. unfold removal_world, after_write, probe_world. simpl.
    rewrite !lookup_insert_ne by (congruence || lia). apply Hx', Hlt.
Qed.

(** ** The merged options, key by key *)

Lemma merged_prop o td k v :
  In (k, v) (cookie_defaults (candidate_domain td)) ->
  prop_of (merged o td) k = match prop_of o k with PUndefined => v | p => p end.
Proof.
  intros Hin. apply merge_prop; [|exact Hin].
  change (map fst (cookie_defaults (candidate_domain td))) with ["maxage"; "path"; "domain"; "sameSite"].
  apply (bool_decide_unpack _). vm_compute. reflexivity.
Qed.

Lemma merged_secure o td : prop_of (merged o td) "secure" = prop_of o "secure".
Proof.
  apply merge_other. change (map fst (cookie_defaults (candidate_domain td))) with ["maxage"; "path"; "domain"; "sameSite"].
  apply (bool_decide_unpack _). vm_compute. reflexivity.
Qed.

Lemma negotiated_other br o k :
  k <> "domain" -> prop_of (negotiated br o) k = prop_of (merged o (first_accepted br (levels (br_host br)))) k.
Proof.
  intros Hk. unfold negotiated. destruct (honours _ _); [reflexivity|].
  unfold prop_of. rewrite lookup_insert_ne by congruence. reflexivity.
Qed.

Lemma negotiated_domain br o :
  prop_of (negotiated br o) "domain" = PNull \/
  prop_of (negotiated br o) "domain" = prop_of (merged o (first_accepted br (levels (br_host br)))) "domain".
Proof. unfold negotiated. destruct (honours _ _); [right; reflexivity | left; apply prop_of_insert_eq]. Qed.

Lemma candidate_domain_cases td : candidate_domain td = PNull \/ exists d, candidate_domain td = PStr d.
Proof. unfold candidate_domain. destruct (String.eqb _ _); eauto. Qed.

(** ** [set] of a value that serializes to nothing or to ["null"] *)

Lemma store_delete_value br k v1 v2 d p sec jar :
  store br (mk_set_cookie k v1 d p (Some (-1)%Z) sec) jar = store br (mk_set_cookie k v2 d p (Some (-1)%Z) sec) jar.
Proof. unfold store. cbn. reflexivity. Qed.

Lemma after_write_delete br k o w :
  after_write br k PUndefined o w = after_write br k PNull o w.
Proof.
  unfold after_write. f_equal. destruct (br_accessible br); [|reflexivity].
  rewrite !request_of_delete by auto. apply store_delete_value.
Qed.

(** The options [configure] settles on keep the interface's types and
    fill [maxage], [path] and [domain]. *)
Lemma negotiated_typed br o :
  options_typed o = true ->
  options_typed (negotiated br o) = true /\ prop_of (negotiated br o) "maxage" <> PUndefined /\
  prop_of (negotiated br o) "path" <> PUndefined /\ prop_of (negotiated br o) "domain" <> PUndefined.
Proof.
  unfold options_typed. intros H. rewrite !andb_true_iff in H. destruct H as [[[Hm Hd] Hp] Hs].
  assert (Hx : prop_of (negotiated br o) "domain" = PNull \/ exists d, prop_of (negotiated br o) "domain" = PStr d).
  { destruct (negotiated_domain br o) as [E|E]; rewrite E; [auto|].
    rewrite (merged_prop o _ "domain" (candidate_domain _)) by (right; right; left; reflexivity).
    destruct (prop_of o "domain"); try discriminate; eauto. apply candidate_domain_cases. }
  rewrite (negotiated_other br o "maxage"), (negotiated_other br o "path"), (negotiated_other br o "secure")
    by discriminate.
  rewrite (merged_prop o _ "maxage" (PNum 31536000000)) by (left; reflexivity).
  rewrite (merged_prop o _ "path" (PStr "/")) by (right; left; reflexivity).
  rewrite merged_secure.
  destruct Hx as [-> | [d ->]];
    destruct (prop_of o "maxage"); try discriminate; destruct (prop_of o "path"); try discriminate;
    destruct (prop_of o "secure"); try discriminate; repeat split; discriminate.
Qed.

(** [new Cookie(arg)] on a page whose cookies are accessible, from a jar
    without the probe names, for caller options whose path covers the
    page: [this._options] is the caller's object (or a fresh one) holding
    [negotiated br o], and the jar is as it was. *)
Lemma Cookie_new_run br arg w o :
  heap_wf w -> caller_object w arg = Some o ->
  br_accessible br = true -> page_path_wf br = true ->
  no_cookie "__tld__" (w_jar w) = true -> no_cookie "ajs:test" (w_jar w) = true ->
  path_match (br_path br) (cookie_path br (sc_path (write_scope (merged o (first_accepted br (levels (br_host br))))))) = true ->
  exists self l w', Cookie_new br arg w = (Ok self, w') /\ options_at w' self l (negotiated br o) /\
    w_jar w' = w_jar w /\ (forall l', arg = Some l' -> l = l').
Proof.
  intros Hwf Ho Ha Hp Ht Hj Hpm.
  destruct (Cookie_new_start br arg w o Hwf Ho) as (l & wb & Eopt & Hwfb & Hself & Hl & Hne & Hjb & Hal).
  destruct (options_negotiate br (w_next w) l wb ∅ o Hwfb Hself Hl Hne Ha Hp
    ltac:(rewrite Hjb; exact Ht) ltac:(rewrite Hjb; exact Hj) Hpm) as (w' & E & Hat & Hjar & _).
  exists (w_next w), l, w'. split; [apply (Cookie_new_bind _ _ _ PUndefined); rewrite Eopt; exact E|].
  split; [exact Hat|]. split; [congruence | exact Hal].
Qed.

(** A world that keeps the objects allocated before keeps the store's
    options. *)
Lemma configured_frame w w' self o :
  heap_wf w -> configured w self o ->
  (forall l', (l' < w_next w)%positive -> w_heap w' !! l' = w_heap w !! l') -> configured w' self o.
Proof.
  intros Hwf Hc Hf. destruct (configured_inv _ _ _ Hc) as (l & Hp & Hl).
  assert (Hs : is_Some (w_heap w !! self)) by (unfold prop in Hp; destruct (w_heap w !! self); [eauto|discriminate]).
  unfold configured, options_of, prop in *. rewrite !Hf by (apply Hwf; eauto). rewrite Hp, Hf by (apply Hwf; eauto).
  exact Hl.
Qed.

(** [new Cookie()] allocates everything it touches: the objects allocated
    before are left as they were. *)
Lemma Cookie_new_frame br w :
  heap_wf w -> br_accessible br = true -> page_path_wf br = true ->
  no_cookie "__tld__" (w_jar w) = true -> no_cookie "ajs:test" (w_jar w) = true ->
  exists self l w', Cookie_new br None w = (Ok self, w') /\ options_at w' self l (negotiated br ∅) /\
    w_jar w' = w_jar w /\ (w_next w <= self)%positive /\
    (forall l', (l' < w_next w)%positive -> w_heap w' !! l' = w_heap w !! l').
Proof.
  intros Hwf Ha Hp Ht Hj.
  set (wa := snd (alloc ∅ w)). set (wb := snd (alloc ∅ wa)).
  assert (Hwfb : heap_wf wb) by (apply alloc_wf, alloc_wf, Hwf).
  assert (Hold : forall l', (l' < w_next w)%positive -> w_heap wb !! l' = w_heap w !! l')
    by (intros l' Hlt; simpl; rewrite !lookup_insert_ne by lia; reflexivity).
  assert (Hself : w_heap wb !! w_next w = Some ∅) by (simpl; rewrite lookup_insert_ne, lookup_insert_eq by lia; reflexivity).
  assert (Hl : w_heap wb !! w_next wa = Some ∅) by (simpl; apply lookup_insert_eq).
  assert (Hne : w_next w <> w_next wa) by (simpl; lia).
  destruct (options_negotiate br (w_next w) (w_next wa) wb ∅ ∅ Hwfb Hself Hl Hne Ha Hp Ht Hj (singleton_path br _ Hp))
    as (w' & E & Hat & Hjar & _ & Hf).
  exists (w_next w), (w_next wa), w'. split; [apply (Cookie_new_bind _ _ _ PUndefined); rewrite options_undefined; exact E|].
  split; [exact Hat|]. split; [exact Hjar|]. split; [lia|].
  intros l' Hlt. rewrite Hf by (simpl; lia). apply Hold, Hlt.
Qed.

(** C3: [new Cookie(options)] implements the configuration of the spec:
    on a page whose cookies are accessible, [this._options] ends up as the
    caller's options merged over the defaults with the domain
    [topDomain] found, kept when the browser honours a write with them and
    set to null otherwise ([negotiated]); the probe leaves the jar as it
    was. *)
Theorem configure_refines br arg w o :
  heap_wf w -> caller_object w arg = Some o ->
  br_accessible br = true -> page_path_wf br = true ->
  no_cookie "__tld__" (w_jar w) = true -> no_cookie "ajs:test" (w_jar w) = true ->
  path_match (br_path br) (cookie_path br (sc_path (write_scope (merged o (first_accepted br (levels (br_host br))))))) = true ->
  exists self l w', Cookie_new br arg w = (Ok self, w') /\ options_at w' self l (negotiated br o) /\
    w_jar w' = w_jar w /\ (forall l', arg = Some l' -> l = l').
Proof. apply Cookie_new_run. Qed.

(** C6: the module's [new Cookie()] settles on a one-year [maxage], the
    path ["/"], [sameSite] ["Lax"] and the domain ["." + d] for the first
    level [d] of the host the browser accepts a cookie on, null when there
    is none; it leaves the jar as it was. *)
Theorem singleton_options br w :
  heap_wf w -> br_accessible br = true -> page_path_wf br = true ->
  no_cookie "__tld__" (w_jar w) = true -> no_cookie "ajs:test" (w_jar w) = true ->
  exists self w' o, cookie_singleton br w = (Ok self, w') /\ configured w' self o /\ w_jar w' = w_jar w /\
    prop_of o "domain" = candidate_domain (first_accepted br (levels (br_host br))) /\
    prop_of o "maxage" = PNum 31536000000 /\ prop_of o "path" = PStr "/" /\ prop_of o "sameSite" = PStr "Lax".
Proof.
  intros Hwf Ha Hp Ht Hj.
  destruct (Cookie_new_run br None w ∅ Hwf eq_refl Ha Hp Ht Hj (singleton_path br _ Hp))
    as (self & l & w' & E & Hat & Hjar & _).
  exists self, w', (negotiated br ∅). split; [exact E|]. split; [eapply options_at_configured, Hat|].
  split; [exact Hjar|]. rewrite negotiated_singleton by assumption. apply singleton_props.
Qed.

Lemma singleton_options_witness :
  exists self w' o, cookie_singleton example_site (page_load []) = (Ok self, w') /\ configured w' self o /\
    w_jar w' = w_jar (page_load []) /\
    prop_of o "domain" = candidate_domain (first_accepted example_site (levels (br_host example_site))) /\
    prop_of o "maxage" = PNum 31536000000 /\ prop_of o "path" = PStr "/" /\ prop_of o "sameSite" = PStr "Lax".
Proof.
  apply singleton_options; try reflexivity. apply heap_wfb_sound. reflexivity.
Defined.

Lemma configure_refines_witness :
  exists self l w', Cookie_new example_site (Some 1%positive) secure_caller = (Ok self, w') /\
    options_at w' self l (negotiated example_site {[ "secure" := PBool true ]}) /\
    w_jar w' = w_jar secure_caller /\ (forall l', Some 1%positive = Some l' -> l = l').
Proof.
  apply configure_refines; try reflexivity. apply heap_wfb_sound. reflexivity.
Defined.

(** C16: on a host with no level to probe ([localhost], an IPv4 address),
    [new Cookie()] configures the domain null, whatever the browser
    allows. *)
Theorem no_level_host_null br w :
  heap_wf w -> levels (br_host br) = [] ->
  exists self w' o, cookie_singleton br w = (Ok self, w') /\ configured w' self o /\ prop_of o "domain" = PNull.
Proof.
  intros Hwf Hl. destruct (Cookie_new_start br None w ∅ Hwf eq_refl) as (l & wb & Eopt & Hwfb & Hself & Hlo & Hne & _).
  assert (Etd : top_domain br wb = (Ok EmptyString, wb)) by (unfold top_domain; rewrite Hl; reflexivity).
  pose proof (options_run br (w_next w) l wb ∅ ∅ EmptyString wb Etd Hwfb Hself Hlo Hne) as Erun. cbv zeta in Erun.
  eexists (w_next w), _, _. split; [apply (Cookie_new_bind _ _ _ PUndefined); rewrite Eopt; exact Erun|].
  split.
  - apply (options_at_configured _ _ l), (removal_world_at _ _ (merged ∅ EmptyString)); [|exact Hne].
    apply probe_world_at; eauto.
  - unfold kept. destruct (js_truthy _); [reflexivity | apply prop_of_insert_eq].
Qed.

Lemma no_level_host_null_witness :
  exists self w' o, cookie_singleton (mk_browser "192.168.0.1" "/" false true false example_suffixes) (page_load []) =
    (Ok self, w') /\ configured w' self o /\ prop_of o "domain" = PNull.
Proof. apply no_level_host_null; [apply heap_wfb_sound | ]; reflexivity. Defined.

(** C15: when the browser does not honour a write with the merged options
    (cookies disabled, a refused domain, [secure] on an http page, a
    [maxage] of zero or less), [configure] falls back to the domain null
    and the probe leaves no cookie behind. *)
Theorem configure_fallback br arg w o :
  heap_wf w -> caller_object w arg = Some o ->
  br_accessible br = true -> page_path_wf br = true ->
  no_cookie "__tld__" (w_jar w) = true -> no_cookie "ajs:test" (w_jar w) = true ->
  path_match (br_path br) (cookie_path br (sc_path (write_scope (merged o (first_accepted br (levels (br_host br))))))) = true ->
  honours br (merged o (first_accepted br (levels (br_host br)))) = false ->
  exists self w' o', Cookie_new br arg w = (Ok self, w') /\ configured w' self o' /\
    prop_of o' "domain" = PNull /\ w_jar w' = w_jar w.
Proof.
  intros Hwf Ho Ha Hp Ht Hj Hpm Hh.
  destruct (Cookie_new_run br arg w o Hwf Ho Ha Hp Ht Hj Hpm) as (self & l & w' & E & Hat & Hjar & _).
  exists self, w', (negotiated br o). split; [exact E|]. split; [eapply options_at_configured, Hat|].
  split; [|exact Hjar]. unfold negotiated. rewrite Hh. apply prop_of_insert_eq.
Qed.

Lemma configure_fallback_witness :
  exists self w' o', Cookie_new (example_page "app.example.com" "/" false) (Some 1%positive) secure_caller =
    (Ok self, w') /\ configured w' self o' /\ prop_of o' "domain" = PNull /\ w_jar w' = w_jar secure_caller.
Proof.
  apply configure_fallback with (o := {[ "secure" := PBool true ]}); try reflexivity.
  apply heap_wfb_sound. reflexivity.
Defined.

Lemma set_text_get br self key v t w o :
  heap_wf w -> configured w self o -> honours br o = true ->
  shadow_free br (w_jar w) key o = true ->
  JSON.stringify v = JSON.Text t -> t <> "null" ->
  fst (set br self key v w) = Ok true /\
  fst (get br key (snd (set br self key v w))) = Ok (default JSON.Null (JSON.normalize v)).
Proof.
  intros Hwf Hc Hh Hs Ht Hn.
  destruct (honours_spec br o Hh) as (He & Ha & Hx & Hsec & Hp & d & ho & Hd).
  rewrite (set_run br self key v w o) by (auto; congruence).
  rewrite Ha, get_run. simpl. split; [reflexivity|].
  unfold stored_value. rewrite Ht. destruct (String.eqb_spec t "null"); [congruence|].
  unfold raw_cookie, after_write. rewrite Ha. simpl. rewrite request_of_str.
  unfold shadow_free in Hs. rewrite Hd in Hs.
  pose proof (store_lookup br (mk_set_cookie key t (sc_domain (write_scope o))
    (sc_path (write_scope o)) (sc_expires (write_scope o)) (sc_secure (write_scope o)))
    (w_jar w) d ho He Hd Hsec Hs Hx Hp) as L.
  cbn [sc_name sc_value] in L. rewrite L.
  unfold decode. simpl.
  destruct (JSON.serialize_head v t Ht) as (c & r & -> & _). simpl.
  rewrite (JSON.stringify_parse v _ Ht). reflexivity.
Qed.

(** C20: a value written with [set] is what [get] reads back, as
    [JSON.parse(JSON.stringify(v))] gives it, when the store's options are
    honoured by the browser and no other cookie of the key shadows them. *)
Theorem set_get_roundtrip br self key v t w o :
  heap_wf w -> configured w self o -> honours br o = true ->
  shadow_free br (w_jar w) key o = true ->
  JSON.stringify v = JSON.Text t -> t <> "null" ->
  fst (set br self key v w) = Ok true /\
  fst (get br key (snd (set br self key v w))) = Ok (default JSON.Null (JSON.normalize v)).
Proof. apply set_text_get. Qed.

Lemma set_get_roundtrip_witness :
  fst (set example_site 1 "ajs_group_id" (JSON.Object [("id", JSON.Str "g1")]) example_store) = Ok true /\
  fst (get example_site "ajs_group_id" (snd (set example_site 1 "ajs_group_id" (JSON.Object [("id", JSON.Str "g1")]) example_store))) =
  Ok (default JSON.Null (JSON.normalize (JSON.Object [("id", JSON.Str "g1")]))).
Proof.
  apply (set_get_roundtrip example_site 1 "ajs_group_id" (JSON.Object [("id", JSON.Str "g1")])
    (match JSON.stringify (JSON.Object [("id", JSON.Str "g1")]) with JSON.Text t => t | _ => EmptyString end)
    example_store (merged ∅ "example.com")); try reflexivity.
  - apply heap_wfb_sound. reflexivity.
  - discriminate.
Defined.

Lemma delete_lookup br key v o jar :
  v = PNull \/ v = PUndefined -> honours br o = true -> shadow_free br jar key o = true ->
  cookie_lookup key (document_cookie br (store br (request_of key v o) jar)) = None.
Proof.
  intros Hv Hh Hs.
  destruct (honours_spec br o Hh) as (He & Ha & Hx & Hsec & Hp & d & ho & Hd).
  unfold shadow_free in Hs. rewrite Hd in Hs.
  rewrite request_of_delete by exact Hv.
  exact (store_delete_lookup br (mk_set_cookie key (to_string v) (sc_domain (write_scope o))
    (sc_path (write_scope o)) (Some (-1)%Z) (sc_secure (write_scope o))) jar d ho He Hd Hsec Hs eq_refl).
Qed.

Lemma set_null_get br self key v w o :
  heap_wf w -> configured w self o -> honours br o = true ->
  shadow_free br (w_jar w) key o = true ->
  JSON.stringify v = JSON.Text "null" \/ JSON.stringify v = JSON.Absent ->
  fst (set br self key v w) = Ok true /\
  cookie_lookup key (document_cookie br (w_jar (snd (set br self key v w)))) = None /\
  fst (get br key (snd (set br self key v w))) = Ok JSON.Null.
Proof.
  intros Hwf Hc Hh Hs Hv.
  destruct (honours_spec br o Hh) as (He & Ha & _).
  rewrite (set_run br self key v w o) by (auto; destruct Hv as [-> | ->]; discriminate).
  assert (Hd : cookie_lookup key (document_cookie br (w_jar (after_write br key
            (stored_value (JSON.stringify v)) o w))) = None).
  { unfold after_write. rewrite Ha. simpl. apply delete_lookup; auto.
    destruct Hv as [-> | ->]; simpl; auto. }
  rewrite Ha, get_run. cbn [fst snd]. split; [reflexivity|]. split; [exact Hd|].
  unfold raw_cookie. rewrite Ha, Hd. reflexivity.
Qed.

(** C17: [set] of a value whose JSON text is ["null"], or of a value
    [JSON.stringify] leaves undefined, deletes the cookie: a read finds
    nothing and [get] returns null. *)
Theorem set_deletes br self key v w o :
  heap_wf w -> configured w self o -> honours br o = true ->
  shadow_free br (w_jar w) key o = true ->
  JSON.stringify v = JSON.Text "null" \/ JSON.stringify v = JSON.Absent ->
  fst (set br self key v w) = Ok true /\
  cookie_lookup key (document_cookie br (w_jar (snd (set br self key v w)))) = None /\
  fst (get br key (snd (set br self key v w))) = Ok JSON.Null.
Proof. apply set_null_get. Qed.

Lemma set_deletes_witness :
  fst (set example_site 1 "ajs_user_id" JSON.Null example_store) = Ok true /\
  cookie_lookup "ajs_user_id" (document_cookie example_site (w_jar (snd (set example_site 1 "ajs_user_id" JSON.Null example_store)))) = None /\
  fst (get example_site "ajs_user_id" (snd (set example_site 1 "ajs_user_id" JSON.Null example_store))) = Ok JSON.Null.
Proof.
  apply (set_deletes example_site 1 "ajs_user_id" JSON.Null example_store (merged ∅ "example.com"));
    try reflexivity; [apply heap_wfb_sound; reflexivity | left; reflexivity].
Defined.

(** C4: every JSON-safe value (null included) written with [set] is read
    back by [get] exactly, when the store's options are honoured by the
    browser and no other cookie of the key shadows them. *)
Theorem set_get_json_safe br self key v w o :
  heap_wf w -> configured w self o -> honours br o = true ->
  shadow_free br (w_jar w) key o = true -> JSON.json_safe v = true ->
  fst (set br self key v w) = Ok true /\ fst (get br key (snd (set br self key v w))) = Ok v.
Proof.
  intros Hwf Hc Hh Hs Hv. destruct (JSON.json_roundtrip_safe v Hv) as (t & Ht & Hp).
  destruct (String.eqb_spec t "null") as [->|Hn].
  - assert (v = JSON.Null) as -> by (vm_compute in Hp; congruence).
    destruct (set_null_get br self key JSON.Null w o Hwf Hc Hh Hs (or_introl Ht)) as (E1 & _ & E2). auto.
  - destruct (set_text_get br self key v t w o Hwf Hc Hh Hs Ht Hn) as [E1 E2].
    rewrite <- (JSON.stringify_parse v t Ht), Hp in E2. auto.
Qed.

Lemma set_get_json_safe_witness :
  fst (set example_site 1 "ajs_group_id" (JSON.Array [JSON.Str "g1"; JSON.Number (JSON.Finite 3)]) example_store) = Ok true /\
  fst (get example_site "ajs_group_id"
    (snd (set example_site 1 "ajs_group_id" (JSON.Array [JSON.Str "g1"; JSON.Number (JSON.Finite 3)]) example_store))) =
  Ok (JSON.Array [JSON.Str "g1"; JSON.Number (JSON.Finite 3)]).
Proof.
  apply (set_get_json_safe _ _ _ _ _ (merged ∅ "example.com")); try reflexivity.
  apply heap_wfb_sound. reflexivity.
Defined.

(** C18: after [remove], the key reads as absent and [get] returns null. *)
Theorem remove_deletes br self key w o :
  heap_wf w -> configured w self o -> honours br o = true ->
  shadow_free br (w_jar w) key o = true ->
  fst (remove br self key w) = Ok true /\
  cookie_lookup key (document_cookie br (w_jar (snd (remove br self key w)))) = None /\
  fst (get br key (snd (remove br self key w))) = Ok JSON.Null.
Proof.
  intros Hwf Hc Hh Hs.
  destruct (honours_spec br o Hh) as (He & Ha & _).
  rewrite (remove_run br self key w o) by auto.
  assert (Hd : cookie_lookup key (document_cookie br (w_jar (after_write br key PNull o w))) = None).
  { unfold after_write. rewrite Ha. simpl. apply delete_lookup; auto. }
  rewrite Ha, get_run. cbn [fst snd]. split; [reflexivity|]. split; [exact Hd|].
  unfold raw_cookie. rewrite Ha, Hd. reflexivity.
Qed.

Lemma remove_deletes_witness :
  fst (remove example_site 1 "ajs_user_id" example_store) = Ok true /\
  cookie_lookup "ajs_user_id" (document_cookie example_site (w_jar (snd (remove example_site 1 "ajs_user_id" example_store)))) = None /\
  fst (get example_site "ajs_user_id" (snd (remove example_site 1 "ajs_user_id" example_store))) = Ok JSON.Null.
Proof.
  apply (remove_deletes example_site 1 "ajs_user_id" example_store (merged ∅ "example.com"));
    try reflexivity. apply heap_wfb_sound. reflexivity.
Defined.

(** C19: [set], [get] and [remove] never throw; [get] does not change the
    world. *)
Theorem storage_never_throws br self key v w :
  (exists b, fst (set br self key v w) = Ok b) /\
  (exists b, fst (remove br self key w) = Ok b) /\
  (exists r, get br key w = (Ok r, w)).
Proof.
  split; [|split].
  - unfold set, try_catch. repeat case_match; simpl; eauto.
  - unfold remove, try_catch. repeat case_match; simpl; eauto.
  - rewrite get_run. eauto.
Qed.

(** C24: a value [JSON.stringify] throws on (a BigInt) makes [set] return
    false and leave the world as it was. *)
Theorem set_unserializable br self key v w :
  JSON.stringify v = JSON.Thrown -> set br self key v w = (Ok false, w).
Proof. apply set_thrown. Qed.

(** C21: in a document whose cookie access throws, [set] and [remove]
    return false and the jar is unchanged. *)
Theorem storage_blocked br self key v w o :
  br_accessible br = false -> heap_wf w -> configured w self o ->
  fst (set br self key v w) = Ok false /\ w_jar (snd (set br self key v w)) = w_jar w /\
  fst (remove br self key w) = Ok false /\ w_jar (snd (remove br self key w)) = w_jar w.
Proof.
  intros Ha Hwf Hc.
  rewrite (remove_run br self key w o) by auto.
  destruct (JSON.stringify v) eqn:Ht.
  - rewrite set_thrown by exact Ht. unfold after_write. rewrite Ha. auto.
  - rewrite (set_run br self key v w o) by (auto; congruence). unfold after_write. rewrite Ha. auto.
  - rewrite (set_run br self key v w o) by (auto; congruence). unfold after_write. rewrite Ha. auto.
Qed.

Lemma storage_blocked_witness :
  fst (set blocked_site 1 "ajs_user_id" (JSON.Str "u1") blocked_store) = Ok false /\
  w_jar (snd (set blocked_site 1 "ajs_user_id" (JSON.Str "u1") blocked_store)) = w_jar blocked_store /\
  fst (remove blocked_site 1 "ajs_user_id" blocked_store) = Ok false /\
  w_jar (snd (remove blocked_site 1 "ajs_user_id" blocked_store)) = w_jar blocked_store.
Proof.
  apply (storage_blocked blocked_site 1 "ajs_user_id" (JSON.Str "u1") blocked_store (<["domain" := PNull]> (merged ∅ "")));
    try reflexivity. apply heap_wfb_sound. reflexivity.
Defined.

Lemma set_unserializable_witness :
  set example_site 1 "ajs_user_id" (JSON.BigInt 5) example_store = (Ok false, example_store).
Proof. apply set_unserializable. reflexivity. Defined.

(** C25: a cookie whose text is not JSON reads as null. *)
Theorem get_malformed br key w t :
  br_accessible br = true ->
  cookie_lookup key (document_cookie br (w_jar w)) = Some t -> JSON.parse t = None ->
  get br key w = (Ok JSON.Null, w).
Proof.
  intros Ha Hl Hp. rewrite get_run. unfold decode, raw_cookie. rewrite Ha, Hl.
  simpl. rewrite Hp. destruct (negb _); reflexivity.
Qed.

Lemma get_malformed_witness :
  get example_site "ajs_user_traits" (page_load [mk_cookie "ajs_user_traits" "{oops" "example.com" false "/" false true]) =
  (Ok JSON.Null, page_load [mk_cookie "ajs_user_traits" "{oops" "example.com" false "/" false true]).
Proof. apply (get_malformed _ _ _ "{oops"); reflexivity. Defined.

(** ** What the code does beyond the spec *)

(** C26: in a document whose cookie access throws, the module's
    [new Cookie()] throws a [SecurityError] on any host with a level to
    probe: [topDomain] is called outside a [try]. *)
Theorem singleton_blocked br w :
  br_accessible br = false -> levels (br_host br) <> [] ->
  fst (cookie_singleton br w) = Throw SecurityError.
Proof.
  intros Ha Hl. unfold cookie_singleton, Cookie_new.
  rewrite (bind_ok (alloc ∅) _ w (w_next w) (snd (alloc ∅ w))) by reflexivity.
  destruct (levels (br_host br)) as [|d r] eqn:E; [congruence|].
  destruct (probe_blocked br d r (snd (alloc ∅ (snd (alloc ∅ w)))) Ha) as [w3 E3].
  erewrite bind_throw; [reflexivity|]. rewrite options_undefined. unfold options.
  rewrite (bind_ok (mret _) _ _ _ _) by reflexivity.
  erewrite bind_throw; [reflexivity|]. unfold top_domain. rewrite E. exact E3.
Qed.

Lemma singleton_blocked_witness :
  fst (cookie_singleton (mk_browser "app.example.com" "/" true true false example_suffixes) (page_load [])) =
  Throw SecurityError.
Proof. apply singleton_blocked; [reflexivity | vm_compute; discriminate]. Defined.

(** C27: with cookies disabled, [set] reports success although the browser
    dropped the write: [get] then reads null. *)
Theorem set_reports_dropped_write br self key v t w o :
  br_enabled br = false -> br_accessible br = true -> heap_wf w -> configured w self o ->
  JSON.stringify v = JSON.Text t ->
  fst (set br self key v w) = Ok true /\ fst (get br key (snd (set br self key v w))) = Ok JSON.Null.
Proof.
  intros He Ha Hwf Hc Ht. rewrite (set_run br self key v w o) by (auto; congruence).
  rewrite Ha, get_run. split; [reflexivity|].
  unfold raw_cookie, document_cookie. rewrite Ha, He. reflexivity.
Qed.

Lemma set_reports_dropped_write_witness :
  fst (set (mk_browser "app.example.com" "/" true false true example_suffixes) 1 "ajs_user_id" (JSON.Str "u1") example_store) = Ok true /\
  fst (get (mk_browser "app.example.com" "/" true false true example_suffixes) "ajs_user_id"
    (snd (set (mk_browser "app.example.com" "/" true false true example_suffixes) 1 "ajs_user_id" (JSON.Str "u1") example_store))) =
  Ok JSON.Null.
Proof.
  apply (set_reports_dropped_write _ _ _ _
    (match JSON.stringify (JSON.Str "u1") with JSON.Text t => t | _ => EmptyString end) _ (merged ∅ "example.com"));
    try reflexivity. apply heap_wfb_sound. reflexivity.
Defined.

(** C28: [configure] mutates the caller's options object: [this._options]
    is that object, and [defaults] wrote the missing keys into it. *)
Theorem configure_mutates_caller br l w o :
  heap_wf w -> w_heap w !! l = Some o -> prop_of o "maxage" = PUndefined ->
  br_accessible br = true -> page_path_wf br = true ->
  no_cookie "__tld__" (w_jar w) = true -> no_cookie "ajs:test" (w_jar w) = true ->
  path_match (br_path br) (cookie_path br (sc_path (write_scope (merged o (first_accepted br (levels (br_host br))))))) = true ->
  exists self w', Cookie_new br (Some l) w = (Ok self, w') /\ prop w' self "_options" = PObj l /\
    prop w' l "maxage" = PNum 31536000000.
Proof.
  intros Hwf Hl Hm Ha Hp Ht Hj Hpm.
  destruct (Cookie_new_run br (Some l) w o Hwf Hl Ha Hp Ht Hj Hpm) as (self & l' & w' & E & (_ & Hs & Hl') & _ & Hal).
  rewrite (Hal l eq_refl) in Hs, Hl'. exists self, w'. split; [exact E|]. split; [exact Hs|].
  rewrite (prop_of_lookup w' l _ "maxage" Hl'). unfold negotiated.
  assert (Hmax : prop_of (merged o (first_accepted br (levels (br_host br)))) "maxage" = PNum 31536000000)
    by (rewrite (merged_prop _ _ _ (PNum 31536000000)) by (left; reflexivity); rewrite Hm; reflexivity).
  rewrite <- Hmax. apply negotiated_other. discriminate.
Qed.

Lemma configure_mutates_caller_witness :
  exists self w', Cookie_new example_site (Some 1%positive) secure_caller = (Ok self, w') /\
    prop w' self "_options" = PObj 1 /\ prop w' 1 "maxage" = PNum 31536000000.
Proof.
  apply (configure_mutates_caller _ _ _ {[ "secure" := PBool true ]}); try reflexivity.
  apply heap_wfb_sound. reflexivity.
Defined.

(** C9: [set(k, v)] of a value [JSON.stringify] turns into nothing
    ([undefined]) or into the text ["null"] ([null], [NaN], an infinite
    number) is exactly [remove(k)]: the same result and the same world,
    heap and jar. *)
Theorem set_null_is_remove br self key v w o :
  heap_wf w -> configured w self o ->
  JSON.stringify v = JSON.Absent \/ JSON.stringify v = JSON.Text "null" ->
  set br self key v w = remove br self key w.
Proof.
  intros Hwf Hc Hv. rewrite (remove_run br self key w o Hwf Hc).
  rewrite (set_run br self key v w o Hwf Hc) by (destruct Hv as [-> | ->]; discriminate).
  destruct Hv as [-> | ->]; [cbn [stored_value]; rewrite after_write_delete|]; reflexivity.
Qed.

Lemma set_null_is_remove_witness :
  set example_site 1 "ajs_user_id" JSON.Null example_store = remove example_site 1 "ajs_user_id" example_store.
Proof.
  apply (set_null_is_remove _ _ _ _ _ (merged ∅ "example.com")); [apply heap_wfb_sound; reflexivity | reflexivity |].
  right. reflexivity.
Defined.

(** C10: [configure] keeps the types of [interface CookieOptions]: for
    caller options whose fields, where given, have the declared types,
    [this._options] has them too, with [maxage], [path] and [domain]
    filled; [domain] is then a string or [null]. *)
Theorem configure_typed br arg w o :
  heap_wf w -> caller_object w arg = Some o ->
  br_accessible br = true -> page_path_wf br = true ->
  no_cookie "__tld__" (w_jar w) = true -> no_cookie "ajs:test" (w_jar w) = true ->
  path_match (br_path br) (cookie_path br (sc_path (write_scope (merged o (first_accepted br (levels (br_host br))))))) = true ->
  options_typed o = true ->
  exists self w' o', Cookie_new br arg w = (Ok self, w') /\ configured w' self o' /\ options_typed o' = true /\
    prop_of o' "maxage" <> PUndefined /\ prop_of o' "path" <> PUndefined /\ prop_of o' "domain" <> PUndefined.
Proof.
  intros Hwf Ho Ha Hp Ht Hj Hpm Hty.
  destruct (Cookie_new_run br arg w o Hwf Ho Ha Hp Ht Hj Hpm) as (self & l & w' & E & Hat & _).
  exists self, w', (negotiated br o). split; [exact E|]. split; [eapply options_at_configured, Hat|].
  apply negotiated_typed, Hty.
Qed.

Lemma configure_typed_witness :
  exists self w' o', Cookie_new example_site (Some 1%positive) secure_caller = (Ok self, w') /\ configured w' self o' /\
    options_typed o' = true /\
    prop_of o' "maxage" <> PUndefined /\ prop_of o' "path" <> PUndefined /\ prop_of o' "domain" <> PUndefined.
Proof.
  apply (configure_typed _ _ _ {[ "secure" := PBool true ]}); try reflexivity.
  apply heap_wfb_sound. reflexivity.
Defined.

(** C12: reconfiguring a store with [options(obj)] makes the caller's
    object its options, holding the negotiated options for it, which the
    getter [options()] then returns; the jar is as it was. *)
Theorem reconfigure_options br self s l o w :
  heap_wf w -> w_heap w !! self = Some s -> w_heap w !! l = Some o -> self <> l ->
  br_accessible br = true -> page_path_wf br = true ->
  no_cookie "__tld__" (w_jar w) = true -> no_cookie "ajs:test" (w_jar w) = true ->
  path_match (br_path br) (cookie_path br (sc_path (write_scope (merged o (first_accepted br (levels (br_host br))))))) = true ->
  exists w', (options br self (Some (Some l));; options br self None) w = (Ok (PObj l), w') /\
    configured w' self (negotiated br o) /\ w_jar w' = w_jar w.
Proof.
  intros Hwf Hs Hl Hne Ha Hp Ht Hj Hpm.
  destruct (options_negotiate br self l w s o Hwf Hs Hl Hne Ha Hp Ht Hj Hpm) as (w' & E & Hat & Hjar & _).
  exists w'. rewrite (bind_ok _ _ w PUndefined w' E). cbn [options]. rewrite get_prop_run.
  pose proof Hat as (_ & Hpr & _). rewrite Hpr. split; [reflexivity|]. split; [eapply options_at_configured, Hat | exact Hjar].
Qed.

(** The store of [example_site] reconfigured with [{secure: true}]. *)
Lemma reconfigure_options_witness :
  exists w', (options example_site 1 (Some (Some (w_next example_store)));; options example_site 1 None)
      (snd (alloc {[ "secure" := PBool true ]} example_store)) = (Ok (PObj (w_next example_store)), w') /\
    configured w' 1 (negotiated example_site {[ "secure" := PBool true ]}) /\
    w_jar w' = w_jar (snd (alloc {[ "secure" := PBool true ]} example_store)).
Proof.
  apply (reconfigure_options example_site 1 (default ∅ (w_heap example_store !! 1%positive)) (w_next example_store)
    {[ "secure" := PBool true ]} (snd (alloc {[ "secure" := PBool true ]} example_store))).
  - apply heap_wfb_sound. vm_compute. reflexivity.
  - vm_compute. reflexivity.
  - vm_compute. reflexivity.
  - vm_compute. discriminate.
  - vm_compute. reflexivity.
  - vm_compute. reflexivity.
  - vm_compute. reflexivity.
  - vm_compute. reflexivity.
  - vm_compute. reflexivity.
Defined.

(** C13: termination of [get]'s parse: the fuel [JSON.parse] is given
    (one more step than the text has characters) is always enough.
    Whenever some amount of fuel parses the cookie's text to a value
    followed only by whitespace, [get] returns that value: the fuel
    never makes [get] answer [null] in place of a value. *)
Theorem get_parse_terminates br key w t f v r :
  br_accessible br = true -> cookie_lookup key (document_cookie br (w_jar w)) = Some t -> t <> EmptyString ->
  JSON.parse_value f t = Some (v, r) -> JSON.skip_ws r = EmptyString ->
  get br key w = (Ok v, w).
Proof.
  intros Ha Hl Ht Hp Hr. rewrite get_run. unfold decode, raw_cookie. rewrite Ha, Hl.
  destruct t as [|c t']; [congruence|]. cbn [truthy to_string negb String.eqb]. unfold JSON.parse.
  rewrite (JSON.parse_fuel_adequate f _ v r Hp), Hr. reflexivity.
Qed.

Lemma get_parse_terminates_witness :
  get example_site "ajs_user_id" (page_load [mk_cookie "ajs_user_id" "[1,[2,[3]]]" "example.com" false "/" false true]) =
  (Ok (JSON.Array [JSON.Number (JSON.Finite 1); JSON.Array [JSON.Number (JSON.Finite 2); JSON.Array [JSON.Number (JSON.Finite 3)]]]),
   page_load [mk_cookie "ajs_user_id" "[1,[2,[3]]]" "example.com" false "/" false true]).
Proof.
  apply (get_parse_terminates _ _ _ "[1,[2,[3]]]" 20 _ EmptyString); [reflexivity | reflexivity | discriminate | vm_compute; reflexivity | reflexivity].
Defined.

(** ** What the probe of [configure] leaves in the jar *)

(** A write whose path does not cover the page is not read back. *)
Lemma store_invisible br sc jar :
  no_cookie (sc_name sc) jar = true -> path_match (br_path br) (cookie_path br (sc_path sc)) = false ->
  cookie_lookup (sc_name sc) (document_cookie br (store br sc jar)) = None.
Proof.
  intros Hn Hp. rewrite store_new by exact Hn.
  destruct (cookie_domain br (sc_domain sc)) as [[d ho]|]; [|apply no_cookie_lookup, Hn].
  destruct (accepted br sc); [|apply no_cookie_lookup, Hn].
  assert (Hv : visible br (stored_cookie br sc d ho) = false) by (unfold visible; simpl; rewrite Hp, andb_false_r; reflexivity).
  assert (E : document_cookie br (jar ++ [stored_cookie br sc d ho]) = document_cookie br jar)
    by (unfold document_cookie; rewrite List.filter_app; simpl; rewrite Hv, app_nil_r; reflexivity).
  rewrite E. apply no_cookie_lookup, Hn.
Qed.

(** A host-only deletion keeps the cookies of another domain. *)
Lemma store_delete_keeps br sc jar c :
  sc_domain sc = None -> expired sc = true -> In c jar -> ck_domain c <> br_host br -> In c (store br sc jar).
Proof.
  intros Hd Hx Hin Hne. unfold store. destruct (negb (br_enabled br)); [exact Hin|]. rewrite Hd. cbn [cookie_domain].
  destruct (sc_secure sc && negb (br_https br)); [exact Hin|]. cbv zeta. rewrite Hx. apply filter_In. split; [exact Hin|].
  unfold same_cookie. replace (String.eqb (ck_domain c) (br_host br)) with false by (symmetry; apply String.eqb_neq, Hne).
  rewrite andb_false_r. reflexivity.
Qed.

Lemma no_cookie_false name jar c : In c jar -> ck_name c = name -> no_cookie name jar = false.
Proof.
  intros Hin Hn. apply Bool.not_true_iff_false. intros H. unfold no_cookie in H. rewrite forallb_forall in H.
  specialize (H c Hin). rewrite Hn, String.eqb_refl in H. discriminate.
Qed.

Lemma write_scope_null_domain o : sc_domain (write_scope (<["domain" := PNull]> o)) = None.
Proof.
  unfold write_scope, request_of. cbn [sc_domain].
  rewrite segment_prepare_other by discriminate. rewrite prop_of_insert_eq. reflexivity.
Qed.

(** C29: the probe can stay behind: for caller options without a domain
    of their own whose path does not cover the page, the browser stores
    the probe cookie [ajs:test] under the candidate domain but the page
    cannot read it back, so [configure] falls back to the domain null and
    removes the probe in that host-only scope, which misses the stored
    probe whenever the candidate domain is not the host itself. *)
Theorem probe_residue br arg w o d ho :
  heap_wf w -> caller_object w arg = Some o ->
  br_accessible br = true -> page_path_wf br = true ->
  no_cookie "__tld__" (w_jar w) = true -> no_cookie "ajs:test" (w_jar w) = true ->
  accepted br (write_scope (merged o (first_accepted br (levels (br_host br))))) = true ->
  path_match (br_path br) (cookie_path br (sc_path (write_scope (merged o (first_accepted br (levels (br_host br))))))) = false ->
  cookie_domain br (sc_domain (write_scope (merged o (first_accepted br (levels (br_host br)))))) = Some (d, ho) ->
  d <> br_host br ->
  exists self w', Cookie_new br arg w = (Ok self, w') /\
    configured w' self (<["domain" := PNull]> (merged o (first_accepted br (levels (br_host br))))) /\
    no_cookie "ajs:test" (w_jar w') = false.
Proof.
  intros Hwf Ho Ha Hp Ht Hj Hacc Hpm Hd Hne.
  set (td := first_accepted br (levels (br_host br))) in *.
  destruct (Cookie_new_start br arg w o Hwf Ho) as (l & wb & Eopt & Hwfb & Hself & Hl & Hnel & Hjb & _).
  destruct (probe_levels_spec br (levels (br_host br)) wb Ha Hp Hwfb (eq_trans (f_equal _ Hjb) Ht))
    as (w1 & Etd & Hx & Hwf1 & Hj1).
  pose proof (options_run br (w_next w) l wb ∅ o td w1 Etd Hwf1 (extends_lookup _ _ _ _ Hwfb Hx Hself)
    (extends_lookup _ _ _ _ Hwfb Hx Hl) Hnel) as Erun. cbv zeta in Erun.
  assert (Hj4 : no_cookie "ajs:test" (w_jar w1) = true) by (rewrite Hj1, Hjb; exact Hj).
  assert (Esc : request_of "ajs:test" (PStr "true") (merged o td) =
    mk_set_cookie "ajs:test" "true" (sc_domain (write_scope (merged o td))) (sc_path (write_scope (merged o td)))
      (sc_expires (write_scope (merged o td))) (sc_secure (write_scope (merged o td)))) by apply request_of_str.
  assert (Hread : cookie_lookup "ajs:test" (document_cookie br (store br (request_of "ajs:test" (PStr "true") (merged o td)) (w_jar w1))) = None)
    by (rewrite Esc; exact (store_invisible br (mk_set_cookie "ajs:test" "true" (sc_domain (write_scope (merged o td)))
          (sc_path (write_scope (merged o td))) (sc_expires (write_scope (merged o td)))
          (sc_secure (write_scope (merged o td)))) (w_jar w1) Hj4 Hpm)).
  assert (Hk : kept br (merged o td) (probe_world br (w_next w) l ∅ (merged o td) w1) = <["domain" := PNull]> (merged o td)).
  { unfold kept, probe_world, after_write. simpl w_jar. unfold raw_cookie. rewrite Ha, Hread. reflexivity. }
  rewrite Hk in Erun.
  set (c := stored_cookie br (request_of "ajs:test" (PStr "true") (merged o td)) d ho).
  assert (Hin4 : In c (store br (request_of "ajs:test" (PStr "true") (merged o td)) (w_jar w1))).
  { unfold c. rewrite Esc, store_new by exact Hj4. cbn [sc_domain]. rewrite Hd, accepted_rename, Hacc.
    apply in_or_app. right. left. reflexivity. }
  eexists (w_next w), _. split; [apply (Cookie_new_bind _ _ _ PUndefined); rewrite Eopt; exact Erun|].
  split.
  - eapply options_at_configured, (removal_world_at _ _ (merged o td)); [|exact Hnel].
    apply probe_world_at; eauto using extends_lookup.
  - unfold removal_world, after_write, probe_world. simpl w_jar. rewrite !Ha.
    apply (no_cookie_false _ _ c); [|reflexivity].
    apply store_delete_keeps; [| |exact Hin4|exact Hne].
    + rewrite request_of_delete by auto. apply write_scope_null_domain.
    + rewrite request_of_delete by auto. reflexivity.
Qed.

Lemma probe_residue_witness :
  exists self w', Cookie_new (example_page "app.example.com" "/a" true) (Some 1%positive)
      (mk_world {[1%positive := {[ "path" := PStr "/other" ]}]} 2%positive []) = (Ok self, w') /\
    configured w' self (<["domain" := PNull]> (merged {[ "path" := PStr "/other" ]}
      (first_accepted (example_page "app.example.com" "/a" true) (levels (br_host (example_page "app.example.com" "/a" true)))))) /\
    no_cookie "ajs:test" (w_jar w') = false.
Proof.
  apply (probe_residue _ _ _ _ "example.com" false); try reflexivity.
  - apply heap_wfb_sound. reflexivity.
  - discriminate.
Defined.

(** A write of a string in the scope of honoured options reads back. *)
Lemma str_lookup br o jar k t :
  honours br o = true -> shadow_free br jar k o = true ->
  cookie_lookup k (document_cookie br (store br (request_of k (PStr t) o) jar)) = Some t.
Proof.
  intros Hh Hs. destruct (honours_spec br o Hh) as (He & Ha & Hx & Hsec & Hp & d & ho & Hd).
  unfold shadow_free in Hs. rewrite Hd in Hs. rewrite request_of_str.
  exact (store_lookup br (mk_set_cookie k t (sc_domain (write_scope o)) (sc_path (write_scope o))
    (sc_expires (write_scope o)) (sc_secure (write_scope o))) jar d ho He Hd Hsec Hs Hx Hp).
Qed.

(** A write that replaces its own scope, then a deletion of that scope,
    leave exactly the cookies outside the scope. *)
Lemma filter_replace_delete (same : cookie -> bool) c jar :
  same c = true ->
  List.filter (fun c' => negb (same c'))
    (if existsb same jar then map (fun c' => if same c' then c else c') jar else jar ++ [c]) =
  List.filter (fun c' => negb (same c')) jar.
Proof.
  intros Hc. destruct (existsb same jar).
  - induction jar as [|x jar IH]; [reflexivity|]. cbn [map].
    destruct (same x) eqn:Hx; cbn [List.filter]; rewrite ?Hc, ?Hx; cbn [negb]; [exact IH | f_equal; exact IH].
  - rewrite List.filter_app. cbn [List.filter]. rewrite Hc. apply app_nil_r.
Qed.

(** C32: the probe key is not reserved: when the browser honours the
    merged options and every cookie named [ajs:test] lies in the scope
    the store writes with (as one stored by a store with the same
    options does), [new Cookie(arg)] leaves the jar with exactly its
    cookies of other names: the probe write replaces the stored value and
    the probe removal deletes it. *)
Theorem probe_clobbers_user_key br arg w o d ho :
  heap_wf w -> caller_object w arg = Some o ->
  br_accessible br = true -> page_path_wf br = true -> no_cookie "__tld__" (w_jar w) = true ->
  honours br (merged o (first_accepted br (levels (br_host br)))) = true ->
  cookie_domain br (sc_domain (write_scope (merged o (first_accepted br (levels (br_host br)))))) = Some (d, ho) ->
  (forall c, In c (w_jar w) -> ck_name c = "ajs:test" ->
     same_cookie "ajs:test" d (cookie_path br (sc_path (write_scope (merged o (first_accepted br (levels (br_host br))))))) c = true) ->
  exists self w', Cookie_new br arg w = (Ok self, w') /\
    configured w' self (merged o (first_accepted br (levels (br_host br)))) /\
    w_jar w' = List.filter (fun c => negb (String.eqb (ck_name c) "ajs:test")) (w_jar w).
Proof.
  intros Hwf Ho Ha Hp Ht Hh Hd Hall.
  set (td := first_accepted br (levels (br_host br))) in *.
  set (o1 := merged o td) in *.
  destruct (honours_spec br o1 Hh) as (He & _ & Hx & Hsec & _ & d' & ho' & Hd').
  destruct (Cookie_new_start br arg w o Hwf Ho) as (l & wb & Eopt & Hwfb & Hself & Hl & Hnel & Hjb & _).
  destruct (probe_levels_spec br (levels (br_host br)) wb Ha Hp Hwfb (eq_trans (f_equal _ Hjb) Ht))
    as (w1 & Etd & Hxt & Hwf1 & Hj1).
  pose proof (options_run br (w_next w) l wb ∅ o td w1 Etd Hwf1 (extends_lookup _ _ _ _ Hwfb Hxt Hself)
    (extends_lookup _ _ _ _ Hwfb Hxt Hl) Hnel) as Erun. cbv zeta in Erun. fold o1 in Erun.
  assert (Hjar1 : w_jar w1 = w_jar w) by congruence.
  set (same := same_cookie "ajs:test" d (cookie_path br (sc_path (write_scope o1)))) in *.
  assert (Hshadow : no_shadow br (w_jar w1) "ajs:test" d (cookie_path br (sc_path (write_scope o1))) = true).
  { unfold no_shadow. apply forallb_forall. rewrite Hjar1. intros c Hin.
    destruct (String.eqb_spec (ck_name c) "ajs:test") as [E|E]; [|reflexivity].
    specialize (Hall c Hin E). unfold same, same_cookie in Hall. apply andb_prop in Hall as [Hall Hp'].
    apply andb_prop in Hall as [_ Hd'']. rewrite Hd'', Hp'. apply orb_true_r. }
  assert (Hread : cookie_lookup "ajs:test" (document_cookie br (store br (request_of "ajs:test" (PStr "true") o1) (w_jar w1))) = Some "true").
  { apply str_lookup; [exact Hh|]. unfold shadow_free. rewrite Hd. exact Hshadow. }
  assert (Hk : kept br o1 (probe_world br (w_next w) l ∅ o1 w1) = o1).
  { unfold kept, probe_world, after_write. simpl w_jar. unfold raw_cookie. rewrite Ha, Hread. reflexivity. }
  rewrite Hk in Erun.
  eexists (w_next w), _. split; [apply (Cookie_new_bind _ _ _ PUndefined); rewrite Eopt; exact Erun|].
  split.
  - eapply options_at_configured, (removal_world_at _ _ o1); [|exact Hnel].
    apply probe_world_at; eauto using extends_lookup.
  - unfold removal_world, after_write, probe_world. simpl w_jar. rewrite !Ha, request_of_str, request_of_delete by auto.
    rewrite (store_accepted br (mk_set_cookie "ajs:test" (to_string PNull) _ _ _ _) _ d ho He Hd Hsec).
    rewrite (store_accepted br (mk_set_cookie "ajs:test" "true" _ _ _ _) _ d ho He Hd Hsec). cbv zeta.
    replace (expired (mk_set_cookie "ajs:test" (to_string PNull) (sc_domain (write_scope o1)) (sc_path (write_scope o1))
      (Some (-1)%Z) (sc_secure (write_scope o1)))) with true by reflexivity.
    replace (expired (mk_set_cookie "ajs:test" "true" (sc_domain (write_scope o1)) (sc_path (write_scope o1))
      (sc_expires (write_scope o1)) (sc_secure (write_scope o1)))) with false by (symmetry; exact Hx).
    cbn [sc_name stored_cookie ck_path sc_path]. fold same.
    rewrite filter_replace_delete by (unfold same, same_cookie; cbn; rewrite !String.eqb_refl; reflexivity).
    rewrite Hjar1. apply List.filter_ext_in. intros c Hin.
    destruct (String.eqb_spec (ck_name c) "ajs:test") as [E|E]; [rewrite (Hall c Hin E); reflexivity|].
    unfold same, same_cookie. replace (String.eqb (ck_name c) "ajs:test") with false by (symmetry; apply String.eqb_neq, E).
    reflexivity.
Qed.

Lemma probe_clobbers_user_key_witness :
  exists self w', Cookie_new example_site None
      (page_load [mk_cookie "ajs:test" "{mine}" "example.com" false "/" false true]) = (Ok self, w') /\
    configured w' self (merged ∅ (first_accepted example_site (levels (br_host example_site)))) /\
    w_jar w' = List.filter (fun c => negb (String.eqb (ck_name c) "ajs:test"))
      (w_jar (page_load [mk_cookie "ajs:test" "{mine}" "example.com" false "/" false true])).
Proof.
  apply (probe_clobbers_user_key _ _ _ _ "example.com" false); try reflexivity.
  - apply heap_wfb_sound. reflexivity.
  - intros c [<-|[]] _. reflexivity.
Defined.

End Cookie.
