(* ===== verification/Store.v ===== *)
(** * The store's contract as a key-value map, and its refinement

    Spec 4.1 promises a JSON-safe, failure-tolerant map: [set(k, v)]
    stores [v] (a null encoding deletes [k]), [get(k)] returns what was
    stored or null, [remove(k)] deletes.  This file states that contract
    as operations on a [gmap] ([kv_set], [kv_get], [kv_remove]) and as a
    sequence of operations ([kv_run]), and proves that [Cookie]'s [set],
    [get] and [remove], run in any order through [run], implement it:
    [refines] relates a world to a map when

    - the heap is well formed and [this._options] holds the options [o];
    - the jar is [scoped]: consistent (one value per visible name) and no
      cookie outside the scope of [o] shadows a name;
    - for every key, what [get] decodes from the jar is the map's value.

    The relation is established by the module's [new Cookie()] on a page
    whose cookies are enabled and whose jar is empty, so the singleton
    behaves as the map from the empty map on.  On any browser, also one
    whose cookies are disabled or throw, a sequence of operations returns
    one result per operation and keeps the heap and [this._options]
    ([store_invariant]). *)

From Stdlib Require Import Ascii String ZArith Lia.
From stdpp Require Import base list option strings gmap.
From S2P Require Import Prelude Json Runtime Browser Jar TopDomain Cookie.
Import Runtime Browser Jar TopDomain Cookie.

Module Store.

Abbreviation kv := (gmap string JSON.value).

Definition kv_get (k : string) (m : kv) : JSON.value := default JSON.Null (m !! k).

(** A null value is an absence. *)
Definition kv_put (k : string) (x : JSON.value) (m : kv) : kv :=
  match x with
  | JSON.Null => delete k m
  | _ => <[k := x]> m
  end.

Definition kv_set (k : string) (v : JSON.value) (m : kv) : bool * kv :=
  match JSON.stringify v with
  | JSON.Thrown => (false, m)
  | _ => (true, kv_put k (default JSON.Null (JSON.normalize v)) m)
  end.

Definition kv_remove (k : string) (m : kv) : bool * kv := (true, delete k m).

Inductive op :=
| OSet (k : string) (v : JSON.value)
| OGet (k : string)
| ORemove (k : string).

Inductive result :=
| RBool (b : bool)
| RValue (v : JSON.value).

(** The specification, on a sequence of operations. *)
Fixpoint kv_run (ops : list op) (m : kv) : list result * kv :=
  match ops with
  | [] => ([], m)
  | OSet k v :: r => let '(b, m1) := kv_set k v m in let '(rs, m2) := kv_run r m1 in (RBool b :: rs, m2)
  | OGet k :: r => let '(rs, m2) := kv_run r m in (RValue (kv_get k m) :: rs, m2)
  | ORemove k :: r => let '(b, m1) := kv_remove k m in let '(rs, m2) := kv_run r m1 in (RBool b :: rs, m2)
  end.

(** The same sequence on the cookie store [self]. *)
Fixpoint run (br : browser) (self : loc) (ops : list op) : M (list result) :=
  match ops with
  | [] => mret []
  | OSet k v :: r => b ← set br self k v; rs ← run br self r; mret (RBool b :: rs)
  | OGet k :: r => x ← get br k; rs ← run br self r; mret (RValue x :: rs)
  | ORemove k :: r => b ← remove br self k; rs ← run br self r; mret (RBool b :: rs)
  end.

(** The jar's invariant for the options [o]. *)
Definition scoped (br : browser) (o : gmap string prim) (jar : list cookie) : bool :=
  consistent br jar && forallb (fun c => shadow_free br jar (ck_name c) o) jar.

(** [jar] stands for [m]: [get] decodes the map's value for every key. *)
Definition represents (br : browser) (jar : list cookie) (m : kv) : Prop :=
  forall k, decode (raw_cookie br k jar) = kv_get k m.

Definition refines (br : browser) (self : loc) (o : gmap string prim) (w : world) (m : kv) : Prop :=
  heap_wf w /\ configured w self o /\ scoped br o (w_jar w) = true /\ represents br (w_jar w) m.

(** An example sequence: write, read, delete and read a user id. *)
Definition example_ops : list op :=
  [OSet "ajs_user_id" (JSON.Str "u1"); OGet "ajs_user_id"; ORemove "ajs_user_id"; OGet "ajs_user_id"].

(** ** The map *)

Lemma kv_get_put k x m : kv_get k (kv_put k x m) = x.
Proof. unfold kv_get, kv_put. destruct x; rewrite ?lookup_delete_eq, ?lookup_insert_eq; reflexivity. Qed.

Lemma kv_get_put_ne k k' x m : k' <> k -> kv_get k' (kv_put k x m) = kv_get k' m.
Proof.
  intros Hne. unfold kv_get, kv_put. destruct x; rewrite ?lookup_delete_ne, ?lookup_insert_ne by congruence; reflexivity.
Qed.

(** ** The jar's invariant *)

Lemma scoped_shadow_free br o jar k :
  honours br o = true -> scoped br o jar = true -> shadow_free br jar k o = true.
Proof.
  intros Hh Hs. destruct (honours_spec br o Hh) as (_ & _ & _ & _ & _ & d & ho & Hd).
  apply andb_prop in Hs as [_ Hall]. rewrite forallb_forall in Hall.
  destruct (existsb (named k) jar) eqn:Hex.
  - apply existsb_exists in Hex as (c & Hin & Hn). apply String.eqb_eq in Hn. subst k. exact (Hall c Hin).
  - unfold shadow_free. rewrite Hd. unfold no_shadow. apply forallb_forall. intros c Hin.
    assert (Hn : named k c = false) by (destruct (named k c) eqn:E; [|reflexivity];
      rewrite <- Hex; symmetry; apply existsb_exists; eauto).
    unfold named in Hn. rewrite Hn. reflexivity.
Qed.

(** A write in the scope of [o] keeps the jar scoped. *)
Lemma scoped_store br o jar sc :
  honours br o = true -> scoped br o jar = true ->
  sc_domain sc = sc_domain (write_scope o) -> sc_path sc = sc_path (write_scope o) ->
  sc_secure sc = sc_secure (write_scope o) ->
  scoped br o (store br sc jar) = true.
Proof.
  intros Hh Hs Edom Epath Esec.
  destruct (honours_spec br o Hh) as (He & _ & _ & Hsec & _ & d & ho & Hd).
  rewrite <- Edom in Hd. rewrite <- Esec in Hsec.
  assert (Hfree : forall k, no_shadow br jar k d (cookie_path br (sc_path sc)) = true).
  { intros k. pose proof (scoped_shadow_free br o jar k Hh Hs) as H. unfold shadow_free in H.
    rewrite <- Edom, Hd, <- Epath in H. exact H. }
  apply andb_true_intro. split.
  - apply (consistent_store br sc jar d ho); auto. apply andb_prop in Hs as [Hc _]. exact Hc.
  - apply forallb_forall. intros c _. unfold shadow_free. rewrite <- Edom, Hd, <- Epath.
    destruct (String.eqb_spec (ck_name c) (sc_name sc)) as [E|E].
    + rewrite E. apply (no_shadow_store br sc jar d ho); auto.
    + rewrite no_shadow_other by exact E. apply Hfree.
Qed.

(** The map a scoped jar stands for changes only at the written key. *)
Lemma represents_put br o jar jar' m k x :
  scoped br o jar = true -> scoped br o jar' = true ->
  (forall k', k' <> k -> List.filter (named k') jar' = List.filter (named k') jar) ->
  represents br jar m -> decode (raw_cookie br k jar') = x -> represents br jar' (kv_put k x m).
Proof.
  intros Hs Hs' Hf Hr Hx k'. destruct (decide (k' = k)) as [->|Hne].
  - rewrite Hx. symmetry. apply kv_get_put.
  - rewrite kv_get_put_ne by exact Hne. rewrite <- (Hr k'). unfold raw_cookie.
    rewrite (lookup_frame br jar' jar k'); [reflexivity| | |apply Hf, Hne].
    + apply andb_prop in Hs' as [H _]. exact H.
    + apply andb_prop in Hs as [H _]. exact H.
Qed.

(** ** One operation *)

Lemma request_scope k r o :
  (exists t, r = PStr t) \/ r = PNull \/ r = PUndefined ->
  sc_name (request_of k r o) = k /\ sc_domain (request_of k r o) = sc_domain (write_scope o) /\
  sc_path (request_of k r o) = sc_path (write_scope o) /\ sc_secure (request_of k r o) = sc_secure (write_scope o).
Proof.
  intros [[t ->]|Hv]; [rewrite request_of_str; auto|].
  rewrite request_of_delete by (destruct Hv; auto). auto.
Qed.

Lemma configured_write br k v o' w self o :
  heap_wf w -> configured w self o -> configured (after_write br k v o' w) self o.
Proof.
  intros Hwf Hc. destruct (configured_inv _ _ _ Hc) as (l & Hp & Hl).
  apply (options_at_configured _ _ l), options_at_after_write. split; auto.
Qed.

Lemma stored_value_shape r :
  (exists t, stored_value r = PStr t) \/ stored_value r = PNull \/ stored_value r = PUndefined.
Proof. destruct r as [| |t]; simpl; auto. destruct (String.eqb t "null"); eauto. Qed.

Lemma run_pair {A} (m : M A) w a : fst (m w) = Ok a -> m w = (Ok a, snd (m w)).
Proof. destruct (m w). simpl. intros ->. reflexivity. Qed.

Section Refinement.
Context (br : browser) (self : loc) (o : gmap string prim).
Hypothesis Hh : honours br o = true.

Lemma after_write_scoped w k r :
  scoped br o (w_jar w) = true -> (exists t, r = PStr t) \/ r = PNull \/ r = PUndefined ->
  scoped br o (w_jar (after_write br k r o w)) = true.
Proof.
  intros Hs Hv. destruct (honours_spec br o Hh) as (_ & Ha & _).
  destruct (request_scope k r o Hv) as (_ & Ed & Ep & Esec).
  unfold after_write. simpl w_jar. rewrite Ha. apply scoped_store; auto.
Qed.

(** A write of the raw value [r] through a clone of [o]. *)
Lemma write_refines w m k r x :
  refines br self o w m -> (exists t, r = PStr t) \/ r = PNull \/ r = PUndefined ->
  decode (raw_cookie br k (store br (request_of k r o) (w_jar w))) = x ->
  refines br self o (after_write br k r o w) (kv_put k x m).
Proof.
  intros (Hwf & Hc & Hs & Hr) Hv Hx. destruct (honours_spec br o Hh) as (_ & Ha & _).
  destruct (request_scope k r o Hv) as (En & _).
  pose proof (after_write_scoped w k r Hs Hv) as Hs'.
  split; [apply after_write_wf, Hwf|]. split; [apply configured_write; auto|]. split; [exact Hs'|].
  unfold after_write in *. simpl w_jar in *. rewrite Ha in *.
  apply (represents_put br o (w_jar w)); auto.
  intros k' Hne. apply filter_named_store. congruence.
Qed.

Lemma delete_decode w k r :
  scoped br o (w_jar w) = true -> r = PNull \/ r = PUndefined ->
  decode (raw_cookie br k (store br (request_of k r o) (w_jar w))) = JSON.Null.
Proof.
  intros Hs Hr. unfold raw_cookie. destruct (br_accessible br); [|reflexivity].
  rewrite delete_lookup; auto. apply scoped_shadow_free; auto.
Qed.

Lemma set_refines w m k v :
  refines br self o w m ->
  fst (set br self k v w) = Ok (fst (kv_set k v m)) /\ refines br self o (snd (set br self k v w)) (snd (kv_set k v m)).
Proof.
  intros R. pose proof R as (Hwf & Hc & Hs & Hr). destruct (honours_spec br o Hh) as (_ & Ha & _).
  unfold kv_set. destruct (JSON.stringify v) as [| |t] eqn:Ht.
  - rewrite set_thrown by exact Ht. auto.
  - rewrite (set_run br self k v w o) by (auto; congruence). rewrite Ha, Ht. split; [reflexivity|].
    rewrite (JSON.serialize_absent v Ht). apply write_refines; auto. apply delete_decode; auto.
  - rewrite (set_run br self k v w o) by (auto; congruence). rewrite Ha, Ht. split; [reflexivity|].
    rewrite <- (JSON.stringify_parse v t Ht). unfold stored_value.
    destruct (String.eqb_spec t "null") as [->|Hn].
    + apply write_refines; auto. apply delete_decode; auto.
    + apply write_refines; eauto. unfold raw_cookie. rewrite Ha, str_lookup by (auto; apply scoped_shadow_free; auto).
      destruct (JSON.serialize_head v t Ht) as (c & r & -> & _). reflexivity.
Qed.

Lemma remove_refines w m k :
  refines br self o w m ->
  fst (remove br self k w) = Ok (fst (kv_remove k m)) /\
  refines br self o (snd (remove br self k w)) (snd (kv_remove k m)).
Proof.
  intros R. pose proof R as (Hwf & Hc & Hs & Hr). destruct (honours_spec br o Hh) as (_ & Ha & _).
  rewrite (remove_run br self k w o) by auto. rewrite Ha. split; [reflexivity|].
  apply (write_refines w m k PNull JSON.Null); auto. apply delete_decode; auto.
Qed.

Lemma get_refines w m k : refines br self o w m -> get br k w = (Ok (kv_get k m), w).
Proof. intros (_ & _ & _ & Hr). rewrite get_run, Hr. reflexivity. Qed.

(** Any sequence of operations, from a world that refines [m]. *)
Lemma run_refines ops : forall w m, refines br self o w m ->
  exists w', run br self ops w = (Ok (fst (kv_run ops m)), w') /\ refines br self o w' (snd (kv_run ops m)).
Proof.
  induction ops as [|[k v|k|k] r IH]; intros w m R; simpl.
  - eexists; split; [reflexivity|exact R].
  - destruct (set_refines w m k v R) as [E R1]. destruct (kv_set k v m) as [b m1]. simpl in E, R1.
    destruct (IH _ _ R1) as (w2 & E2 & R2). destruct (kv_run r m1) as [rs m2]. simpl in *.
    exists w2. split; [|exact R2].
    rewrite (bind_ok _ _ w b _ (run_pair _ _ _ E)), (bind_ok _ _ _ rs w2 E2). reflexivity.
  - destruct (IH w m R) as (w2 & E2 & R2). destruct (kv_run r m) as [rs m2]. simpl in *.
    exists w2. split; [|exact R2].
    rewrite (bind_ok _ _ w _ w (get_refines w m k R)), (bind_ok _ _ _ rs w2 E2). reflexivity.
  - destruct (remove_refines w m k R) as [E R1]. simpl in E, R1.
    destruct (IH _ _ R1) as (w2 & E2 & R2). destruct (kv_run r (delete k m)) as [rs m2]. simpl in *.
    exists w2. split; [|exact R2].
    rewrite (bind_ok _ _ w true _ (run_pair _ _ _ E)), (bind_ok _ _ _ rs w2 E2). reflexivity.
Qed.

End Refinement.

(** ** Whatever the browser does *)

(** One operation keeps the heap well formed and [this._options] as it
    was, on any browser, and returns. *)
Lemma op_invariant br self o w x :
  heap_wf w -> configured w self o ->
  exists r w', run br self [x] w = (Ok [r], w') /\ heap_wf w' /\ configured w' self o.
Proof.
  intros Hwf Hc. destruct x as [k v|k|k]; cbn [run].
  - assert (E : exists b w1, set br self k v w = (Ok b, w1) /\ heap_wf w1 /\ configured w1 self o).
    { destruct (JSON.stringify v) eqn:Ht; [rewrite (set_thrown br self k v w Ht); exists false, w; auto| |];
        rewrite (set_run br self k v w o) by (auto; congruence);
        (do 2 eexists; split; [reflexivity|]; split; [eauto using after_write_wf | eauto using configured_write]). }
    destruct E as (b & w1 & E & Hwf1 & Hc1). exists (RBool b), w1.
    rewrite (bind_ok _ _ w b w1 E), (bind_ok _ _ w1 [] w1) by reflexivity.
    repeat split; auto.
  - exists (RValue (decode (raw_cookie br k (w_jar w)))), w.
    rewrite (bind_ok _ _ w _ w (get_run br k w)), (bind_ok _ _ w [] w) by reflexivity. auto.
  - exists (RBool (br_accessible br)), (after_write br k PNull o w).
    rewrite (bind_ok _ _ w _ _ (remove_run br self k w o Hwf Hc)), (bind_ok _ _ _ [] _) by reflexivity.
    split; [reflexivity|]. split; [eauto using after_write_wf | eauto using configured_write].
Qed.

Lemma run_head {A} (m : M A) (mk : A -> result) (rest : M (list result)) w r w1 :
  (a ← m; rs ← mret []; mret (mk a :: rs)) w = (Ok [r], w1) ->
  (a ← m; rs ← rest; mret (mk a :: rs)) w = (rs ← rest; mret (r :: rs)) w1.
Proof.
  destruct (m w) as [[a|e] w0] eqn:E.
  - rewrite !(bind_ok _ _ w a w0 E), (bind_ok _ _ w0 [] w0) by reflexivity. intros H. invc H. reflexivity.
  - rewrite (bind_throw _ _ w e w0 E). discriminate.
Qed.

Lemma run_cons br self x ops w r w1 :
  run br self [x] w = (Ok [r], w1) -> run br self (x :: ops) w = (rs ← run br self ops; mret (r :: rs)) w1.
Proof. destruct x; apply run_head. Qed.

(** ** From the module's singleton on *)

(** The options the module's [new Cookie()] settles on are honoured on a
    page whose cookies are enabled and accessible. *)
Lemma singleton_honours br :
  br_enabled br = true -> br_accessible br = true -> page_path_wf br = true ->
  honours br (negotiated br ∅) = true.
Proof.
  intros He Ha Hp. rewrite negotiated_singleton by assumption.
  set (td := first_accepted br (levels (br_host br))).
  unfold honours. rewrite Ha, singleton_path by exact Hp. unfold accepted. rewrite singleton_scope, He.
  cbn -[cookie_domain]. rewrite andb_true_r. apply bool_decide_eq_true.
  destruct (String.eqb td "") eqn:Etd; [eexists; reflexivity|].
  destruct (first_accepted_spec br (levels (br_host br))) as [E|[_ Hacc]].
  - fold td in E. rewrite E in Etd. discriminate.
  - unfold accepts in Hacc. apply andb_prop in Hacc as [_ Hd]. apply bool_decide_eq_true in Hd. exact Hd.
Qed.

Lemma empty_represents br : represents br [] ∅.
Proof.
  intros k. unfold raw_cookie, document_cookie. destruct (br_accessible br), (br_enabled br); reflexivity.
Qed.

(** [new Cookie()] on a page whose cookies work, from an empty jar: the
    store it returns stands for the empty map. *)
Lemma singleton_start br w :
  heap_wf w -> w_jar w = [] -> br_enabled br = true -> br_accessible br = true -> page_path_wf br = true ->
  exists self w', cookie_singleton br w = (Ok self, w') /\ refines br self (negotiated br ∅) w' ∅ /\ w_jar w' = [].
Proof.
  intros Hwf Hj He Ha Hp.
  destruct (Cookie_new_run br None w ∅ Hwf eq_refl Ha Hp ltac:(rewrite Hj; reflexivity)
    ltac:(rewrite Hj; reflexivity) (singleton_path br _ Hp))
    as (self & l & w' & E & Hat & Hjar & _).
  exists self, w'. split; [exact E|]. rewrite <- Hjar in Hj. split; [|exact Hj].
  split; [apply Hat|]. split; [eapply options_at_configured, Hat|].
  rewrite Hj. split; [reflexivity|apply empty_represents].
Qed.

(** C2: the cookie store implements the key-value contract of spec 4.1:
    from a world that stands for the map [m], with options the browser
    honours, any sequence of [set], [get] and [remove] returns what the
    map operations return and ends in a world that stands for the map
    they end with. *)
Theorem store_refines br self o ops w m :
  honours br o = true -> refines br self o w m ->
  exists w', run br self ops w = (Ok (fst (kv_run ops m)), w') /\ refines br self o w' (snd (kv_run ops m)).
Proof. intros Hh. apply run_refines, Hh. Qed.

Lemma store_refines_witness :
  exists w', run example_site 1 example_ops example_store = (Ok (fst (kv_run example_ops ∅)), w') /\
    refines example_site 1 (merged ∅ "example.com") w' (snd (kv_run example_ops ∅)).
Proof.
  apply store_refines; [reflexivity|]. split; [apply heap_wfb_sound; reflexivity|].
  split; [reflexivity|]. split; [reflexivity|]. intros k. reflexivity.
Defined.

(** C1: the module's singleton behaves as a key-value map from the empty
    map on: on a page whose cookies are enabled and accessible, with an
    empty jar, [new Cookie()] followed by any sequence of [set], [get] and
    [remove] returns exactly what the map operations return. *)
Theorem singleton_implements_kv br w ops :
  heap_wf w -> w_jar w = [] -> br_enabled br = true -> br_accessible br = true -> page_path_wf br = true ->
  exists w', (self ← cookie_singleton br; run br self ops) w = (Ok (fst (kv_run ops ∅)), w').
Proof.
  intros Hwf Hj He Ha Hp. destruct (singleton_start br w Hwf Hj He Ha Hp) as (self & w1 & E & R & _).
  destruct (run_refines br self _ (singleton_honours br He Ha Hp) ops w1 ∅ R) as (w2 & E2 & _).
  exists w2. rewrite (bind_ok _ _ w self w1 E). exact E2.
Qed.

Lemma singleton_implements_kv_witness :
  exists w', (self ← cookie_singleton example_site; run example_site self example_ops) (page_load []) =
    (Ok (fst (kv_run example_ops ∅)), w').
Proof. apply singleton_implements_kv; try reflexivity. apply heap_wfb_sound. reflexivity. Defined.

(** C5: the jar's invariant: with options the browser honours, a jar in
    which every name has one visible value and no cookie outside the
    store's scope shadows a name keeps both properties through every
    [set] and [remove] of the store. *)
Theorem writes_keep_scope br self o k v w :
  honours br o = true -> heap_wf w -> configured w self o -> scoped br o (w_jar w) = true ->
  scoped br o (w_jar (snd (set br self k v w))) = true /\ scoped br o (w_jar (snd (remove br self k w))) = true.
Proof.
  intros Hh Hwf Hc Hs. split.
  - destruct (JSON.stringify v) eqn:Ht; [rewrite set_thrown by exact Ht; exact Hs| |];
      rewrite (set_run br self k v w o) by (auto; congruence); apply after_write_scoped, stored_value_shape; auto.
  - rewrite (remove_run br self k w o) by auto. apply after_write_scoped; auto.
Qed.

Lemma writes_keep_scope_witness :
  scoped example_site (merged ∅ "example.com")
    (w_jar (snd (set example_site 1 "ajs_user_id" (JSON.Str "u1") example_store))) = true /\
  scoped example_site (merged ∅ "example.com") (w_jar (snd (remove example_site 1 "ajs_user_id" example_store))) = true.
Proof.
  apply writes_keep_scope; try reflexivity. apply heap_wfb_sound. reflexivity.
Defined.

(** C8: the store's invariant on any browser: from a well-formed world
    whose [this._options] holds [o], any sequence of [set], [get] and
    [remove] returns one result per operation without throwing, keeps the
    heap well formed and leaves [this._options] holding [o], also where
    cookies are disabled or their access throws. *)
Theorem store_invariant br self o ops w :
  heap_wf w -> configured w self o ->
  exists rs w', run br self ops w = (Ok rs, w') /\ length rs = length ops /\ heap_wf w' /\ configured w' self o.
Proof.
  revert w. induction ops as [|x ops IH]; intros w Hwf Hc; [exists [], w; auto|].
  destruct (op_invariant br self o w x Hwf Hc) as (r & w1 & E1 & Hwf1 & Hc1).
  destruct (IH w1 Hwf1 Hc1) as (rs & w2 & E2 & Hl & Hwf2 & Hc2).
  exists (r :: rs), w2. rewrite (run_cons _ _ _ _ _ _ _ E1), (bind_ok _ _ w1 rs w2 E2). cbn [length]. auto.
Qed.

(** The store of [example_site], used where cookie access throws. *)
Lemma store_invariant_witness :
  exists rs w', run blocked_site 1 example_ops example_store = (Ok rs, w') /\ length rs = length example_ops /\
    heap_wf w' /\ configured w' 1 (merged ∅ "example.com").
Proof. apply store_invariant; [apply heap_wfb_sound|]; reflexivity. Defined.

End Store.
