(* ===== verification/CookieModule.v ===== *)
(** * The module's exports: the singleton and more stores on one jar

    [src/lib/cookie.ts] exports the singleton [bindAll(new Cookie())] and,
    as its property [Cookie], the constructor (lines 130 to 136), so a
    client can build more stores on the same page.  All stores of a page
    share one cookie jar.  This file holds

    - [cookie_module], the module's evaluation, returning its [exports];
    - that a store built after the singleton has written leaves the
      singleton's options and what it stored as they were, and reads what
      the singleton wrote ([second_store_shares_jar]).

    Reconfiguring one store ([reconfigure_options]) and what a new
    store's probe does to a value stored under ["ajs:test"]
    ([probe_clobbers_user_key]) are in [Cookie]. *)

From Stdlib Require Import Ascii String ZArith Lia.
From stdpp Require Import base list option strings gmap.
From S2P Require Import Prelude Json Runtime Browser Jar TopDomain Cookie Store.
Import Runtime Browser Jar TopDomain Cookie Store.

Module CookieModule.

(** [module.exports = bindAll(new Cookie()); module.exports.Cookie = Cookie]. *)
Record exports := mk_exports {
  exp_singleton : loc;
  exp_Cookie : option loc -> M loc
}.

Definition cookie_module (br : browser) : M exports :=
  self ← cookie_singleton br;
  mret (mk_exports self (Cookie_new br)).

(** ** Lemmas *)

(** A world with the same jar that keeps the objects allocated before
    stands for the same map. *)
Lemma refines_frame br self o w w' m :
  refines br self o w m -> heap_wf w' ->
  (forall l', (l' < w_next w)%positive -> w_heap w' !! l' = w_heap w !! l') -> w_jar w' = w_jar w ->
  refines br self o w' m.
Proof.
  intros (Hwf & Hc & Hs & Hr) Hwf' Hf Hj. unfold refines. rewrite Hj.
  split; [exact Hwf'|]. split; [exact (configured_frame w w' self o Hwf Hc Hf)|]. auto.
Qed.

Lemma set_no_cookie br self k v w o n :
  heap_wf w -> configured w self o -> n <> k ->
  no_cookie n (w_jar (snd (set br self k v w))) = no_cookie n (w_jar w).
Proof.
  intros Hwf Hc Hn. destruct (JSON.stringify v) eqn:Ht; [rewrite set_thrown by exact Ht; reflexivity| |];
    rewrite (set_run br self k v w o) by (auto; congruence); unfold after_write; simpl;
    destruct (br_accessible br); auto; apply no_cookie_store; exact Hn.
Qed.

Lemma module_run br w :
  heap_wf w -> w_jar w = [] -> br_enabled br = true -> br_accessible br = true -> page_path_wf br = true ->
  exists ex w1, cookie_module br w = (Ok ex, w1) /\ exp_Cookie ex = Cookie_new br /\
    refines br (exp_singleton ex) (negotiated br ∅) w1 ∅ /\ w_jar w1 = [].
Proof.
  intros Hwf Hj He Ha Hp. destruct (singleton_start br w Hwf Hj He Ha Hp) as (self & w1 & E & R & Hj1).
  exists (mk_exports self (Cookie_new br)), w1. split; [|auto].
  unfold cookie_module. rewrite (bind_ok _ _ w self w1 E). reflexivity.
Qed.

(** ** Theorems *)

(** C11: stores share the page's jar: after the module's singleton has
    stored [v] under a key other than the probe names, a second store
    [new exports.Cookie()] leaves the singleton's options and what it
    stored as they were, and reads the value the singleton wrote. *)
Theorem second_store_shares_jar br w k v :
  heap_wf w -> w_jar w = [] -> br_enabled br = true -> br_accessible br = true -> page_path_wf br = true ->
  k <> "__tld__" -> k <> "ajs:test" ->
  exists ex w1 w2 self2 w3,
    cookie_module br w = (Ok ex, w1) /\
    set br (exp_singleton ex) k v w1 = (Ok (fst (kv_set k v ∅)), w2) /\
    exp_Cookie ex None w2 = (Ok self2, w3) /\ self2 <> exp_singleton ex /\
    configured w3 self2 (negotiated br ∅) /\
    get br k w3 = (Ok (kv_get k (snd (kv_set k v ∅))), w3) /\
    refines br (exp_singleton ex) (negotiated br ∅) w3 (snd (kv_set k v ∅)).
Proof.
  intros Hwf Hj He Ha Hp Hk1 Hk2.
  destruct (module_run br w Hwf Hj He Ha Hp) as (ex & w1 & E1 & Hex & R1 & Hj1).
  destruct (set_refines br (exp_singleton ex) _ (singleton_honours br He Ha Hp) w1 ∅ k v R1) as [Es R2].
  set (w2 := snd (set br (exp_singleton ex) k v w1)) in *.
  pose proof R1 as (Hwf1 & Hc1 & _). pose proof R2 as (Hwf2 & Hc2 & _).
  assert (Hn : forall n, n <> k -> no_cookie n (w_jar w2) = true)
    by (intros n Hnk; unfold w2; rewrite (set_no_cookie _ _ _ _ _ _ _ Hwf1 Hc1 Hnk), Hj1; reflexivity).
  destruct (Cookie_new_frame br w2 Hwf2 Ha Hp (Hn _ (not_eq_sym Hk1)) (Hn _ (not_eq_sym Hk2)))
    as (self2 & l2 & w3 & E3 & Hat & Hjar & Hge & Hf).
  assert (Hlt : (exp_singleton ex < w_next w2)%positive).
  { apply Hwf2. destruct (configured_inv _ _ _ Hc2) as (l & Hpr & _). unfold prop in Hpr.
    destruct (w_heap w2 !! exp_singleton ex); [eauto | discriminate]. }
  assert (R3 : refines br (exp_singleton ex) (negotiated br ∅) w3 (snd (kv_set k v ∅)))
    by (apply (refines_frame _ _ _ w2); [exact R2 | apply Hat | exact Hf | exact Hjar]).
  exists ex, w1, w2, self2, w3. split; [exact E1|]. split; [exact (run_pair _ _ _ Es)|].
  split; [rewrite Hex; exact E3|]. split; [lia|]. split; [eapply options_at_configured, Hat|].
  split; [exact (get_refines br _ _ w3 _ k R3) | exact R3].
Qed.

Lemma second_store_shares_jar_witness :
  exists ex w1 w2 self2 w3,
    cookie_module example_site (page_load []) = (Ok ex, w1) /\
    set example_site (exp_singleton ex) "ajs_user_id" (JSON.Str "u1") w1 =
      (Ok (fst (kv_set "ajs_user_id" (JSON.Str "u1") ∅)), w2) /\
    exp_Cookie ex None w2 = (Ok self2, w3) /\ self2 <> exp_singleton ex /\
    configured w3 self2 (negotiated example_site ∅) /\
    get example_site "ajs_user_id" w3 = (Ok (kv_get "ajs_user_id" (snd (kv_set "ajs_user_id" (JSON.Str "u1") ∅))), w3) /\
    refines example_site (exp_singleton ex) (negotiated example_site ∅) w3 (snd (kv_set "ajs_user_id" (JSON.Str "u1") ∅)).
Proof.
  apply (second_store_shares_jar example_site (page_load []) "ajs_user_id" (JSON.Str "u1"));
    [apply heap_wfb_sound; vm_compute; reflexivity | reflexivity.. | discriminate | discriminate].
Defined.

End CookieModule.
