(* ===== verification/Entity.v ===== *)
(** * The [Entity] collaborator, at its configuration interface

    [src/lib/group.ts] hands its construction to [Entity.call(this,
    options)].  The [Entity] code is not among the sources: the spec gives
    it as a black box whose configuration contract is "the caller's
    options merged over [this.defaults], caller fields winning,
    unspecified fields keeping the defaults" (spec 4.2, the merge rule of
    4.1 step 2).  This file holds

    - [Entity], a class: the operation [entity_call] and, as its law
      [entity_call_spec], that contract on the heap; [Group] is proved
      against the class only;
    - [entity_options], the configuration modelled from the spec with
      [@ndhoule/defaults], and the instance [entity_spec] whose law is
      proved from it.

    Not modelled: [Entity.prototype.initialize] (loading the id and the
    traits from the cookie and the local store), which the spec leaves to
    the collaborator. *)

From Stdlib Require Import String ZArith Lia.
From stdpp Require Import base list option strings gmap.
From S2P Require Import Prelude Runtime.
Import Runtime.

Module Entity.

(** Key [k] of the options an entity keeps: the caller's value unless it
    is [undefined], else the default's. *)
Definition over_defaults (o d : gmap string prim) (k : string) : prim :=
  match prop_of o k with
  | PUndefined => prop_of d k
  | p => p
  end.

(** [this._options = defaults(options || {}, this.defaults || {})]. *)
Definition entity_options (self : loc) (arg : option loc) : M unit :=
  o ← (match arg with Some l => mret l | None => alloc ∅ end);
  d ← get_prop self "defaults";
  (match d with
   | PObj dl => src ← read_obj dl; defaults o (map_to_list src);; mret tt
   | _ => mret tt
   end);;
  set_prop self "_options" (PObj o).

(** The configuration contract of [Entity.call(this, options)], for an
    instance [self] whose [defaults] is the object at [dl] holding [d]
    and a caller object [o] (a fresh [{}] for [undefined]):
    [this._options] is the caller's object (or the fresh one) holding
    [over_defaults o d]; the defaults object and every other object
    allocated before are left as they were. *)
Class Entity := {
  entity_call : loc -> option loc -> M unit;
  entity_call_spec : forall self arg w s o dl d,
    heap_wf w -> w_heap w !! self = Some s -> caller_object w arg = Some o ->
    prop w self "defaults" = PObj dl -> w_heap w !! dl = Some d -> dl <> self ->
    (forall l, arg = Some l -> l <> dl /\ l <> self) ->
    exists l w', entity_call self arg w = (Ok tt, w') /\ heap_wf w' /\
      prop w' self "_options" = PObj l /\ is_Some (w_heap w' !! l) /\
      (forall k, prop w' l k = over_defaults o d k) /\
      (forall l', arg = Some l' -> l = l') /\ (arg = None -> (w_next w <= l)%positive) /\
      (forall l', l' <> self -> l' <> l -> (l' < w_next w)%positive -> w_heap w' !! l' = w_heap w !! l')
}.

Lemma entity_options_some self l w s o dl d :
  heap_wf w -> w_heap w !! self = Some s -> w_heap w !! l = Some o ->
  prop w self "defaults" = PObj dl -> w_heap w !! dl = Some d -> l <> dl -> l <> self ->
  entity_options self (Some l) w =
  (Ok tt, mk_world (<[self := <["_options" := PObj l]> s]> (<[l := merge o (map_to_list d)]> (w_heap w)))
            (w_next w) (w_jar w)).
Proof.
  intros Hwf Hs Ho Hd Hdl Hne1 Hne2. unfold entity_options.
  rewrite (bind_ok (mret l) _ w l w) by reflexivity.
  rewrite (bind_ok _ _ w (PObj dl) w) by (rewrite get_prop_run, Hd; reflexivity).
  rewrite (bind_ok _ _ w tt (mk_world (<[l := merge o (map_to_list d)]> (w_heap w)) (w_next w) (w_jar w))).
  - cbv beta. rewrite (set_prop_obj self s "_options" (PObj l) (mk_world (<[l := merge o (map_to_list d)]> (w_heap w)) (w_next w) (w_jar w))).
    { reflexivity. }
    simpl. rewrite lookup_insert_ne by congruence. exact Hs.
  - rewrite (bind_ok (read_obj dl) _ w d w) by (unfold read_obj; rewrite Hdl; reflexivity).
    rewrite (bind_ok _ _ _ l _) by (apply defaults_run, Ho). reflexivity.
Qed.

Lemma entity_options_spec self arg w s o dl d :
  heap_wf w -> w_heap w !! self = Some s -> caller_object w arg = Some o ->
  prop w self "defaults" = PObj dl -> w_heap w !! dl = Some d -> dl <> self ->
  (forall l, arg = Some l -> l <> dl /\ l <> self) ->
  exists l w', entity_options self arg w = (Ok tt, w') /\ heap_wf w' /\
    prop w' self "_options" = PObj l /\ is_Some (w_heap w' !! l) /\
    (forall k, prop w' l k = over_defaults o d k) /\
    (forall l', arg = Some l' -> l = l') /\ (arg = None -> (w_next w <= l)%positive) /\
    (forall l', l' <> self -> l' <> l -> (l' < w_next w)%positive -> w_heap w' !! l' = w_heap w !! l').
Proof.
  intros Hwf Hs Ho Hd Hdl Hne Harg.
  assert (Hrun : forall w0 l, heap_wf w0 -> w_heap w0 !! self = Some s -> w_heap w0 !! l = Some o ->
            prop w0 self "defaults" = PObj dl -> w_heap w0 !! dl = Some d -> l <> dl -> l <> self ->
            heap_wf (mk_world (<[self := <["_options" := PObj l]> s]> (<[l := merge o (map_to_list d)]> (w_heap w0)))
                       (w_next w0) (w_jar w0)) /\
            prop (mk_world (<[self := <["_options" := PObj l]> s]> (<[l := merge o (map_to_list d)]> (w_heap w0)))
                       (w_next w0) (w_jar w0)) self "_options" = PObj l /\
            (forall k, prop (mk_world (<[self := <["_options" := PObj l]> s]> (<[l := merge o (map_to_list d)]> (w_heap w0)))
                       (w_next w0) (w_jar w0)) l k = over_defaults o d k)).
  { intros w0 l Hwf0 Hs0 Ho0 _ _ Hn1 Hn2.
    assert (H1 : heap_wf (mk_world (<[l := merge o (map_to_list d)]> (w_heap w0)) (w_next w0) (w_jar w0)))
      by (apply update_wf; eauto).
    pose proof (update_wf _ self (<["_options" := PObj l]> s) H1) as H2. simpl in H2.
    split; [apply H2; rewrite lookup_insert_ne by congruence; eauto|]. unfold prop. simpl. split.
    - rewrite lookup_insert_eq. simpl. rewrite lookup_insert_eq. reflexivity.
    - intros k. rewrite lookup_insert_ne, lookup_insert_eq by congruence. simpl.
      fold (prop_of (merge o (map_to_list d)) k). apply merge_map_to_list. }
  destruct arg as [l|]; simpl in Ho.
  - destruct (Harg l eq_refl) as [Hn1 Hn2].
    destruct (Hrun w l Hwf Hs Ho Hd Hdl Hn1 Hn2) as (Hwf' & Hp & Hk).
    eexists l, _. split; [eapply entity_options_some; eauto|]. split; [exact Hwf'|]. split; [exact Hp|].
    split; [simpl; rewrite lookup_insert_ne, lookup_insert_eq by congruence; eauto|].
    split; [exact Hk|]. split; [congruence|]. split; [discriminate|]. intros l' H1 H2 _. simpl.
    rewrite !lookup_insert_ne by congruence. reflexivity.
  - invc Ho. set (w1 := snd (alloc ∅ w)).
    assert (Hfresh : w_heap w !! w_next w = None) by (apply alloc_fresh, Hwf).
    assert (Hsn : self <> w_next w) by (intros ->; congruence).
    assert (Hdn : dl <> w_next w) by (intros ->; congruence).
    assert (Hs1 : w_heap w1 !! self = Some s) by (simpl; rewrite lookup_insert_ne by congruence; exact Hs).
    assert (Hd1 : prop w1 self "defaults" = PObj dl) by (unfold prop in *; simpl; rewrite lookup_insert_ne by congruence; exact Hd).
    assert (Hdl1 : w_heap w1 !! dl = Some d) by (simpl; rewrite lookup_insert_ne by congruence; exact Hdl).
    assert (Ho1 : w_heap w1 !! w_next w = Some ∅) by (simpl; apply lookup_insert_eq).
    destruct (Hrun w1 (w_next w) (alloc_wf _ _ Hwf) Hs1 Ho1 Hd1 Hdl1 (not_eq_sym Hdn) (not_eq_sym Hsn)) as (Hwf' & Hp & Hk).
    eexists (w_next w), _. split.
    + unfold entity_options. rewrite (bind_ok (alloc ∅) _ w (w_next w) w1) by reflexivity.
      rewrite <- (entity_options_some self (w_next w) w1 s ∅ dl d) by eauto using alloc_wf.
      unfold entity_options. rewrite (bind_ok (mret _) _ _ _ _) by reflexivity. reflexivity.
    + split; [exact Hwf'|]. split; [exact Hp|].
      split; [simpl; rewrite lookup_insert_ne, lookup_insert_eq by congruence; eauto|].
      split; [exact Hk|]. split; [discriminate|]. split; [intros _; lia|].
      intros l' H1 H2 Hlt. simpl. rewrite !lookup_insert_ne by (congruence || lia). reflexivity.
Qed.

#[export] Instance entity_spec : Entity := {|
  entity_call := entity_options;
  entity_call_spec := entity_options_spec
|}.

End Entity.
