(* ===== verification/Group.v ===== *)
(** * [src/lib/group.ts]: the [Group] entity

    - [Group_defaults]: the object literal [Group.defaults] of lines 19 to
      27, allocated as the module loads: two nested objects for the
      cookie and the local store keys, and the outer object;
    - [Group_new]: the constructor of lines 35 to 39, which sets
      [this.defaults] and [this.debug] and calls the [Entity] constructor;
    - [group_debug]: the [debug] instance of line 13;
    - [group_module]: the module's evaluation (lines 51 to 57): the
      singleton [new Group()] and the exported constructor, as a
      [group_exports] record.

    The constructor is proved against the class [Entity] of [Entity.v]
    only (its configuration law); the witnesses use the instance modelled
    from the spec.  [inherit(Group, Entity)] and [bindAll] are not
    modelled: the model calls the [Entity] operation directly and passes
    the instance explicitly; [debug] is kept as the tag it logs under. *)

From Stdlib Require Import String ZArith Lia.
From stdpp Require Import base list option strings gmap.
From S2P Require Import Prelude Runtime Entity.
Import Runtime Entity.

Module Group.

(** [Group.defaults = { persist: true, cookie: { key: 'ajs_group_id' },
    localStorage: { key: 'ajs_group_properties' } }]. *)
Definition Group_defaults : M loc :=
  c ← alloc {[ "key" := PStr "ajs_group_id" ]};
  s ← alloc {[ "key" := PStr "ajs_group_properties" ]};
  alloc (<["persist" := PBool true]> (<["cookie" := PObj c]> {[ "localStorage" := PObj s ]})).

(** [const debug = Debug('analytics.js:group')] (line 13), kept as the
    namespace it logs under. *)
Definition group_debug : prim := PStr "analytics.js:group".

(** What the module exports: [module.exports = bindAll(new Group())]
    and [module.exports.Group = Group], whose property [defaults] is
    [Group.defaults] (lines 51 and 57). *)
Record group_exports := mk_group_exports {
  gx_defaults : loc;
  gx_singleton : loc;
  gx_Group : option loc -> M loc
}.

Section Constructor.
Context `{Entity}.

(** [function Group(options) { this.defaults = Group.defaults;
    this.debug = debug; Entity.call(this, options); }], with [new]. *)
Definition Group_new (group_defaults : loc) (arg : option loc) : M loc :=
  self ← alloc ∅;
  set_prop self "defaults" (PObj group_defaults);;
  set_prop self "debug" group_debug;;
  entity_call self arg;;
  mret self.

(** The module's evaluation: [Group.defaults], the singleton
    [new Group()] and the exported constructor. *)
Definition group_module : M group_exports :=
  gd ← Group_defaults;
  g ← Group_new gd None;
  mret (mk_group_exports gd g (Group_new gd)).
End Constructor.

(** The [key] of the nested options object under [k] of the object at [l]. *)
Definition nested_key (w : world) (l : loc) (k : string) : prim :=
  match prop w l k with
  | PObj c => prop w c "key"
  | _ => PUndefined
  end.

(** The instance's own properties after the two assignments. *)
Definition group_self (gd : loc) : gmap string prim :=
  <["debug" := group_debug]> {[ "defaults" := PObj gd ]}.

Lemma Group_defaults_run w :
  Group_defaults w =
  (Ok (Pos.succ (Pos.succ (w_next w))),
   mk_world (<[Pos.succ (Pos.succ (w_next w)) :=
                <["persist" := PBool true]> (<["cookie" := PObj (w_next w)]>
                  {[ "localStorage" := PObj (Pos.succ (w_next w)) ]})]>
             (<[Pos.succ (w_next w) := {[ "key" := PStr "ajs_group_properties" ]}]>
               (<[w_next w := {[ "key" := PStr "ajs_group_id" ]}]> (w_heap w))))
     (Pos.succ (Pos.succ (Pos.succ (w_next w)))) (w_jar w)).
Proof. reflexivity. Qed.

Section Proofs.
Context `{Entity}.

(** The constructor, before [Entity.call]: [this] is fresh and holds
    [defaults] and [debug]. *)
Lemma Group_new_prefix gd arg w :
  Group_new gd arg w =
  (entity_call (w_next w) arg;; mret (w_next w))
    (mk_world (<[w_next w := group_self gd]> (w_heap w)) (Pos.succ (w_next w)) (w_jar w)).
Proof.
  set (n := w_next w).
  set (W2 := mk_world (<[n := {[ "defaults" := PObj gd ]}]> (w_heap w)) (Pos.succ n) (w_jar w)).
  assert (E2 : set_prop n "defaults" (PObj gd) (snd (alloc ∅ w)) = (Ok tt, W2)).
  { rewrite (set_prop_obj n ∅) by (simpl; apply lookup_insert_eq). simpl. rewrite insert_insert_eq. reflexivity. }
  assert (E3 : set_prop n "debug" group_debug W2 =
               (Ok tt, mk_world (<[n := group_self gd]> (w_heap w)) (Pos.succ n) (w_jar w))).
  { rewrite (set_prop_obj n {[ "defaults" := PObj gd ]}) by (simpl; apply lookup_insert_eq).
    simpl. rewrite insert_insert_eq. reflexivity. }
  unfold Group_new.
  rewrite (bind_ok (alloc ∅) _ w n (snd (alloc ∅ w))) by reflexivity.
  rewrite (bind_ok _ _ _ tt W2) by exact E2.
  rewrite (bind_ok _ _ W2 tt _) by exact E3. reflexivity.
Qed.

(** [new Group(arg)] for the defaults object at [gd] holding [d] and the
    caller's object [o]: the [Entity] law, seen from [Group]. *)
Lemma Group_new_run gd d arg w o :
  heap_wf w -> w_heap w !! gd = Some d -> caller_object w arg = Some o ->
  (forall l, arg = Some l -> l <> gd) ->
  exists l w', Group_new gd arg w = (Ok (w_next w), w') /\ heap_wf w' /\
    prop w' (w_next w) "_options" = PObj l /\ is_Some (w_heap w' !! l) /\
    (forall k, prop w' l k = over_defaults o d k) /\
    (forall l', arg = Some l' -> l = l') /\ (arg = None -> (w_next w < l)%positive) /\
    (forall l', l' <> l -> (l' < w_next w)%positive -> w_heap w' !! l' = w_heap w !! l').
Proof.
  intros Hwf Hd Ho Harg. rewrite Group_new_prefix.
  set (w3 := mk_world (<[w_next w := group_self gd]> (w_heap w)) (Pos.succ (w_next w)) (w_jar w)).
  assert (Hfresh : w_heap w !! w_next w = None) by (apply alloc_fresh, Hwf).
  assert (Hgd : gd <> w_next w) by (intros ->; congruence).
  assert (Hwf3 : heap_wf w3) by (apply extends_wf; simpl; auto; lia).
  assert (Hold : forall l, is_Some (w_heap w !! l) -> l <> w_next w /\ w_heap w3 !! l = w_heap w !! l).
  { intros l Hl. assert (l <> w_next w) by (intros ->; destruct Hl; congruence).
    split; [assumption|]. simpl. apply lookup_insert_ne. congruence. }
  assert (Ho3 : caller_object w3 arg = Some o).
  { destruct arg as [l|]; [|exact Ho]. simpl in *. rewrite (proj2 (Hold l ltac:(eauto))). exact Ho. }
  assert (Harg3 : forall l, arg = Some l -> l <> gd /\ l <> w_next w).
  { intros l ->. split; [apply Harg; reflexivity|]. apply Hold. simpl in Ho. eauto. }
  destruct (entity_call_spec (w_next w) arg w3 (group_self gd) o gd d Hwf3 ltac:(simpl; apply lookup_insert_eq)
              Ho3 ltac:(unfold prop; simpl; rewrite lookup_insert_eq; reflexivity)
              ltac:(rewrite (proj2 (Hold gd ltac:(eauto))); exact Hd) Hgd Harg3)
    as (l & w' & E & Hwf' & Hp & Hl & Hk & Hal & Hnew & Hframe).
  exists l, w'. rewrite (bind_ok _ _ _ tt w') by exact E.
  split; [reflexivity|]. split; [exact Hwf'|]. split; [exact Hp|]. split; [exact Hl|].
  split; [exact Hk|]. split; [exact Hal|]. split; [intros Hn; specialize (Hnew Hn); simpl in Hnew; lia|].
  intros l' Hne Hlt. rewrite Hframe by (simpl; lia). simpl. apply lookup_insert_ne. lia.
Qed.

(** C22: [new Group(options)] keeps, for every key, the caller's value
    unless it is undefined, and the value of [Group.defaults] otherwise;
    [this._options] is the caller's own object. *)
Theorem group_options_merge gd d arg w o :
  heap_wf w -> w_heap w !! gd = Some d -> caller_object w arg = Some o ->
  (forall l, arg = Some l -> l <> gd) ->
  exists self l w', Group_new gd arg w = (Ok self, w') /\ prop w' self "_options" = PObj l /\
    (forall k, prop w' l k = over_defaults o d k) /\ (forall l', arg = Some l' -> l = l').
Proof.
  intros Hwf Hd Ho Harg.
  destruct (Group_new_run gd d arg w o Hwf Hd Ho Harg) as (l & w' & E & _ & Hp & _ & Hk & Hal & _).
  exists (w_next w), l, w'. auto.
Qed.

(** The module's evaluation: [Group.defaults] in place, the singleton
    configured with it, and the exported constructor. *)
Lemma group_module_run w :
  heap_wf w ->
  exists ex l w', group_module w = (Ok ex, w') /\ heap_wf w' /\ gx_Group ex = Group_new (gx_defaults ex) /\
    is_Some (w_heap w' !! gx_defaults ex) /\ (gx_defaults ex < w_next w')%positive /\
    prop w' (gx_singleton ex) "_options" = PObj l /\ (l < w_next w')%positive /\
    prop w' l "persist" = PBool true /\ nested_key w' l "cookie" = PStr "ajs_group_id" /\
    nested_key w' l "localStorage" = PStr "ajs_group_properties".
Proof.
  intros Hwf. unfold group_module. set (n := w_next w).
  set (wd := snd (Group_defaults w)).
  assert (Hwfd : heap_wf wd).
  { unfold wd. rewrite Group_defaults_run. intros l' Hl'. simpl in *.
    rewrite !lookup_insert_is_Some' in Hl'.
    destruct Hl' as [<-|[<-|[<-|Hl']]]; [lia..|]. specialize (Hwf l' Hl'). lia. }
  destruct (Group_new_run (Pos.succ (Pos.succ n)) _ None wd ∅ Hwfd
              ltac:(unfold wd; rewrite Group_defaults_run; apply lookup_insert_eq) eq_refl ltac:(discriminate))
    as (l & w' & E & Hwf' & Hp & Hl & Hk & _ & Hnew & Hframe).
  exists (mk_group_exports (Pos.succ (Pos.succ n)) (w_next wd) (Group_new (Pos.succ (Pos.succ n)))), l, w'.
  cbn [gx_singleton gx_defaults gx_Group].
  assert (Hnd : w_next wd = Pos.succ (Pos.succ (Pos.succ n))) by (unfold wd; rewrite Group_defaults_run; reflexivity).
  specialize (Hnew eq_refl).
  assert (Hgd : is_Some (w_heap w' !! Pos.succ (Pos.succ n))).
  { rewrite Hframe by lia. unfold wd. rewrite Group_defaults_run. simpl. rewrite lookup_insert_eq. eauto. }
  split.
  - rewrite (bind_ok _ _ w _ wd) by (unfold wd; rewrite Group_defaults_run; reflexivity).
    rewrite (bind_ok _ _ wd _ w') by exact E. reflexivity.
  - assert (Hc : prop w' l "cookie" = PObj n) by (rewrite Hk; reflexivity).
    assert (Hs : prop w' l "localStorage" = PObj (Pos.succ n)) by (rewrite Hk; reflexivity).
    split; [exact Hwf'|]. split; [reflexivity|]. split; [exact Hgd|]. split; [apply Hwf', Hgd|].
    split; [exact Hp|]. split; [apply Hwf', Hl|]. split; [rewrite Hk; reflexivity|]. unfold nested_key. rewrite Hc, Hs.
    unfold prop. rewrite !Hframe by lia. unfold wd. rewrite Group_defaults_run. simpl.
    rewrite lookup_insert_ne, lookup_insert_ne, lookup_insert_eq by lia.
    rewrite lookup_insert_ne, lookup_insert_eq by lia. split; reflexivity.
Qed.

(** A world that keeps the objects below [n] keeps a nested key set
    there. *)
Lemma nested_key_frame w w' l k n :
  heap_wf w -> (w_next w <= n)%positive -> (l < n)%positive ->
  (forall l', (l' < n)%positive -> w_heap w' !! l' = w_heap w !! l') ->
  nested_key w l k <> PUndefined -> nested_key w' l k = nested_key w l k.
Proof.
  intros Hwf Hn Hl Hf. unfold nested_key, prop. rewrite (Hf l Hl).
  destruct (w_heap w !! l) as [o|]; [|auto]. simpl. destruct (default PUndefined (o !! k)) as [| |b|z|t|c]; auto.
  destruct (w_heap w !! c) eqn:Ec; [|simpl; intros []; reflexivity].
  intros _. rewrite Hf, Ec; [reflexivity|]. assert (c < w_next w)%positive by (apply Hwf; rewrite Ec; eauto). lia.
Qed.

(** C23: the module's [new Group()] is persisted, keeps its id under the
    cookie key [ajs_group_id] and its traits under the local storage key
    [ajs_group_properties]. *)
Theorem group_singleton_options w :
  heap_wf w ->
  exists ex l w', group_module w = (Ok ex, w') /\ prop w' (gx_singleton ex) "_options" = PObj l /\
    prop w' l "persist" = PBool true /\ nested_key w' l "cookie" = PStr "ajs_group_id" /\
    nested_key w' l "localStorage" = PStr "ajs_group_properties".
Proof.
  intros Hwf. destruct (group_module_run w Hwf) as (ex & l & w' & E & _ & _ & _ & _ & Hp & _ & Hr).
  exists ex, l, w'. auto.
Qed.

(** C14: a group built through the exported constructor after the module
    has loaded, [new exports.Group(options)], keeps the caller's options
    merged over [Group.defaults], and leaves the singleton's
    configuration as it was. *)
Theorem group_second_instance w o :
  heap_wf w ->
  exists ex d w1 lo w2 g2 l2 w3 l1,
    group_module w = (Ok ex, w1) /\ w_heap w1 !! gx_defaults ex = Some d /\
    alloc o w1 = (Ok lo, w2) /\ gx_Group ex (Some lo) w2 = (Ok g2, w3) /\
    prop w3 g2 "_options" = PObj l2 /\ (forall k, prop w3 l2 k = over_defaults o d k) /\
    prop w3 (gx_singleton ex) "_options" = PObj l1 /\ prop w3 l1 "persist" = PBool true /\
    nested_key w3 l1 "cookie" = PStr "ajs_group_id" /\ nested_key w3 l1 "localStorage" = PStr "ajs_group_properties".
Proof.
  intros Hwf.
  destruct (group_module_run w Hwf) as (ex & l1 & w1 & E1 & Hwf1 & Hx & [d Hd] & Hdlt & Hp & Hl1 & Hper & Hc & Hs).
  set (w2 := snd (alloc o w1)).
  assert (Hfr2 : forall l', (l' < w_next w1)%positive -> w_heap w2 !! l' = w_heap w1 !! l')
    by (intros l' Hlt; simpl; apply lookup_insert_ne; lia).
  destruct (Group_new_run (gx_defaults ex) d (Some (w_next w1)) w2 o (alloc_wf _ _ Hwf1)
    ltac:(rewrite Hfr2 by exact Hdlt; exact Hd) ltac:(simpl; apply lookup_insert_eq) ltac:(intros l' [= <-]; lia))
    as (l2 & w3 & E3 & _ & Hp2 & _ & Hk & Hal & _ & Hf3).
  specialize (Hal _ eq_refl).
  assert (Hf : forall l', (l' < w_next w1)%positive -> w_heap w3 !! l' = w_heap w1 !! l')
    by (intros l' Hlt; rewrite Hf3 by (simpl; lia); apply Hfr2, Hlt).
  assert (Hsg : (gx_singleton ex < w_next w1)%positive)
    by (apply Hwf1; unfold prop in Hp; destruct (w_heap w1 !! gx_singleton ex); [eauto|discriminate]).
  exists ex, d, w1, (w_next w1), w2, (w_next w2), l2, w3, l1.
  split; [exact E1|]. split; [exact Hd|]. split; [reflexivity|]. split; [rewrite Hx; exact E3|].
  split; [exact Hp2|]. split; [exact Hk|].
  split; [unfold prop in *; rewrite Hf by exact Hsg; exact Hp|].
  split; [unfold prop in *; rewrite Hf by exact Hl1; exact Hper|].
  split; [rewrite (nested_key_frame w1 w3 l1 _ (w_next w1)); auto; [lia | congruence]|].
  rewrite (nested_key_frame w1 w3 l1 _ (w_next w1)); auto; [lia | congruence].
Qed.

(** C30: two groups built without options share the nested options objects
    of [Group.defaults]: their own options objects differ, but both hold
    the very reference [Group.defaults.cookie], so a write through one
    group's [cookie] options is seen by the other and by every later
    group. *)
Theorem group_shared_cookie gd d w :
  heap_wf w -> w_heap w !! gd = Some d ->
  exists g1 g2 l1 l2 w', (g1 ← Group_new gd None; g2 ← Group_new gd None; mret (g1, g2)) w = (Ok (g1, g2), w') /\
    prop w' g1 "_options" = PObj l1 /\ prop w' g2 "_options" = PObj l2 /\ l1 <> l2 /\
    prop w' l1 "cookie" = prop_of d "cookie" /\ prop w' l2 "cookie" = prop_of d "cookie".
Proof.
  intros Hwf Hd.
  destruct (Group_new_run gd d None w ∅ Hwf Hd eq_refl ltac:(discriminate))
    as (l1 & w1 & E1 & Hwf1 & Hp1 & Hl1 & Hk1 & _ & Hnew1 & Hframe1).
  assert (Hd1 : w_heap w1 !! gd = Some d).
  { rewrite Hframe1; [exact Hd| |apply Hwf; eauto]. specialize (Hnew1 eq_refl).
    assert (gd < w_next w)%positive by (apply Hwf; eauto). lia. }
  destruct (Group_new_run gd d None w1 ∅ Hwf1 Hd1 eq_refl ltac:(discriminate))
    as (l2 & w2 & E2 & _ & Hp2 & _ & Hk2 & _ & Hnew2 & Hframe2).
  specialize (Hnew2 eq_refl).
  assert (Hl1n : (l1 < w_next w1)%positive) by (apply Hwf1, Hl1).
  assert (Hsn : (w_next w < w_next w1)%positive) by (apply Hwf1; unfold prop in Hp1;
    destruct (w_heap w1 !! w_next w); [eexists; reflexivity | discriminate]).
  exists (w_next w), (w_next w1), l1, l2, w2. split.
  - rewrite (bind_ok _ _ w _ w1) by exact E1. rewrite (bind_ok _ _ w1 _ w2) by exact E2. reflexivity.
  - split; [unfold prop in *; rewrite Hframe2 by lia; exact Hp1|]. split; [exact Hp2|].
    split; [lia|]. split; [|rewrite Hk2; reflexivity].
    unfold prop. rewrite Hframe2 by lia. fold (prop w1 l1 "cookie"). rewrite Hk1. reflexivity.
Qed.

(** C31: the merge over [Group.defaults] is shallow: for caller options
    whose [cookie] field is an object, the group's [cookie] options are
    that object itself, so the group's cookie key is whatever the
    caller's nested object holds; the default key [ajs_group_id] is not
    merged into it. *)
Theorem group_nested_override gd d lo o c oc w :
  heap_wf w -> w_heap w !! gd = Some d -> w_heap w !! lo = Some o -> lo <> gd ->
  prop_of o "cookie" = PObj c -> w_heap w !! c = Some oc -> c <> lo ->
  exists self l w', Group_new gd (Some lo) w = (Ok self, w') /\ prop w' self "_options" = PObj l /\
    nested_key w' l "cookie" = prop_of oc "key".
Proof.
  intros Hwf Hd Ho Hne Hc Hoc Hcl.
  destruct (Group_new_run gd d (Some lo) w o Hwf Hd Ho ltac:(intros l' [= <-]; exact Hne))
    as (l & w' & E & _ & Hp & _ & Hk & Hal & _ & Hf).
  specialize (Hal lo eq_refl). subst l.
  exists (w_next w), lo, w'. split; [exact E|]. split; [exact Hp|].
  unfold nested_key. rewrite Hk. unfold over_defaults. rewrite Hc.
  unfold prop. rewrite Hf by (auto; apply Hwf; rewrite Hoc; eauto). rewrite Hoc. reflexivity.
Qed.

End Proofs.

(** ** Witnesses, with the [Entity] modelled from the spec *)

Lemma group_options_merge_witness :
  exists self l w', Group_new 1%positive (Some 2%positive)
      (mk_world {[1%positive := {[ "persist" := PBool true ]}; 2%positive := {[ "persist" := PBool false ]}]} 3%positive []) =
      (Ok self, w') /\ prop w' self "_options" = PObj l /\
    (forall k, prop w' l k = over_defaults {[ "persist" := PBool false ]} {[ "persist" := PBool true ]} k) /\
    (forall l', Some 2%positive = Some l' -> l = l').
Proof.
  apply group_options_merge; try reflexivity; [apply heap_wfb_sound; reflexivity | congruence].
Defined.

Lemma group_singleton_options_witness :
  exists ex l w', group_module (page_load []) = (Ok ex, w') /\ prop w' (gx_singleton ex) "_options" = PObj l /\
    prop w' l "persist" = PBool true /\ nested_key w' l "cookie" = PStr "ajs_group_id" /\
    nested_key w' l "localStorage" = PStr "ajs_group_properties".
Proof. apply group_singleton_options. apply heap_wfb_sound. reflexivity. Defined.

Lemma group_second_instance_witness :
  exists ex d w1 lo w2 g2 l2 w3 l1,
    group_module (page_load []) = (Ok ex, w1) /\ w_heap w1 !! gx_defaults ex = Some d /\
    alloc {[ "persist" := PBool false ]} w1 = (Ok lo, w2) /\ gx_Group ex (Some lo) w2 = (Ok g2, w3) /\
    prop w3 g2 "_options" = PObj l2 /\ (forall k, prop w3 l2 k = over_defaults {[ "persist" := PBool false ]} d k) /\
    prop w3 (gx_singleton ex) "_options" = PObj l1 /\ prop w3 l1 "persist" = PBool true /\
    nested_key w3 l1 "cookie" = PStr "ajs_group_id" /\ nested_key w3 l1 "localStorage" = PStr "ajs_group_properties".
Proof. apply group_second_instance. apply heap_wfb_sound. reflexivity. Defined.

Lemma group_shared_cookie_witness :
  exists g1 g2 l1 l2 w',
    (g1 ← Group_new 3%positive None; g2 ← Group_new 3%positive None; mret (g1, g2)) (snd (Group_defaults (page_load []))) =
    (Ok (g1, g2), w') /\
    prop w' g1 "_options" = PObj l1 /\ prop w' g2 "_options" = PObj l2 /\ l1 <> l2 /\
    prop w' l1 "cookie" = prop_of (<["persist" := PBool true]> (<["cookie" := PObj 1]> {[ "localStorage" := PObj 2 ]})) "cookie" /\
    prop w' l2 "cookie" = prop_of (<["persist" := PBool true]> (<["cookie" := PObj 1]> {[ "localStorage" := PObj 2 ]})) "cookie".
Proof. apply group_shared_cookie; [apply heap_wfb_sound|]; reflexivity. Defined.

Lemma group_nested_override_witness :
  exists self l w', Group_new 1%positive (Some 3%positive)
      (mk_world {[1%positive := {[ "persist" := PBool true ]}; 2%positive := {[ "maxage" := PNum 5 ]};
                  3%positive := {[ "cookie" := PObj 2 ]}]} 4%positive []) = (Ok self, w') /\
    prop w' self "_options" = PObj l /\ nested_key w' l "cookie" = prop_of {[ "maxage" := PNum 5 ]} "key".
Proof.
  apply (group_nested_override _ {[ "persist" := PBool true ]} _ {[ "cookie" := PObj 2 ]} 2%positive);
    [apply heap_wfb_sound; reflexivity | reflexivity | reflexivity | discriminate | reflexivity | reflexivity | discriminate].
Defined.

End Group.
